(** * MediaCleanup: a shallow embedding of [script.py]

    The script lists the movies and shows of an Emby server nobody watched
    for a number of days, looks them up in Radarr and Sonarr, optionally
    deletes them there, and can repeat that on a schedule.

    Conventions of the embedding.
    - A Python [str] is a [string] holding its UTF-8 bytes.  Byte-wise
      lexicographic order is code-point order, so [<] and [>] on Python
      strings are [String.ltb]; [in] on strings is [contains].  [lower]
      folds the ASCII letters only and leaves other bytes alone.
    - A JSON object read with [.get] is a record of [option] fields, [None]
      standing for a missing key.
    - A naive [datetime] is the number of microseconds since
      0001-01-01T00:00:00; [isoformat] prints it the way Python does.
    - Effects (HTTP requests, the clock, the operator's keyboard, warnings
      and errors of the log, exceptions) go through the monad [M] over a
      [World]; what the outside answers is fixed by an [Env].
    - What the script prints is kept as data ([Printed]), not as text.
      Info and debug log lines, the [Path] and [Overview] columns and the
      [ArrData] back-pointer, which nothing reads, are left out; an error
      message is kept up to the text of the exception.
    - A JSON [null] is not told apart from a missing key, and a catalogue
      entry counts as a non-empty object.
    - [runs] in the [World] is a ghost counter of the entries into
      [process_unwatched_media]; the script has no such variable. *)

From Stdlib Require Import ZArith List Bool String Ascii QArith Lia DecimalString.
From Stdlib Require Import Permutation Sorted.
Import ListNotations.

#[local] Open Scope string_scope.
#[local] Open Scope Z_scope.

(** ** Python strings *)

Module PyStr.

Definition lower_ascii (c : ascii) : ascii :=
  let n := nat_of_ascii c in
  if (Nat.leb 65 n && Nat.leb n 90)%bool then ascii_of_nat (n + 32) else c.

(** [s.lower()] *)
Fixpoint lower (s : string) : string :=
  match s with
  | EmptyString => EmptyString
  | String c r => String (lower_ascii c) (lower r)
  end.

(** [a in b], for strings *)
Fixpoint contains (a b : string) : bool :=
  String.prefix a b ||
  match b with
  | EmptyString => false
  | String _ r => contains a r
  end.

(** [a < b] and [a > b] *)
Definition lt (a b : string) : bool := String.ltb a b.
Definition gt (a b : string) : bool := String.ltb b a.

(** Truth value of a string that may be [None]. *)
Definition truthy (o : option string) : bool :=
  match o with
  | Some s => negb (String.eqb s "")
  | None => false
  end.

(** [x in l] for a list or a set of hashable values *)
Definition mem {A} (eqb : A -> A -> bool) (x : A) (l : list A) : bool :=
  existsb (eqb x) l.

Definition opt_eqb (a b : option string) : bool :=
  match a, b with
  | Some x, Some y => String.eqb x y
  | None, None => true
  | _, _ => false
  end.

(** A Python [set] is kept as a list without repetition, in insertion
    order; [add] is [set.add]. *)
Definition add {A} (eqb : A -> A -> bool) (x : A) (s : list A) : list A :=
  if mem eqb x s then s else s ++ [x].

(** [str(o)] inside an f-string *)
Definition fmt (o : option string) : string :=
  match o with Some s => s | None => "None" end.

Definition is_space (c : ascii) : bool :=
  let n := nat_of_ascii c in
  (Nat.eqb n 32 || (Nat.leb 9 n && Nat.leb n 13) || (Nat.leb 28 n && Nat.leb n 31))%bool.

Fixpoint lstrip (s : string) : string :=
  match s with
  | String c r => if is_space c then lstrip r else s
  | EmptyString => EmptyString
  end.

Fixpoint rstrip_with (p : ascii -> bool) (s : string) : string :=
  match s with
  | EmptyString => EmptyString
  | String c r =>
      match rstrip_with p r with
      | EmptyString => if p c then EmptyString else String c EmptyString
      | r' => String c r'
      end
  end.

(** [s.strip()] *)
Definition strip (s : string) : string := rstrip_with is_space (lstrip s).

(** [s.rstrip('/')] *)
Definition rstrip_slash (s : string) : string :=
  rstrip_with (fun c => Ascii.eqb c "/"%char) s.

(** [s.split(',')]: [cur] is the piece read so far. *)
Fixpoint split_comma_aux (cur : string) (s : string) : list string :=
  match s with
  | EmptyString => [cur]
  | String c r =>
      if Ascii.eqb c ","%char then cur :: split_comma_aux EmptyString r
      else split_comma_aux (cur ++ String c EmptyString) r
  end.

Definition split_comma (s : string) : list string :=
  split_comma_aux EmptyString s.

(** [{x.strip() for x in s.split(',') if x.strip()}] *)
Definition name_set (s : string) : list string :=
  fold_left (fun acc x =>
               let y := strip x in
               if String.eqb y "" then acc else add String.eqb y acc)
            (split_comma s) [].

End PyStr.

(** ** Python's naive [datetime] and [timedelta] (standard library) *)

Module PyTime.

(** Microseconds since 0001-01-01T00:00:00. *)
Definition datetime := Z.

Definition us_per_second : Z := 1000000.
Definition us_per_day : Z := 86400 * us_per_second.
Definition us_per_hour : Z := 3600 * us_per_second.

Definition is_leap (y : Z) : bool :=
  (y mod 4 =? 0) && (negb (y mod 100 =? 0) || (y mod 400 =? 0)).

Definition days_before_year (y : Z) : Z :=
  let p := y - 1 in p * 365 + p / 4 - p / 100 + p / 400.

Definition days_in_month (leap : bool) (m : Z) : Z :=
  if m =? 2 then (if leap then 29 else 28)
  else if (m =? 4) || (m =? 6) || (m =? 9) || (m =? 11) then 30
  else 31.

Fixpoint days_before_month_aux (leap : bool) (k : nat) : Z :=
  match k with
  | O => 0
  | S k' => days_before_month_aux leap k' + days_in_month leap (Z.of_nat k)
  end.

(** Days of the year before the first of month [m]. *)
Definition days_before_month (leap : bool) (m : Z) : Z :=
  days_before_month_aux leap (Z.to_nat (m - 1)).

(** Proleptic Gregorian ordinal, 0001-01-01 being day 1. *)
Definition ymd2ord (y m d : Z) : Z :=
  days_before_year y + days_before_month (is_leap y) m + d.

Definition ord2ymd (ord : Z) : Z * Z * Z :=
  let n := ord - 1 in
  let n400 := n / 146097 in
  let n := n mod 146097 in
  let n100 := n / 36524 in
  let n := n mod 36524 in
  let n4 := n / 1461 in
  let n := n mod 1461 in
  let n1 := n / 365 in
  let n := n mod 365 in
  let year := n400 * 400 + 1 + n100 * 100 + n4 * 4 + n1 in
  if (n1 =? 4) || (n100 =? 4) then (year - 1, 12, 31)
  else
    let leap := (n1 =? 3) && (negb (n4 =? 24) || (n100 =? 3)) in
    let month := Z.shiftr (n + 50) 5 in
    let preceding := days_before_month leap month in
    if n <? preceding
    then (year, month - 1,
          n - (preceding - days_in_month leap (month - 1)) + 1)
    else (year, month, n - preceding + 1).

(** [datetime(y, m, d, hh, mm, ss, us)] *)
Definition mk (y m d hh mm ss us : Z) : datetime :=
  (ymd2ord y m d - 1) * us_per_day
  + ((hh * 60 + mm) * 60 + ss) * us_per_second + us.

(** [datetime.min] and [datetime.max] *)
Definition min_dt : datetime := 0.
Definition max_dt : datetime := mk 9999 12 31 23 59 59 999999.

Definition in_range (t : Z) : bool := (min_dt <=? t) && (t <=? max_dt).

Definition digit (n : Z) : ascii := ascii_of_nat (48 + Z.to_nat (n mod 10)).

(** [n] printed in base ten on [w] digits, zero padded. *)
Fixpoint pad (w : nat) (n : Z) : string :=
  match w with
  | O => EmptyString
  | S w' => pad w' (n / 10) ++ String (digit n) EmptyString
  end.

(** [t.isoformat()] *)
Definition isoformat (t : datetime) : string :=
  let '(y, m, d) := ord2ymd (t / us_per_day + 1) in
  let r := t mod us_per_day in
  let us := r mod us_per_second in
  let s := r / us_per_second in
  pad 4 y ++ "-" ++ pad 2 m ++ "-" ++ pad 2 d ++ "T"
    ++ pad 2 (s / 3600) ++ ":" ++ pad 2 (s / 60 mod 60) ++ ":" ++ pad 2 (s mod 60)
    ++ (if us =? 0 then "" else "." ++ pad 6 us).

(** The largest number of days a [timedelta] holds. *)
Definition max_delta_days : Z := 999999999.

End PyTime.

(** ** The JSON objects the three services answer with *)

Module UserData.
Record t := mk {
  LastPlayedDate : option string;
  PlayedPercentage : option Q;
  Played : option bool }.
Definition empty : t := mk None None None.
End UserData.

(** An Emby item: a movie, a series or an episode. *)
Module Item.
Record t := mk {
  Id : option string;
  Name : option string;
  Type_ : option string;
  DateCreated : option string;
  DateLastPlayed : option string;
  UserData : option UserData.t;
  LibraryName : option string }.

(** [item['LibraryName'] = name] *)
Definition set_LibraryName (name : option string) (i : t) : t :=
  mk (Id i) (Name i) (Type_ i) (DateCreated i) (DateLastPlayed i)
     (UserData i) name.

Definition is_series (i : t) : bool :=
  PyStr.opt_eqb (Type_ i) (Some "Series").
Definition is_movie (i : t) : bool :=
  PyStr.opt_eqb (Type_ i) (Some "Movie").
End Item.

Module User.
Record t := mk { Name : option string; Id : option string }.
End User.

(** A virtual folder.  [TypeOptions] is [LibraryOptions.TypeOptions], each
    element reduced to its [Type] key. *)
Module Library.
Record t := mk {
  Name : option string;
  ItemId : option string;
  TypeOptions : option (list (option string)) }.
End Library.

(** A Radarr movie. *)
Module Movie.
Record t := mk {
  title : option string;
  id : option Z;
  sizeOnDisk : option Z }.
End Movie.

(** A Sonarr series; [sizeOnDisk] is [statistics.sizeOnDisk]. *)
Module Series.
Record t := mk {
  title : option string;
  id : option Z;
  sizeOnDisk : option Z }.
End Series.

(** ** What the script prints *)

(** A line of the report: [movie_data] or [show_data]. *)
Record MediaRow := mkRow {
  row_Name : string;
  row_Library : option string;
  row_Size : Z;
  row_Id : option Z }.

Inductive Printed :=
| UnwatchedReport (movies shows : list MediaRow)
                  (total_movie_size total_show_size total_size : Z)
| DeletionHeader (dry_run : bool)
| WouldDelete (r : MediaRow)                 (* dry run *)
| WouldDeleteIfNotInterval (r : MediaRow)
| Deleting (r : MediaRow)
| DeletedOk (r : MediaRow)
| DeleteFailed (r : MediaRow)
| PromptHelp
| DeletionSummary (dry_run : bool)
                  (movie_count movie_size show_count show_size : Z)
| LibraryLine (name type : string)
| EndOfRun (t : PyTime.datetime).

(** ** Effects *)

Record Request := mkRequest {
  verb : string;
  url : string;
  headers : list (string * string);
  params : list (string * string) }.

(** A query parameter; [requests] drops the ones whose value is [None]. *)
Definition param (k : string) (v : option string) : list (string * string) :=
  match v with Some s => [(k, s)] | None => [] end.

Inductive exn :=
| SystemExit (code : Z)
| KeyboardInterrupt
| PyError (what : string).  (* any subclass of [Exception] *)

Inductive outcome (A : Type) :=
| Ok (a : A)
| Raise (e : exn).
Arguments Ok {A} a.
Arguments Raise {A} e.

(** What the operator does at an [input()] prompt; an exhausted [stdin] is
    end of file. *)
Inductive KeyLine :=
| Line (s : string)
| CtrlC.

Inductive Level := WARNING | ERROR.

Record World := mkWorld {
  calls : list Request;              (* HTTP requests issued, oldest first *)
  nows : nat;                        (* readings of [datetime.now()] so far *)
  stdin : list KeyLine;              (* what is left to read *)
  log : list (Level * string);       (* warnings and errors, oldest first *)
  stdout : list Printed;             (* oldest first *)
  runs : nat;                        (* ghost: entries into [process_unwatched_media] *)
  movies_cache : option (list Movie.t);    (* [RadarrClient._movies_cache] *)
  series_cache : option (list Series.t) }. (* [SonarrClient._series_cache] *)

Definition world0 (keys : list KeyLine) : World :=
  mkWorld [] 0 keys [] [] 0 None None.

(** What the outside answers.  [None] from a service is a
    [RequestException]. *)
Record Env := mkEnv {
  clock : nat -> PyTime.datetime;    (* the n-th reading of the clock *)
  emby_users : Request -> option (list User.t);
  emby_libraries : Request -> option (list Library.t);
  emby_items : Request -> option (list Item.t);
  radarr_movies : Request -> option (list Movie.t);
  sonarr_series : Request -> option (list Series.t);
  arr_delete : Request -> bool;      (* does the DELETE succeed *)
  sigterm : nat -> bool }.           (* is the stop flag up after n clock readings *)

Definition M (A : Type) : Type := World -> outcome A * World.

Definition ret {A} (a : A) : M A := fun w => (Ok a, w).

Definition bind {A B} (m : M A) (f : A -> M B) : M B :=
  fun w => match m w with
           | (Ok a, w') => f a w'
           | (Raise e, w') => (Raise e, w')
           end.

Definition raise {A} (e : exn) : M A := fun w => (Raise e, w).

(** [try: m  except Exception as e: h e] *)
Definition try_except {A} (m : M A) (h : string -> M A) : M A :=
  fun w => match m w with
           | (Raise (PyError s), w') => h s w'
           | r => r
           end.

Declare Scope m_scope.
Delimit Scope m_scope with m.
Notation "x <- c1 ;; c2" := (bind c1 (fun x => c2))
  (at level 61, c1 at next level, right associativity) : m_scope.
Notation "c1 ;;; c2" := (bind c1 (fun _ => c2))
  (at level 61, right associativity) : m_scope.
#[local] Open Scope m_scope.

(** [for x in l: s = body x s] *)
Fixpoint for_each {A S} (l : list A) (body : A -> S -> M S) (s : S) : M S :=
  match l with
  | [] => ret s
  | x :: r => s' <- body x s ;; for_each r body s'
  end.

Definition put_call (r : Request) : M unit :=
  fun w => (Ok tt, mkWorld (calls w ++ [r]) (nows w) (stdin w) (log w)
                           (stdout w) (runs w) (movies_cache w) (series_cache w)).

Definition logger (l : Level) (msg : string) : M unit :=
  fun w => (Ok tt, mkWorld (calls w) (nows w) (stdin w) (log w ++ [(l, msg)])
                           (stdout w) (runs w) (movies_cache w) (series_cache w)).

Definition print_flush (p : Printed) : M unit :=
  fun w => (Ok tt, mkWorld (calls w) (nows w) (stdin w) (log w)
                           (stdout w ++ [p]) (runs w) (movies_cache w)
                           (series_cache w)).

Definition enter_run : M unit :=
  fun w => (Ok tt, mkWorld (calls w) (nows w) (stdin w) (log w) (stdout w)
                           (S (runs w)) (movies_cache w) (series_cache w)).

Definition get_movies_cache : M (option (list Movie.t)) :=
  fun w => (Ok (movies_cache w), w).
Definition set_movies_cache (c : option (list Movie.t)) : M unit :=
  fun w => (Ok tt, mkWorld (calls w) (nows w) (stdin w) (log w) (stdout w)
                           (runs w) c (series_cache w)).
Definition get_series_cache : M (option (list Series.t)) :=
  fun w => (Ok (series_cache w), w).
Definition set_series_cache (c : option (list Series.t)) : M unit :=
  fun w => (Ok tt, mkWorld (calls w) (nows w) (stdin w) (log w) (stdout w)
                           (runs w) (movies_cache w) c).

(** [input(...)] *)
Definition input : M string :=
  fun w => match stdin w with
           | [] => (Raise (PyError "EOFError"), w)
           | k :: rest =>
               let w' := mkWorld (calls w) (nows w) rest (log w) (stdout w)
                                 (runs w) (movies_cache w) (series_cache w) in
               match k with
               | Line s => (Ok s, w')
               | CtrlC => (Raise KeyboardInterrupt, w')
               end
           end.

(** Python's [str(n)] for an integer. *)
Definition str_of_Z (n : Z) : string := NilZero.string_of_int (Z.to_int n).

(** ** [format_size] *)

(** [num / den] rounded to the nearest integer, ties to the even one
    ([den] positive). *)
Definition round_half_even (num den : Z) : Z :=
  let q := num / den in
  let r := num mod den in
  if 2 * r <? den then q
  else if den <? 2 * r then q + 1
  else if Z.even q then q else q + 1.

(** The double nearest to the integer [n], for [0 <= n]: a double has 53
    significant bits, and from [2^53] on the doubles are integers. *)
Definition nearest_double (n : Z) : Z :=
  if n <? 2 ^ 53 then n
  else let e := Z.log2 n - 52 in round_half_even n (2 ^ e) * 2 ^ e.

(** The hundredths that [f"{n / 2**k:.2f}"] prints: the quotient is the
    double nearest to [n / 2^k], and [.2f] rounds its exact value to two
    decimals, ties to even. *)
Definition hundredths (n : Z) (k : Z) : Z :=
  round_half_even (100 * nearest_double n) (2 ^ k).

(** [f"{h / 100:.2f}"] for a number of hundredths [h], [0 <= h]. *)
Definition print_2f (h : Z) : string :=
  str_of_Z (h / 100) ++ "." ++ PyTime.pad 2 (h mod 100).

Definition format_size (size_in_bytes : Z) : outcome string :=
  if size_in_bytes <? 1024 then Ok (str_of_Z size_in_bytes ++ " B")
  else if size_in_bytes <? 1024 * 1024
  then Ok (print_2f (hundredths size_in_bytes 10) ++ " KB")
  else if size_in_bytes <? 1024 * 1024 * 1024
  then Ok (print_2f (hundredths size_in_bytes 20) ++ " MB")
  else if nearest_double size_in_bytes <? 2 ^ 1054
  then Ok (print_2f (hundredths size_in_bytes 30) ++ " GB")
  else Raise (PyError "OverflowError").

(** ** The command line *)

Module DeleteMode.
Inductive t := interactive | all | none.
End DeleteMode.

(** The parsed command line. *)
Record Args := mkArgs {
  server : string;
  api_key : string;
  days : Z;
  whitelist : string;
  include_recent : bool;
  ignore_episodes : bool;
  ignore_recent_episodes : bool;
  sonarr_url : option string;
  sonarr_api_key : option string;
  radarr_url : option string;
  radarr_api_key : option string;
  sort_by_size : bool;
  delete_mode : DeleteMode.t;
  delete_files : bool;
  dry_run : bool;
  libraries : option string;
  list_libraries : bool;
  interval : option Z;
  run_at_start : bool }.

(** [args.delete_mode = m] *)
Definition set_delete_mode (m : DeleteMode.t) (a : Args) : Args :=
  mkArgs (server a) (api_key a) (days a) (whitelist a) (include_recent a)
         (ignore_episodes a) (ignore_recent_episodes a) (sonarr_url a)
         (sonarr_api_key a) (radarr_url a) (radarr_api_key a) (sort_by_size a)
         m (delete_files a) (dry_run a) (libraries a) (list_libraries a)
         (interval a) (run_at_start a).

(** [if args.interval:] *)
Definition interval_set (a : Args) : bool :=
  match interval a with Some h => negb (h =? 0) | None => false end.

Section Program.

Variable env : Env.

(** [datetime.datetime.now()] *)
Definition now : M PyTime.datetime :=
  fun w => (Ok (clock env (nows w)),
            mkWorld (calls w) (S (nows w)) (stdin w) (log w) (stdout w)
                    (runs w) (movies_cache w) (series_cache w)).

(** [stop_event["stop"]] *)
Definition stop_requested : M bool :=
  fun w => (Ok (sigterm env (nows w)), w).

(** [(t - datetime.timedelta(days=days)).isoformat()] *)
Definition cutoff_of (t : PyTime.datetime) (days : Z) : M string :=
  if (Z.abs days <=? PyTime.max_delta_days)
     && PyTime.in_range (t - days * PyTime.us_per_day)
  then ret (PyTime.isoformat (t - days * PyTime.us_per_day))
  else raise (PyError "OverflowError").

(** [requests.get(...)] followed by [raise_for_status()] and [json()]:
    the request is recorded, and [resp] says what comes back. *)
Definition http_get {A} (resp : Request -> option A) (r : Request) : M (option A) :=
  put_call r ;;; ret (resp r).

(** *** [EmbyClient] *)

(** [self.server_url] and [self.headers] *)
Record Conn := mkConn {
  server_url : string;
  conn_headers : list (string * string) }.

Definition emby_headers (api_key : string) : list (string * string) :=
  [("X-Emby-Token", api_key); ("Content-Type", "application/json")].

(** The instance.  The three methods [process_unwatched_media] may replace
    on the instance are fields; the others are the functions below. *)
Record EmbyClient := mkEmbyClient {
  conn : Conn;
  whitelisted_users : list string;
  get_items_by_library : string -> M (list Item.t);
  get_episodes_by_series : option string -> M (list Item.t);
  get_user_episodes_by_series : option string -> option string -> M (list Item.t) }.

Definition get_libraries (c : Conn) : M (list Library.t) :=
  r <- http_get (emby_libraries env)
         (mkRequest "GET" (server_url c ++ "/emby/Library/VirtualFolders")
                    (conn_headers c) []) ;;
  match r with
  | Some libraries => ret libraries
  | None => logger ERROR "Error fetching libraries" ;;; ret []
  end.

Definition items_request (c : Conn) (library_id : string) : Request :=
  mkRequest "GET" (server_url c ++ "/emby/Items") (conn_headers c)
    [("ParentId", library_id); ("Recursive", "True");
     ("IncludeItemTypes", "Movie,Series");
     ("Fields", "DateLastPlayed,Path,MediaStreams,Overview,DateCreated");
     ("SortBy", "DateCreated,SortName"); ("SortOrder", "Descending")].

Definition EmbyClient_get_items_by_library (c : Conn) (library_id : string)
  : M (list Item.t) :=
  r <- http_get (emby_items env) (items_request c library_id) ;;
  match r with
  | Some items => ret items
  | None =>
      logger ERROR ("Error fetching items from library " ++ library_id) ;;; ret []
  end.

Definition get_users (c : Conn) : M (list User.t) :=
  r <- http_get (emby_users env)
         (mkRequest "GET" (server_url c ++ "/emby/Users") (conn_headers c) []) ;;
  match r with
  | Some users => ret users
  | None => logger ERROR "Error fetching users" ;;; ret []
  end.

Definition user_items_request (c : Conn) (user_id : option string)
           (library_id : string) : Request :=
  mkRequest "GET" (server_url c ++ "/emby/Users/" ++ PyStr.fmt user_id ++ "/Items")
    (conn_headers c)
    [("ParentId", library_id); ("Recursive", "True");
     ("IncludeItemTypes", "Movie,Series");
     ("Fields", "DateLastPlayed,Path,MediaStreams,Overview,UserData");
     ("SortBy", "DateCreated,SortName"); ("SortOrder", "Descending")].

Definition get_user_items_by_library (c : Conn) (user_id : option string)
           (library_id : string) : M (list Item.t) :=
  r <- http_get (emby_items env) (user_items_request c user_id library_id) ;;
  match r with
  | Some items => ret items
  | None =>
      logger ERROR ("Error fetching items from library " ++ library_id
                    ++ " for user " ++ PyStr.fmt user_id) ;;;
      ret []
  end.

Definition episodes_request (c : Conn) (series_id : option string) : Request :=
  mkRequest "GET" (server_url c ++ "/emby/Items") (conn_headers c)
    (param "ParentId" series_id ++
     [("Recursive", "True"); ("IncludeItemTypes", "Episode");
      ("Fields", "DateLastPlayed,Path,MediaStreams,Overview,UserData,DateCreated");
      ("SortBy", "DateCreated"); ("SortOrder", "Descending")]).

Definition EmbyClient_get_episodes_by_series (c : Conn)
           (series_id : option string) : M (list Item.t) :=
  r <- http_get (emby_items env) (episodes_request c series_id) ;;
  match r with
  | Some items => ret items
  | None =>
      logger ERROR ("Error fetching episodes for series " ++ PyStr.fmt series_id) ;;;
      ret []
  end.

Definition user_episodes_request (c : Conn) (user_id series_id : option string)
  : Request :=
  mkRequest "GET" (server_url c ++ "/emby/Users/" ++ PyStr.fmt user_id ++ "/Items")
    (conn_headers c)
    (param "ParentId" series_id ++
     [("Recursive", "True"); ("IncludeItemTypes", "Episode");
      ("Fields", "DateLastPlayed,Path,MediaStreams,Overview,UserData");
      ("SortBy", "SortName"); ("SortOrder", "Ascending")]).

Definition EmbyClient_get_user_episodes_by_series (c : Conn)
           (user_id series_id : option string) : M (list Item.t) :=
  r <- http_get (emby_items env) (user_episodes_request c user_id series_id) ;;
  match r with
  | Some items => ret items
  | None =>
      logger ERROR ("Error fetching episodes for series " ++ PyStr.fmt series_id
                    ++ " for user " ++ PyStr.fmt user_id) ;;;
      ret []
  end.

(** [EmbyClient(server_url, api_key, whitelisted_users)] *)
Definition new_EmbyClient (url api_key : string) (wl : list string) : EmbyClient :=
  let c := mkConn (PyStr.rstrip_slash url) (emby_headers api_key) in
  mkEmbyClient c wl
    (EmbyClient_get_items_by_library c)
    (EmbyClient_get_episodes_by_series c)
    (EmbyClient_get_user_episodes_by_series c).

(** *** [EmbyClient.get_unwatched_items] *)

(** [d and d > cutoff_date] *)
Definition after (d : option string) (cutoff_date : string) : bool :=
  match d with
  | Some s => negb (String.eqb s "") && PyStr.gt s cutoff_date
  | None => false
  end.

(** [not d or d < cutoff_date] *)
Definition never_or_before (d : option string) (cutoff_date : string) : bool :=
  match d with
  | Some s => String.eqb s "" || PyStr.lt s cutoff_date
  | None => true
  end.

(** [played_percentage > 75] *)
Definition over_75 (p : Q) : bool := negb (Qle_bool p 75).

(** The test of lines 262-264 and 285-287 on [item.get('UserData', {})]. *)
Definition watched (cutoff_date : string) (i : Item.t) : bool :=
  let user_data :=
    match Item.UserData i with Some d => d | None => UserData.empty end in
  let last_played := UserData.LastPlayedDate user_data in
  let played_percentage :=
    match UserData.PlayedPercentage user_data with Some p => p | None => 0%Q end in
  let played :=
    match UserData.Played user_data with Some b => b | None => false end in
  after last_played cutoff_date || played || over_75 played_percentage.

Definition id_set := list (option string).

Definition id_in (x : option string) (s : id_set) : bool :=
  PyStr.mem PyStr.opt_eqb x s.

Definition id_add (x : option string) (s : id_set) : id_set :=
  PyStr.add PyStr.opt_eqb x s.

(** Lines 206-211: the ids and the names of the users on the whitelist. *)
Definition find_whitelisted (wl : list string) (users : list User.t)
  : id_set * list string :=
  fold_left
    (fun (acc : id_set * list string) user =>
       let user_name := match User.Name user with Some n => n | None => "" end in
       if PyStr.mem String.eqb (PyStr.lower user_name) (map PyStr.lower wl)
       then (id_add (User.Id user) (fst acc),
             PyStr.add String.eqb user_name (snd acc))
       else acc)
    users ([], []).

(** Lines 214-216. *)
Definition warn_missing (wl names : list string) : M unit :=
  for_each wl
    (fun whitelist_name _ =>
       if existsb (fun wname =>
                     String.eqb (PyStr.lower wname) (PyStr.lower whitelist_name))
                  names
       then ret tt
       else logger WARNING ("Whitelisted user '" ++ whitelist_name
                            ++ "' not found on the server"))
    tt.

(** Lines 225-230. *)
Definition filter_libraries (library_names : list string)
           (libraries : list Library.t) : list Library.t :=
  filter (fun library =>
            PyStr.truthy (Library.Name library) &&
            match Library.Name library with
            | Some n => PyStr.mem String.eqb n library_names
            | None => false
            end)
         libraries.

(** Lines 251-291, for one item of one whitelisted user. *)
Definition whitelist_item (c : EmbyClient) (cutoff_date : string)
           (user_id : option string) (item : Item.t) (wbw : id_set) : M id_set :=
  if watched cutoff_date item then
    let wbw := id_add (Item.Id item) wbw in
    if Item.is_series item then
      let series_id := Item.Id item in
      episodes <- get_user_episodes_by_series c user_id series_id ;;
      ret (if existsb (watched cutoff_date) episodes
           then id_add series_id wbw else wbw)
    else ret wbw
  else ret wbw.

(** Lines 244-291. *)
Definition whitelist_pass (c : EmbyClient) (cutoff_date : string)
           (libraries : list Library.t) (whitelisted_user_ids : id_set)
  : M id_set :=
  for_each libraries
    (fun library wbw =>
       match Library.ItemId library with
       | Some library_id =>
           if String.eqb library_id "" then ret wbw
           else
             for_each whitelisted_user_ids
               (fun user_id wbw =>
                  user_items <- get_user_items_by_library (conn c) user_id library_id ;;
                  for_each user_items (whitelist_item c cutoff_date user_id) wbw)
               wbw
       | None => ret wbw
       end)
    [].

(** Lines 306-340, for one item of one library. *)
Definition scan_item (c : EmbyClient) (cutoff_date : string) (wbw : id_set)
           (library_name : option string) (item : Item.t)
           (unwatched_items : list Item.t) : M (list Item.t) :=
  let item_id := Item.Id item in
  if id_in item_id wbw then ret unwatched_items
  else
    recently_watched <-
      (if Item.is_series item && negb (id_in item_id wbw) then
         episodes <- get_episodes_by_series c item_id ;;
         ret (existsb (fun episode => after (Item.DateLastPlayed episode) cutoff_date)
                      episodes)
       else ret false) ;;
    if recently_watched then ret unwatched_items
    else if after (Item.DateCreated item) cutoff_date then ret unwatched_items
    else if never_or_before (Item.DateLastPlayed item) cutoff_date
    then ret (unwatched_items ++ [Item.set_LibraryName library_name item])%list
    else ret unwatched_items.

(** Lines 296-340. *)
Definition scan_pass (c : EmbyClient) (cutoff_date : string) (wbw : id_set)
           (libraries : list Library.t) : M (list Item.t) :=
  for_each libraries
    (fun library unwatched_items =>
       match Library.ItemId library with
       | Some library_id =>
           if String.eqb library_id "" then ret unwatched_items
           else
             items <- get_items_by_library c library_id ;;
             for_each items (scan_item c cutoff_date wbw (Library.Name library))
                      unwatched_items
       | None => ret unwatched_items
       end)
    [].

(** The body of the method once [cutoff_date] is known (lines 202-343). *)
Definition get_unwatched_items_with (c : EmbyClient) (cutoff_date : string)
           (library_names : option (list string)) : M (list Item.t) :=
  users <- get_users (conn c) ;;
  let '(whitelisted_user_ids, whitelisted_user_names) :=
    find_whitelisted (whitelisted_users c) users in
  warn_missing (whitelisted_users c) whitelisted_user_names ;;;
  libraries <- get_libraries (conn c) ;;
  let resolve libraries :=
    watched_by_whitelisted <-
      (match whitelisted_user_ids with
       | [] => ret []
       | _ => whitelist_pass c cutoff_date libraries whitelisted_user_ids
       end) ;;
    scan_pass c cutoff_date watched_by_whitelisted libraries in
  match library_names with
  | Some ((_ :: _) as names) =>
      match filter_libraries names libraries with
      | [] =>
          logger WARNING
            ("None of the specified libraries were found. Available libraries: "
             ++ String.concat ", "
                  (map (fun lib => match Library.Name lib with
                                   | Some n => n | None => "Unknown" end)
                       libraries)) ;;;
          ret []
      | filtered_libraries => resolve filtered_libraries
      end
  | _ => resolve libraries
  end.

Definition get_unwatched_items (c : EmbyClient) (days : Z)
           (library_names : option (list string)) : M (list Item.t) :=
  t <- now ;;
  cutoff_date <- cutoff_of t days ;;
  get_unwatched_items_with c cutoff_date library_names.

(** *** [SonarrClient] and [RadarrClient] *)

Record ArrClient := mkArrClient {
  arr_url : string;
  arr_headers : list (string * string) }.

Definition new_SonarrClient (url api_key : string) : M ArrClient :=
  set_series_cache None ;;;
  ret (mkArrClient (PyStr.rstrip_slash url) [("X-Api-Key", api_key)]).

Definition new_RadarrClient (url api_key : string) : M ArrClient :=
  set_movies_cache None ;;;
  ret (mkArrClient (PyStr.rstrip_slash url) [("X-Api-Key", api_key)]).

Definition get_all_series (c : ArrClient) : M (list Series.t) :=
  cache <- get_series_cache ;;
  match cache with
  | Some series_list => ret series_list
  | None =>
      r <- http_get (sonarr_series env)
             (mkRequest "GET" (arr_url c ++ "/api/v3/series") (arr_headers c) []) ;;
      match r with
      | Some series_list => set_series_cache (Some series_list) ;;; ret series_list
      | None => logger ERROR "Error fetching series from Sonarr" ;;; ret []
      end
  end.

Definition get_all_movies (c : ArrClient) : M (list Movie.t) :=
  cache <- get_movies_cache ;;
  match cache with
  | Some movie_list => ret movie_list
  | None =>
      r <- http_get (radarr_movies env)
             (mkRequest "GET" (arr_url c ++ "/api/v3/movie") (arr_headers c) []) ;;
      match r with
      | Some movie_list => set_movies_cache (Some movie_list) ;;; ret movie_list
      | None => logger ERROR "Error fetching movies from Radarr" ;;; ret []
      end
  end.

(** [entry.get('title', '')] *)
Definition title_or_empty (t : option string) : string :=
  match t with Some s => s | None => "" end.

(** The first loop of [find_series_by_title] and [find_movie_by_title]. *)
Fixpoint exact_match {E} (get_title : E -> option string) (all : list E)
         (title : string) : option E :=
  match all with
  | [] => None
  | e :: rest =>
      if String.eqb (PyStr.lower (title_or_empty (get_title e))) (PyStr.lower title)
      then Some e
      else exact_match get_title rest title
  end.

(** Their second loop. *)
Fixpoint fuzzy_match {E} (get_title : E -> option string) (all : list E)
         (title : string) : option E :=
  match all with
  | [] => None
  | e :: rest =>
      if PyStr.contains (PyStr.lower title)
                        (PyStr.lower (title_or_empty (get_title e)))
         || PyStr.contains (PyStr.lower (title_or_empty (get_title e)))
                           (PyStr.lower title)
      then Some e
      else fuzzy_match get_title rest title
  end.

Definition find_by_title {E} (get_title : E -> option string) (all : list E)
           (title : string) : option E :=
  match exact_match get_title all title with
  | Some e => Some e
  | None => fuzzy_match get_title all title
  end.

Definition find_series_by_title (c : ArrClient) (title : string)
  : M (option Series.t) :=
  all_series <- get_all_series c ;;
  ret (find_by_title Series.title all_series title).

Definition find_movie_by_title (c : ArrClient) (title : string)
  : M (option Movie.t) :=
  all_movies <- get_all_movies c ;;
  ret (find_by_title Movie.title all_movies title).

(** [requests.delete(...)] followed by [raise_for_status()]. *)
Definition http_delete (r : Request) : M bool :=
  put_call r ;;; ret (arr_delete env r).

Definition delete_request (c : ArrClient) (what : string) (id : Z)
           (delete_files : bool) : Request :=
  mkRequest "DELETE" (arr_url c ++ "/api/v3/" ++ what ++ "/" ++ str_of_Z id)
            (arr_headers c)
            [("deleteFiles", if delete_files then "true" else "false")].

Definition opt_Z_eqb (o : option Z) (n : Z) : bool :=
  match o with Some m => m =? n | None => false end.

(** [next((e.get('title', 'Unknown') for e in l if e.get('id') == id), 'Unknown')] *)
Definition name_of_id {E} (get_title : E -> option string) (get_id : E -> option Z)
           (l : list E) (id : Z) : string :=
  match find (fun e => opt_Z_eqb (get_id e) id) l with
  | Some e => match get_title e with Some s => s | None => "Unknown" end
  | None => "Unknown"
  end.

Definition delete_series (c : ArrClient) (series_id : Z) (delete_files : bool)
  : M bool :=
  all_series <- get_all_series c ;;
  let series_name := name_of_id Series.title Series.id all_series series_id in
  ok <- http_delete (delete_request c "series" series_id delete_files) ;;
  if ok then
    cache <- get_series_cache ;;
    match cache with
    | Some l =>
        set_series_cache
          (Some (filter (fun s => negb (opt_Z_eqb (Series.id s) series_id)) l))
    | None => ret tt
    end ;;;
    ret true
  else
    logger ERROR ("Error deleting series '" ++ series_name ++ "' (ID: "
                  ++ str_of_Z series_id ++ ")") ;;;
    ret false.

Definition delete_movie (c : ArrClient) (movie_id : Z) (delete_files : bool)
  : M bool :=
  ok <- http_delete (delete_request c "movie" movie_id delete_files) ;;
  if ok then
    cache <- get_movies_cache ;;
    match cache with
    | Some l =>
        set_movies_cache
          (Some (filter (fun m => negb (opt_Z_eqb (Movie.id m) movie_id)) l)) ;;;
        ret true
    | None =>
        (* [movie_name] is read on line 515 and was never bound *)
        raise (PyError "UnboundLocalError")
    end
  else
    all_movies <- get_all_movies c ;;
    let movie_name := name_of_id Movie.title Movie.id all_movies movie_id in
    logger ERROR ("Error deleting movie '" ++ movie_name ++ "' (ID: "
                  ++ str_of_Z movie_id ++ ")") ;;;
    ret false.

(** *** [prompt_for_deletion] *)

(** The [while True] loop reads a line at each turn, so it makes at most
    one turn more than there are lines left: [fuel] counts the turns. *)
Fixpoint prompt_loop (fuel : nat) : M bool :=
  match fuel with
  | O => raise (PyError "EOFError")
  | S fuel' =>
      line <- input ;;
      let response := PyStr.lower line in
      if String.eqb response "y" || String.eqb response "yes" then ret true
      else if String.eqb response "n" || String.eqb response "no" then ret false
      else if String.eqb response "q" || String.eqb response "quit"
      then raise (SystemExit 0)
      else print_flush PromptHelp ;;; prompt_loop fuel'
  end.

Definition prompt_for_deletion : M bool :=
  fun w => prompt_loop (S (List.length (stdin w))) w.

(** *** [process_unwatched_media] *)

(** Lines 755-756. *)
Definition patch_ignore_episodes (c : EmbyClient) : EmbyClient :=
  mkEmbyClient (conn c) (whitelisted_users c) (get_items_by_library c)
               (fun _ => ret []) (fun _ _ => ret []).

(** Lines 760-781; [client] is the instance the closure captured. *)
Definition updated_get_items (client : EmbyClient) (library_id : string)
  : M (list Item.t) :=
  r <- http_get (emby_items env)
         (mkRequest "GET" (server_url (conn client) ++ "/emby/Items")
            (conn_headers (conn client))
            [("ParentId", library_id); ("Recursive", "True");
             ("IncludeItemTypes", "Movie,Series");
             ("Fields", "DateLastPlayed,Path,MediaStreams,Overview,DateCreated");
             ("SortBy", "DateCreated,SortName"); ("SortOrder", "Descending")]) ;;
  match r with
  | Some items => ret items
  | None =>
      logger ERROR ("Error fetching items from library " ++ library_id) ;;; ret []
  end.

(** Line 785. *)
Definition patch_get_items (c : EmbyClient) : EmbyClient :=
  mkEmbyClient (conn c) (whitelisted_users c) (updated_get_items c)
               (get_episodes_by_series c) (get_user_episodes_by_series c).

(** Lines 799-820. *)
Definition recently_updated (c : EmbyClient) (cutoff_date : string)
           (unwatched_items : list Item.t) : M id_set :=
  for_each unwatched_items
    (fun item ids =>
       if Item.is_series item then
         let series_id := Item.Id item in
         episodes <- get_episodes_by_series c series_id ;;
         ret (if existsb (fun episode => after (Item.DateCreated episode) cutoff_date)
                         episodes
              then id_add series_id ids else ids)
       else ret ids)
    [].

Record Gathered := mkGathered {
  movies : list MediaRow;
  shows : list MediaRow;
  total_movie_size : Z;
  total_show_size : Z }.

(** Lines 828-882, for one unwatched item. *)
Definition gather_item (radarr_client sonarr_client : option ArrClient)
           (recently_updated_series_ids : id_set) (item : Item.t) (g : Gathered)
  : M Gathered :=
  let item_name := match Item.Name item with Some n => n | None => "Unknown" end in
  if Item.is_series item && id_in (Item.Id item) recently_updated_series_ids
  then ret g
  else if Item.is_movie item then
    movie_in_radarr <-
      (match radarr_client with
       | Some rc => find_movie_by_title rc item_name
       | None => ret None
       end) ;;
    let '(item_size, item_id) :=
      match movie_in_radarr with
      | Some m => (match Movie.sizeOnDisk m with Some z => z | None => 0 end,
                   Movie.id m)
      | None => (0, None)
      end in
    ret (mkGathered
           (movies g ++ [mkRow item_name (Item.LibraryName item) item_size item_id])
           (shows g) (total_movie_size g + item_size) (total_show_size g))
  else if Item.is_series item then
    series_in_sonarr <-
      (match sonarr_client with
       | Some sc => find_series_by_title sc item_name
       | None => ret None
       end) ;;
    let '(item_size, item_id) :=
      match series_in_sonarr with
      | Some s => (match Series.sizeOnDisk s with Some z => z | None => 0 end,
                   Series.id s)
      | None => (0, None)
      end in
    ret (mkGathered
           (movies g)
           (shows g ++ [mkRow item_name (Item.LibraryName item) item_size item_id])
           (total_movie_size g) (total_show_size g + item_size))
  else ret g.

(** [l.sort(key=lambda x: x['Size'], reverse=True)]: stable, largest first. *)
Fixpoint insert_by_size (x : MediaRow) (l : list MediaRow) : list MediaRow :=
  match l with
  | [] => [x]
  | y :: r => if row_Size y <=? row_Size x then x :: l
              else y :: insert_by_size x r
  end.

Definition sort_by_size_desc (l : list MediaRow) : list MediaRow :=
  fold_right insert_by_size [] l.

(** [deleted_*_size] and [deleted_*_count] of one kind of media. *)
Record Tally := mkTally { freed : Z; count : Z }.

(** Lines 937-947 (and 971-981): is the item to be deleted?  [None] is the
    [continue] of the scheduled case. *)
Definition should_delete (a : Args) (row : MediaRow) : M (option bool) :=
  match delete_mode a with
  | DeleteMode.all => ret (Some true)
  | DeleteMode.interactive =>
      if interval_set a
      then print_flush (WouldDeleteIfNotInterval row) ;;; ret None
      else b <- prompt_for_deletion ;; ret (Some b)
  | DeleteMode.none => ret (Some false)
  end.

(** The body of the loops of lines 933-962 and 967-996, which differ by the
    client method they call: [delete] is [radarr_client.delete_movie] or
    [sonarr_client.delete_series]. *)
Definition delete_step (a : Args) (delete : Z -> bool -> M bool)
           (row : MediaRow) (t : Tally) : M Tally :=
  match row_Id row with
  | None => ret t
  | Some id =>
      confirmed <- should_delete a row ;;
      match confirmed with
      | Some true =>
          if dry_run a then
            print_flush (WouldDelete row) ;;;
            ret (mkTally (freed t + row_Size row) (count t + 1))
          else
            print_flush (Deleting row) ;;;
            success <- delete id (delete_files a) ;;
            if success then
              print_flush (DeletedOk row) ;;;
              ret (mkTally (freed t + row_Size row) (count t + 1))
            else print_flush (DeleteFailed row) ;;; ret t
      | _ => ret t
      end
  end.

(** Lines 917-1007. *)
Definition deletion (a : Args) (radarr_client sonarr_client : option ArrClient)
           (movies shows : list MediaRow) : M unit :=
  match delete_mode a with
  | DeleteMode.none => ret tt
  | _ =>
      print_flush (DeletionHeader (dry_run a)) ;;;
      m <- (match radarr_client with
            | Some rc => for_each movies (delete_step a (delete_movie rc))
                                  (mkTally 0 0)
            | None => ret (mkTally 0 0)
            end) ;;
      s <- (match sonarr_client with
            | Some sc => for_each shows (delete_step a (delete_series sc))
                                  (mkTally 0 0)
            | None => ret (mkTally 0 0)
            end) ;;
      print_flush (DeletionSummary (dry_run a) (count m) (freed m) (count s) (freed s))
  end.

(** Lines 795-1019: the part of the [try] block that follows the second
    computation of [cutoff_date], as a function of the variables it reads. *)
Definition report_and_delete (a : Args) (client : EmbyClient)
           (sonarr_client radarr_client : option ArrClient)
           (unwatched_items : list Item.t) (cutoff_date : string) : M unit :=
  recently_updated_series_ids <-
    (if negb (ignore_recent_episodes a)
     then recently_updated client cutoff_date unwatched_items
     else ret []) ;;
  g <- for_each unwatched_items
         (gather_item radarr_client sonarr_client recently_updated_series_ids)
         (mkGathered [] [] 0 0) ;;
  let movies := if sort_by_size a then sort_by_size_desc (movies g) else movies g in
  let shows := if sort_by_size a then sort_by_size_desc (shows g) else shows g in
  let total_size := total_movie_size g + total_show_size g in
  _ <- now ;;
  print_flush (UnwatchedReport movies shows (total_movie_size g)
                               (total_show_size g) total_size) ;;;
  deletion a radarr_client sonarr_client movies shows ;;;
  if interval_set a then t <- now ;; print_flush (EndOfRun t) else ret tt.

(** The [try] block, lines 721-1019. *)
Definition process_body (a : Args) : M unit :=
  let whitelisted_users := PyStr.name_set (whitelist a) in
  let client := new_EmbyClient (server a) (api_key a) whitelisted_users in
  let libraries_to_check :=
    match libraries a with
    | Some l => if String.eqb l "" then None else Some (PyStr.name_set l)
    | None => None
    end in
  sonarr_client <-
    (match sonarr_url a, sonarr_api_key a with
     | Some u, Some k =>
         if negb (String.eqb u "") && negb (String.eqb k "")
         then sc <- new_SonarrClient u k ;; ret (Some sc)
         else ret None
     | _, _ => ret None
     end) ;;
  radarr_client <-
    (match radarr_url a, radarr_api_key a with
     | Some u, Some k =>
         if negb (String.eqb u "") && negb (String.eqb k "")
         then rc <- new_RadarrClient u k ;; ret (Some rc)
         else ret None
     | _, _ => ret None
     end) ;;
  let client := if ignore_episodes a then patch_ignore_episodes client else client in
  let client := if negb (include_recent a) then patch_get_items client else client in
  unwatched_items <- get_unwatched_items client (days a) libraries_to_check ;;
  t <- now ;;
  cutoff_date <- cutoff_of t (days a) ;;
  report_and_delete a client sonarr_client radarr_client unwatched_items cutoff_date.

Definition process_unwatched_media (a : Args) : M unit :=
  enter_run ;;;
  try_except (process_body a)
    (fun e => logger ERROR ("Error processing unwatched media: " ++ e)).

(** *** [run_scheduled] *)

(** [t + datetime.timedelta(hours=h)] *)
Definition add_hours (t : PyTime.datetime) (h : Z) : M PyTime.datetime :=
  if (Z.abs (h * 3600 / 86400) <=? PyTime.max_delta_days)
     && PyTime.in_range (t + h * PyTime.us_per_hour)
  then ret (t + h * PyTime.us_per_hour)
  else raise (PyError "OverflowError").

(** Lines 666-668 and 687-689: the two lines printed after a run. *)
Definition print_end_of_run (last_run : PyTime.datetime) (interval_hours : Z)
  : M unit :=
  print_flush (EndOfRun last_run) ;;;
  add_hours last_run interval_hours ;;;
  ret tt.

(** One turn of the [while] loop, lines 674-696; the result is [last_run]. *)
Definition tick (a : Args) (interval_hours : Z)
           (last_run : option PyTime.datetime) : M (option PyTime.datetime) :=
  now_ <- now ;;
  match last_run with
  | Some lr =>
      next_run <- add_hours lr interval_hours ;;
      let time_until_next_run := next_run - now_ in
      if time_until_next_run <=? 0 then
        process_unwatched_media a ;;;
        print_end_of_run now_ interval_hours ;;;
        ret (Some now_)
      else ret last_run
  | None => ret None
  end.

(** The first [n] turns of the loop of lines 673-705.  The result is
    [(true, _)] when the loop was left because the stop flag was up and
    [(false, last_run)] when it is still running after [n] turns. *)
Fixpoint scheduler_loop (n : nat) (a : Args) (interval_hours : Z)
         (last_run : option PyTime.datetime)
  : M (bool * option PyTime.datetime) :=
  stop <- stop_requested ;;
  if stop then ret (true, last_run)
  else
    match n with
    | O => ret (false, last_run)
    | S n' =>
        last_run' <- tick a interval_hours last_run ;;
        scheduler_loop n' a interval_hours last_run'
    end.

(** Lines 657-670. *)
Definition scheduler_start (a : Args) (interval_hours : Z)
  : M (option PyTime.datetime) :=
  if run_at_start a then
    process_unwatched_media a ;;;
    last_run <- now ;;
    print_end_of_run last_run interval_hours ;;;
    ret (Some last_run)
  else ret None.

(** [run_scheduled], watched for [n] turns of its loop: [Ok last_run] says
    the loop is still running after them. *)
Definition run_scheduled (n : nat) (a : Args) (interval_hours : Z)
  : M (option PyTime.datetime) :=
  last_run <- scheduler_start a interval_hours ;;
  r <- try_except (scheduler_loop n a interval_hours last_run)
         (fun e => logger ERROR ("Error in scheduled execution: " ++ e) ;;;
                   ret (true, last_run)) ;;
  if fst r then raise (SystemExit 0) else ret (snd r).

(** *** [main] *)

(** Lines 1056-1067. *)
Definition main_list_libraries (a : Args) : M unit :=
  let client := new_EmbyClient (server a) (api_key a) [] in
  libraries <- get_libraries (conn client) ;;
  for_each libraries
    (fun library _ =>
       let library_name :=
         match Library.Name library with Some n => n | None => "Unknown" end in
       match Library.TypeOptions library with
       | None => print_flush (LibraryLine library_name "Unknown")
       | Some [] => raise (PyError "IndexError")
       | Some (t :: _) =>
           print_flush (LibraryLine library_name
                          (match t with Some s => s | None => "Unknown" end))
       end)
    tt.

(** The [try] block of [main], lines 1055-1094; [n] is the number of turns
    the scheduler is watched for. *)
Definition main_body (n : nat) (a : Args) : M unit :=
  if list_libraries a then main_list_libraries a
  else if interval_set a then
    let h := match interval a with Some h => h | None => 0 end in
    if h <=? 0 then logger ERROR "Interval must be greater than 0"
    else
      a' <- (match delete_mode a with
             | DeleteMode.interactive =>
                 logger WARNING
                   "Interactive deletion mode is not compatible with scheduled execution. Either use --delete-mode=all or --delete-mode=none instead." ;;;
                 ret (set_delete_mode DeleteMode.none a)
             | _ => ret a
             end) ;;
      run_scheduled n a' h ;;; ret tt
  else process_unwatched_media a.

Definition main (n : nat) (a : Args) : M unit :=
  fun w =>
    match main_body n a w with
    | (Raise KeyboardInterrupt, w') => (Raise (SystemExit 0), w')
    | (Raise (PyError e), w') =>
        (logger ERROR ("Unexpected error: " ++ e) ;;; raise (SystemExit 1)) w'
    | r => r
    end.

(** The exit status of the interpreter. *)
Definition exit_code {A} (o : outcome A) : Z :=
  match o with
  | Ok _ => 0
  | Raise (SystemExit c) => c
  | Raise KeyboardInterrupt => 130
  | Raise (PyError _) => 1
  end.

End Program.

(** * The vocabulary of the properties *)

(** ** Correlation *)

(** The entry's title equals the name, case-insensitively. *)
Definition same_title {E} (get_title : E -> option string) (title : string)
           (e : E) : Prop :=
  PyStr.lower (title_or_empty (get_title e)) = PyStr.lower title.

(** One contains the other, case-insensitively. *)
Definition related_title {E} (get_title : E -> option string) (title : string)
           (e : E) : Prop :=
  let t := PyStr.lower (title_or_empty (get_title e)) in
  let n := PyStr.lower title in
  (exists p s, t = p ++ n ++ s) \/ (exists p s, n = p ++ t ++ s).

(** [e] is the first entry of [l] with property [P]. *)
Definition first_such {E} (P : E -> Prop) (l : list E) (e : E) : Prop :=
  exists pre post, l = (pre ++ e :: post)%list /\ P e
                   /\ forall x, In x pre -> ~ P x.

(** ** Two invariants of every computation of the script

    [keeps K m]: when every request issued so far satisfies [K], so does
    every request issued once [m] has run, and if [m] leaves through
    [sys.exit] the code is 0. *)

Definition quiet_exit {A} (o : outcome A) : Prop :=
  forall c, o = Raise (SystemExit c) -> c = 0.

Definition keeps (K : Request -> Prop) {A} (m : M A) : Prop :=
  forall w, Forall K (calls w) ->
            Forall K (calls (snd (m w))) /\ quiet_exit (fst (m w)).

(** The methods of an instance keep the invariants. *)
Definition keeps_client (K : Request -> Prop) (c : EmbyClient) : Prop :=
  (forall id, keeps K (get_items_by_library c id))
  /\ (forall id, keeps K (get_episodes_by_series c id))
  /\ (forall u id, keeps K (get_user_episodes_by_series c u id)).

(** Either nothing is deleted for real, or [K] allows every request. *)
Definition harmless (K : Request -> Prop) (a : Args) : Prop :=
  dry_run a = true \/ forall r, K r.

(** ** Deleting *)

(** The rows the deletion loops act on: those with a delete handle. *)
Definition actionable (rows : list MediaRow) : list MediaRow :=
  filter (fun r => match row_Id r with Some _ => true | None => false end) rows.

Definition sum_sizes (rows : list MediaRow) : Z :=
  fold_right (fun r z => row_Size r + z) 0 rows.

(** [w] after [l] was printed. *)
Definition printed (l : list Printed) (w : World) : World :=
  mkWorld (calls w) (nows w) (stdin w) (log w) (stdout w ++ l) (runs w)
          (movies_cache w) (series_cache w).

(** ** The resolver, as a function of what the server answers *)

(** Between [w] and [w'] requests were issued and warnings or errors
    logged, and nothing else happened. *)
Definition only_queried (w w' : World) : Prop :=
  nows w' = nows w /\ stdin w' = stdin w /\ stdout w' = stdout w
  /\ runs w' = runs w /\ movies_cache w' = movies_cache w
  /\ series_cache w' = series_cache w.

(** [m] returns [a], whatever the world it is run in, and only queries. *)
Definition answers {A} (m : M A) (a : A) : Prop :=
  forall w, exists w', m w = (Ok a, w') /\ only_queried w w'.

Definition or_empty {A} (o : option (list A)) : list A :=
  match o with Some l => l | None => [] end.

Definition users_request (c : Conn) : Request :=
  mkRequest "GET" (server_url c ++ "/emby/Users") (conn_headers c) [].

Definition libraries_request (c : Conn) : Request :=
  mkRequest "GET" (server_url c ++ "/emby/Library/VirtualFolders")
            (conn_headers c) [].

(** What the six queries of the resolver return. *)
Record Views := mkViews {
  v_users : list User.t;
  v_libraries : list Library.t;
  v_items : string -> list Item.t;
  v_episodes : option string -> list Item.t;
  v_user_items : option string -> string -> list Item.t;
  v_user_episodes : option string -> option string -> list Item.t }.

Definition views_of (env : Env) (c : EmbyClient) (v : Views) : Prop :=
  answers (get_users env (conn c)) (v_users v)
  /\ answers (get_libraries env (conn c)) (v_libraries v)
  /\ (forall id, answers (get_items_by_library c id) (v_items v id))
  /\ (forall id, answers (get_episodes_by_series c id) (v_episodes v id))
  /\ (forall u id, answers (get_user_items_by_library env (conn c) u id)
                           (v_user_items v u id))
  /\ (forall u id, answers (get_user_episodes_by_series c u id)
                           (v_user_episodes v u id)).

(** The views of an instance whose methods were not replaced. *)
Definition std_views (env : Env) (c : Conn) : Views :=
  mkViews (or_empty (emby_users env (users_request c)))
          (or_empty (emby_libraries env (libraries_request c)))
          (fun id => or_empty (emby_items env (items_request c id)))
          (fun id => or_empty (emby_items env (episodes_request c id)))
          (fun u id => or_empty (emby_items env (user_items_request c u id)))
          (fun u id => or_empty (emby_items env (user_episodes_request c u id))).

(** And after [--ignore-episodes]. *)
Definition no_episodes (v : Views) : Views :=
  mkViews (v_users v) (v_libraries v) (v_items v) (fun _ => [])
          (v_user_items v) (fun _ _ => []).

(** The library's id, when the passes do not skip it. *)
Definition usable (library : Library.t) : option string :=
  match Library.ItemId library with
  | Some id => if String.eqb id "" then None else Some id
  | None => None
  end.

(** The libraries of the run. *)
Definition active_libraries (names : option (list string))
           (libraries : list Library.t) : list Library.t :=
  match names with
  | Some ((_ :: _) as ns) => filter_libraries ns libraries
  | _ => libraries
  end.

(** What the whitelist pass does with one item of a whitelisted user. *)
Definition excluded_step (cutoff : string) (wbw : id_set) (item : Item.t)
  : id_set :=
  if watched cutoff item then id_add (Item.Id item) wbw else wbw.

(** [watched_by_whitelisted] at the end of the whitelist pass. *)
Definition excluded_ids (v : Views) (cutoff : string)
           (libraries : list Library.t) (ids : id_set) : id_set :=
  fold_left
    (fun wbw library =>
       match usable library with
       | Some lid =>
           fold_left (fun wbw uid =>
                        fold_left (excluded_step cutoff) (v_user_items v uid lid) wbw)
                     ids wbw
       | None => wbw
       end)
    libraries [].

(** The recency veto of a series: one of its episodes was played after the
    cutoff. *)
Definition vetoed (v : Views) (cutoff : string) (item : Item.t) : bool :=
  Item.is_series item
  && existsb (fun episode => after (Item.DateLastPlayed episode) cutoff)
             (v_episodes v (Item.Id item)).

(** The four tests of the scan, in the order of the code. *)
Definition survives (v : Views) (cutoff : string) (wbw : id_set)
           (item : Item.t) : bool :=
  negb (id_in (Item.Id item) wbw)
  && negb (vetoed v cutoff item)
  && negb (after (Item.DateCreated item) cutoff)
  && never_or_before (Item.DateLastPlayed item) cutoff.

Definition scan_library (v : Views) (cutoff : string) (wbw : id_set)
           (library : Library.t) : list Item.t :=
  match usable library with
  | Some lid => map (Item.set_LibraryName (Library.Name library))
                    (filter (survives v cutoff wbw) (v_items v lid))
  | None => []
  end.

(** The ids of the users on the whitelist. *)
Definition whitelisted_ids (v : Views) (wl : list string) : id_set :=
  fst (find_whitelisted wl (v_users v)).

(** The exclusion set of a run. *)
Definition exclusions (v : Views) (wl : list string) (cutoff : string)
           (names : option (list string)) : id_set :=
  excluded_ids v cutoff (active_libraries names (v_libraries v))
               (whitelisted_ids v wl).

(** The result of the resolver. *)
Definition resolve (v : Views) (wl : list string) (cutoff : string)
           (names : option (list string)) : list Item.t :=
  flat_map (scan_library v cutoff (exclusions v wl cutoff names))
           (active_libraries names (v_libraries v)).

(** The cutoff the script computes from a reading [t] of the clock, and
    whether [datetime] can compute it. *)
Definition cutoff_ok (t : PyTime.datetime) (days : Z) : bool :=
  (Z.abs days <=? PyTime.max_delta_days)
  && PyTime.in_range (t - days * PyTime.us_per_day).

Definition cutoff_value (t : PyTime.datetime) (days : Z) : string :=
  PyTime.isoformat (t - days * PyTime.us_per_day).

(** The instance [process_unwatched_media] hands to the resolver, the
    library filter it passes, and the views of that instance. *)
Definition client_of (env : Env) (a : Args) : EmbyClient :=
  let client :=
    new_EmbyClient env (server a) (api_key a) (PyStr.name_set (whitelist a)) in
  let client := if ignore_episodes a then patch_ignore_episodes client else client in
  if negb (include_recent a) then patch_get_items env client else client.

Definition libraries_to_check (a : Args) : option (list string) :=
  match libraries a with
  | Some l => if String.eqb l "" then None else Some (PyStr.name_set l)
  | None => None
  end.

Definition conn_of (a : Args) : Conn :=
  mkConn (PyStr.rstrip_slash (server a)) (emby_headers (api_key a)).

Definition views_for (env : Env) (a : Args) : Views :=
  let v := std_views env (conn_of a) in
  if ignore_episodes a then no_episodes v else v.

(** The output of the resolver in a run with arguments [a] whose first
    reading of the clock is [t]. *)
Definition unwatched_at (env : Env) (a : Args) (t : PyTime.datetime)
  : list Item.t :=
  resolve (views_for env a) (PyStr.name_set (whitelist a))
          (cutoff_value t (days a)) (libraries_to_check a).

(** [args.include_recent = b] *)
Definition set_include_recent (b : bool) (a : Args) : Args :=
  mkArgs (server a) (api_key a) (days a) (whitelist a) b
         (ignore_episodes a) (ignore_recent_episodes a) (sonarr_url a)
         (sonarr_api_key a) (radarr_url a) (radarr_api_key a) (sort_by_size a)
         (delete_mode a) (delete_files a) (dry_run a) (libraries a)
         (list_libraries a) (interval a) (run_at_start a).

(** The series of [items] that have an episode created after [cutoff]:
    [recently_updated_series_ids]. *)
Definition recent_series (v : Views) (cutoff : string) (items : list Item.t)
  : id_set :=
  fold_left
    (fun ids item =>
       if Item.is_series item
       then (if existsb (fun episode => after (Item.DateCreated episode) cutoff)
                        (v_episodes v (Item.Id item))
             then id_add (Item.Id item) ids else ids)
       else ids)
    items [].

(** [item.get('Name', 'Unknown')] *)
Definition item_name (i : Item.t) : string :=
  match Item.Name i with Some n => n | None => "Unknown" end.

(** The set [recently_updated_series_ids] of a run whose second cutoff is
    [cutoff]. *)
Definition recent_of (a : Args) (v : Views) (cutoff : string)
           (unwatched : list Item.t) : id_set :=
  if ignore_recent_episodes a then [] else recent_series v cutoff unwatched.

(** The warning of line 233. *)
Definition none_found (libraries : list Library.t) : string :=
  "None of the specified libraries were found. Available libraries: "
  ++ String.concat ", "
       (map (fun lib => match Library.Name lib with
                        | Some n => n | None => "Unknown" end)
            libraries).

(** "Absent or strictly before the cutoff". *)
Definition never_or_strictly_before (d : option string) (cutoff : string) : Prop :=
  d = None \/ exists s, d = Some s /\ PyStr.lt s cutoff = true.

(** ** The clock *)

(** [w] after one more reading of the clock. *)
Definition ticked (w : World) : World :=
  mkWorld (calls w) (S (nows w)) (stdin w) (log w) (stdout w) (runs w)
          (movies_cache w) (series_cache w).

(** ** Scenarios *)

Module Scenario.

(** 2024-06-01 12:00:00, and five seconds more at each reading. *)
Definition t0 : PyTime.datetime := PyTime.mk 2024 6 1 12 0 0 0.
Definition clock5 (n : nat) : PyTime.datetime :=
  t0 + Z.of_nat n * 5 * PyTime.us_per_second.

(** No service answers. *)
Definition offline : Env :=
  mkEnv clock5 (fun _ => None) (fun _ => None) (fun _ => None)
        (fun _ => None) (fun _ => None) (fun _ => false) (fun _ => false).

(** [--server http://emby:8096/ --api-key key], everything else default. *)
Definition plain : Args :=
  mkArgs "http://emby:8096/" "key" 90 "" false false false None None None None
         false DeleteMode.none false false None false None false.

(** [--days 1000000] *)
Definition long_ago : Args :=
  mkArgs "http://emby:8096/" "key" 1000000 "" false false false None None
         None None false DeleteMode.none false false None false None false.

(** [--interval 6] *)
Definition every_6h : Args :=
  mkArgs "http://emby:8096/" "key" 90 "" false false false None None None None
         false DeleteMode.none false false None false (Some 6) false.

(** [--radarr-url http://radarr --radarr-api-key rk
     --sonarr-url http://sonarr --sonarr-api-key sk
     --delete-mode all --dry-run] *)
Definition dry_all : Args :=
  mkArgs "http://emby:8096/" "key" 90 "" false false false
         (Some "http://sonarr") (Some "sk") (Some "http://radarr") (Some "rk")
         false DeleteMode.all false true None false None false.

(** The same with [--delete-mode interactive] and no [--dry-run]. *)
Definition interactive_live : Args :=
  mkArgs "http://emby:8096/" "key" 90 "" false false false
         (Some "http://sonarr") (Some "sk") (Some "http://radarr") (Some "rk")
         false DeleteMode.interactive false false None false None false.

Definition conn0 : Conn := mkConn "http://emby:8096" (emby_headers "key").

(** One library, "Movies", with one movie created in 2020 and never
    played, known to Radarr. *)
Definition movies_lib : Library.t :=
  Library.mk (Some "Movies") (Some "lib1") None.
Definition old_movie : Item.t :=
  Item.mk (Some "m1") (Some "Alien") (Some "Movie")
          (Some "2020-01-01T00:00:00.0000000Z") None None None.
Definition one_movie : Env :=
  mkEnv clock5 (fun _ => Some []) (fun _ => Some [movies_lib])
        (fun r => if String.eqb (url r) "http://emby:8096/emby/Items"
                  then Some [old_movie] else Some [])
        (fun _ => Some [Movie.mk (Some "Alien") (Some 7) (Some 2048)])
        (fun _ => Some []) (fun _ => true) (fun _ => false).

(** [--whitelist alice] *)
Definition whitelist_alice : Args :=
  mkArgs "http://emby:8096/" "key" 90 "alice" false false false None None None
         None false DeleteMode.none false false None false None false.

(** [--libraries TV] *)
Definition only_tv : Args :=
  mkArgs "http://emby:8096/" "key" 90 "" false false false None None None None
         false DeleteMode.none false false (Some "TV") false None false.

(** [--interval -1] *)
Definition negative_interval : Args :=
  mkArgs "http://emby:8096/" "key" 90 "" false false false None None None None
         false DeleteMode.none false false None false (Some (-1)) false.

Definition is_episode_request (r : Request) : bool :=
  existsb (fun p => String.eqb (fst p) "IncludeItemTypes"
                    && String.eqb (snd p) "Episode")
          (params r).

(** One library, "TV", with one series created in 2020.  Alice never
    touched the series itself, and saw its pilot two days ago. *)
Definition tv_lib : Library.t := Library.mk (Some "TV") (Some "lib2") None.
Definition alice : User.t := User.mk (Some "Alice") (Some "u1").
Definition show : Item.t :=
  Item.mk (Some "s1") (Some "Show") (Some "Series")
          (Some "2020-01-01T00:00:00.0000000Z") None None None.
Definition pilot : Item.t :=
  Item.mk (Some "e1") (Some "Pilot") (Some "Episode")
          (Some "2020-01-01T00:00:00.0000000Z") None None None.
Definition show_for_alice : Item.t :=
  Item.mk (Some "s1") (Some "Show") (Some "Series") None None
          (Some (UserData.mk None (Some 0%Q) (Some false))) None.
Definition pilot_for_alice : Item.t :=
  Item.mk (Some "e1") (Some "Pilot") (Some "Episode") None None
          (Some (UserData.mk (Some "2024-05-30T20:00:00.0000000Z")
                             (Some 100%Q) (Some true)))
          None.
Definition rollup : Env :=
  mkEnv clock5 (fun _ => Some [alice]) (fun _ => Some [tv_lib])
        (fun r =>
           if String.eqb (url r) "http://emby:8096/emby/Users/u1/Items"
           then (if is_episode_request r then Some [pilot_for_alice]
                 else Some [show_for_alice])
           else (if is_episode_request r then Some [pilot] else Some [show]))
        (fun _ => None) (fun _ => None) (fun _ => false) (fun _ => false).

(** The cutoff of a 90-day run started at [t0]. *)
Definition cutoff0 : string := "2024-03-03T12:00:00".

(** Four movies: A last played 91 days before [t0], B 10 days before,
    C never played and created 120 days before, D never played and
    created 5 days before. *)
Definition movie (id name created : string) (played : option string) : Item.t :=
  Item.mk (Some id) (Some name) (Some "Movie") (Some created) played None None.
Definition movie_A : Item.t :=
  movie "a" "A" "2023-01-01T00:00:00.0000000Z" (Some "2024-03-02T12:00:00.0000000Z").
Definition movie_B : Item.t :=
  movie "b" "B" "2023-01-01T00:00:00.0000000Z" (Some "2024-05-22T12:00:00.0000000Z").
Definition movie_C : Item.t := movie "c" "C" "2024-02-02T12:00:00.0000000Z" None.
Definition movie_D : Item.t := movie "d" "D" "2024-05-27T12:00:00.0000000Z" None.
Definition four_movies : Env :=
  mkEnv clock5 (fun _ => Some []) (fun _ => Some [movies_lib])
        (fun _ => Some [movie_A; movie_B; movie_C; movie_D])
        (fun _ => None) (fun _ => None) (fun _ => false) (fun _ => false).

(** A movie never played whose creation timestamp is the cutoff. *)
Definition movie_E : Item.t := movie "e" "E" cutoff0 None.
Definition boundary : Env :=
  mkEnv clock5 (fun _ => Some []) (fun _ => Some [movies_lib])
        (fun _ => Some [movie_E])
        (fun _ => None) (fun _ => None) (fun _ => false) (fun _ => false).

(** A series of 2020 whose last episode was added two seconds after the
    cutoff of the resolver; the clock moves by five seconds between two
    readings. *)
Definition late_episode : Item.t :=
  Item.mk (Some "e9") (Some "Finale") (Some "Episode")
          (Some "2024-03-03T12:00:02.0000000Z") None None None.
Definition drift : Env :=
  mkEnv clock5 (fun _ => Some []) (fun _ => Some [tv_lib])
        (fun r => if is_episode_request r then Some [late_episode]
                  else Some [show])
        (fun _ => None) (fun _ => None) (fun _ => false) (fun _ => false).

End Scenario.

(** ** The requests of the two catalogues *)

Definition movies_request (c : ArrClient) : Request :=
  mkRequest "GET" (arr_url c ++ "/api/v3/movie") (arr_headers c) [].

Definition series_request (c : ArrClient) : Request :=
  mkRequest "GET" (arr_url c ++ "/api/v3/series") (arr_headers c) [].

(** [w] after request [r] was issued. *)
Definition called (r : Request) (w : World) : World := snd (put_call r w).

(** [w] with the two caches replaced. *)
Definition with_movies_cache (c : option (list Movie.t)) (w : World) : World :=
  snd (set_movies_cache c w).

Definition with_series_cache (c : option (list Series.t)) (w : World) : World :=
  snd (set_series_cache c w).

(** ** The operator's answers *)

Inductive Answer := Yes | No | Quit | Unclear.

(** How [prompt_for_deletion] reads a line. *)
Definition answer_of (line : string) : Answer :=
  let response := PyStr.lower line in
  if String.eqb response "y" || String.eqb response "yes" then Yes
  else if String.eqb response "n" || String.eqb response "no" then No
  else if String.eqb response "q" || String.eqb response "quit" then Quit
  else Unclear.

(** What the first key that is not an unclear line decides. *)
Definition decision (keys : list KeyLine) : outcome bool :=
  match keys with
  | [] => Raise (PyError "EOFError")
  | CtrlC :: _ => Raise KeyboardInterrupt
  | Line l :: _ =>
      match answer_of l with
      | Yes => Ok true
      | No => Ok false
      | Quit => Raise (SystemExit 0)
      | Unclear => Raise (PyError "EOFError")
      end
  end.

Definition decisive (keys : list KeyLine) : Prop :=
  match keys with
  | Line l :: _ => answer_of l <> Unclear
  | _ => True
  end.

(** [w] once [keys] is what is left to read and [helps] reminders were
    printed. *)
Definition after_prompt (helps : nat) (keys : list KeyLine) (w : World) : World :=
  mkWorld (calls w) (nows w) keys (log w)
          (stdout w ++ repeat PromptHelp helps) (runs w)
          (movies_cache w) (series_cache w).

(** ** The whitelist *)

(** [user.get('Name', '')] *)
Definition user_name (u : User.t) : string :=
  match User.Name u with Some n => n | None => "" end.

(** The names of the whitelist that no user of the server bears. *)
Definition unmatched (wl : list string) (users : list User.t) : list string :=
  filter (fun n =>
            negb (existsb (fun u => String.eqb (PyStr.lower (user_name u))
                                               (PyStr.lower n))
                          users))
         wl.

Definition not_found_warning (n : string) : Level * string :=
  (WARNING, "Whitelisted user '" ++ n ++ "' not found on the server").

(** [w] with [l] added to the log. *)
Definition logged (l : list (Level * string)) (w : World) : World :=
  mkWorld (calls w) (nows w) (stdin w) (log w ++ l) (stdout w) (runs w)
          (movies_cache w) (series_cache w).

(** ** The order of the report *)

(** [x] is listed before [y] under [--sort-by-size]: it is at least as
    large. *)
Definition not_smaller (x y : MediaRow) : Prop := row_Size y <= row_Size x.

(** The rows of [l] of size [z], in the order of [l]. *)
Definition of_size (z : Z) (l : list MediaRow) : list MediaRow :=
  filter (fun r => row_Size r =? z) l.

(** ** Deleting for real *)

(** The DELETE requests of a batch: one for each row with a handle. *)
Definition deletions (c : ArrClient) (what : string) (files : bool)
           (rows : list MediaRow) : list Request :=
  flat_map (fun r => match row_Id r with
                     | Some id => [delete_request c what id files]
                     | None => []
                     end) rows.

(** The rows whose deletion the service accepts. *)
Definition accepted (env : Env) (c : ArrClient) (what : string) (files : bool)
           (rows : list MediaRow) : list MediaRow :=
  filter (fun r => match row_Id r with
                   | Some id => arr_delete env (delete_request c what id files)
                   | None => false
                   end) rows.

(** What a batch prints. *)
Definition batch_lines (env : Env) (c : ArrClient) (what : string) (files : bool)
           (rows : list MediaRow) : list Printed :=
  flat_map (fun r => match row_Id r with
                     | Some id =>
                         [Deleting r;
                          if arr_delete env (delete_request c what id files)
                          then DeletedOk r else DeleteFailed r]
                     | None => []
                     end) rows.

(** Both catalogues have been fetched. *)
Definition caches_filled (w : World) : Prop :=
  movies_cache w <> None /\ series_cache w <> None.

(** [--delete-mode all] without [--dry-run], both services configured. *)
Definition live_all : Args :=
  set_delete_mode DeleteMode.all Scenario.interactive_live.

(** A Radarr that accepts the deletion of movie 7 and refuses any other. *)
Definition picky : Env :=
  mkEnv Scenario.clock5 (fun _ => Some []) (fun _ => Some [])
        (fun _ => Some []) (fun _ => Some []) (fun _ => Some [])
        (fun r => String.eqb (url r) "http://radarr/api/v3/movie/7")
        (fun _ => false).

Definition radarr0 : ArrClient := mkArrClient "http://radarr" [("X-Api-Key", "rk")].
Definition sonarr0 : ArrClient := mkArrClient "http://sonarr" [("X-Api-Key", "sk")].

Definition three_rows : list MediaRow :=
  [mkRow "Brazil" (Some "Movies") 4096 (Some 8);
   mkRow "Alien" (Some "Movies") 2048 (Some 7);
   mkRow "Cube" (Some "Movies") 1024 None].

(** ** Running unattended *)

(** From [w] to [w'] the keyboard was not read and every request issued
    was a GET. *)
Definition untouched (w w' : World) : Prop :=
  stdin w' = stdin w
  /\ exists l, calls w' = (calls w ++ l)%list
               /\ Forall (fun r => verb r = "GET") l.

Definition tame {A} (m : M A) : Prop := forall w, untouched w (snd (m w)).

Definition tame_client (c : EmbyClient) : Prop :=
  (forall id, tame (get_items_by_library c id))
  /\ (forall id, tame (get_episodes_by_series c id))
  /\ (forall u id, tame (get_user_episodes_by_series c u id)).

(** The options under which the deletion loops neither ask nor delete:
    no deletion at all, every item but as a dry run, or one by one but on a
    schedule. *)
Definition hands_free (a : Args) : Prop :=
  match delete_mode a with
  | DeleteMode.none => True
  | DeleteMode.all => dry_run a = true
  | DeleteMode.interactive => interval_set a = true
  end.

(** ** [--list-libraries] *)

(** [library.get('Name', 'Unknown')] *)
Definition library_name (library : Library.t) : string :=
  match Library.Name library with Some n => n | None => "Unknown" end.

(** The type shown for a library: the [Type] of its first type option. *)
Definition library_type (library : Library.t) : string :=
  match Library.TypeOptions library with
  | Some (Some s :: _) => s
  | _ => "Unknown"
  end.

Definition listed (library : Library.t) : Printed :=
  LibraryLine (library_name library) (library_type library).

(** [TypeOptions] is missing or has an element. *)
Definition has_type_slot (library : Library.t) : Prop :=
  Library.TypeOptions library <> Some [].

(** The libraries [--list-libraries] gets from the server. *)
Definition libraries_listed (env : Env) (a : Args) : list Library.t :=
  or_empty (emby_libraries env
              (libraries_request (conn (new_EmbyClient env (server a) (api_key a) [])))).

(** [--list-libraries] added to the options. *)
Definition set_list_libraries (a : Args) : Args :=
  mkArgs (server a) (api_key a) (days a) (whitelist a) (include_recent a)
         (ignore_episodes a) (ignore_recent_episodes a) (sonarr_url a)
         (sonarr_api_key a) (radarr_url a) (radarr_api_key a) (sort_by_size a)
         (delete_mode a) (delete_files a) (dry_run a) (libraries a) true
         (interval a) (run_at_start a).

(** * Properties *)

(** ** The model of Python's strings and dates on examples *)

Example lower_ex : PyStr.lower "AlIeN 3" = "alien 3".
Proof. reflexivity. Qed.

Example contains_ex :
  PyStr.contains "lien" "Aliens" = true /\ PyStr.contains "" "x" = true
  /\ PyStr.contains "Aliens" "Alien" = false.
Proof. repeat split. Qed.

Example name_set_ex : PyStr.name_set " Movies , TV,,Movies" = ["Movies"; "TV"].
Proof. reflexivity. Qed.

Example isoformat_ex :
  PyTime.isoformat (PyTime.mk 2024 6 1 12 30 5 0 - 90 * PyTime.us_per_day)
  = "2024-03-03T12:30:05"
  /\ PyTime.isoformat (PyTime.mk 2024 3 1 0 0 0 1500 - PyTime.us_per_day)
     = "2024-02-29T00:00:00.001500"
  /\ PyTime.isoformat PyTime.max_dt = "9999-12-31T23:59:59.999999"
  /\ PyTime.isoformat (PyTime.mk 2000 12 31 23 59 59 0) = "2000-12-31T23:59:59"
  /\ PyTime.isoformat (PyTime.mk 1900 3 1 0 0 0 0 - PyTime.us_per_day)
     = "1900-02-28T00:00:00".
Proof. repeat split; vm_compute; reflexivity. Qed.

(** [String.prefix] and [PyStr.contains] say what they should. *)
Lemma prefix_iff (a b : string) :
  String.prefix a b = true <-> exists s, b = a ++ s.
Proof.
  revert b; induction a as [|c a IH]; intros b; simpl.
  - split; [intros _; exists b; reflexivity | destruct b; reflexivity].
  - destruct b as [|d b]; simpl.
    + split; [discriminate | intros [s H]; discriminate].
    + destruct (ascii_dec c d) as [->|N].
      * rewrite IH. split; intros [s H]; exists s; congruence.
      * split; [discriminate | intros [s H]; congruence].
Qed.

Lemma contains_iff (a b : string) :
  PyStr.contains a b = true <-> exists p s, b = p ++ a ++ s.
Proof.
  induction b as [|d b IH].
  - destruct a as [|c a]; simpl.
    + split; [intros _; exists "", ""; reflexivity | reflexivity].
    + split; [discriminate | intros [p [s H]]; destruct p; discriminate].
  - change (PyStr.contains a (String d b))
      with (String.prefix a (String d b) || PyStr.contains a b).
    rewrite orb_true_iff, prefix_iff, IH. split.
    + intros [[s H] | [p [s H]]].
      * exists "", s. exact H.
      * exists (String d p), s. simpl. congruence.
    + intros [p [s H]]. destruct p as [|c p]; simpl in H.
      * left. exists s. exact H.
      * right. exists p, s. congruence.
Qed.

(** ** Running the monad *)

Lemma bind_ok {A B} (m : M A) (f : A -> M B) w a w' :
  m w = (Ok a, w') -> bind m f w = f a w'.
Proof. unfold bind; intros ->; reflexivity. Qed.

Lemma bind_raise {A B} (m : M A) (f : A -> M B) w e w' :
  m w = (Raise e, w') -> bind m f w = (Raise e, w').
Proof. unfold bind; intros ->; reflexivity. Qed.

Lemma bind_ext {A B} (m : M A) (f g : A -> M B) w :
  (forall a w', f a w' = g a w') -> bind m f w = bind m g w.
Proof. intros H. unfold bind. destruct (m w) as [[a|e] w']; auto. Qed.

(** ** Correlation: [find_movie_by_title] and [find_series_by_title] *)

Section Correlator.

Context {E : Type} (get_title : E -> option string) (title : string).

Lemma same_title_eqb (e : E) :
  String.eqb (PyStr.lower (title_or_empty (get_title e))) (PyStr.lower title)
  = true <-> same_title get_title title e.
Proof. apply String.eqb_eq. Qed.

Lemma related_title_orb (e : E) :
  PyStr.contains (PyStr.lower title) (PyStr.lower (title_or_empty (get_title e)))
  || PyStr.contains (PyStr.lower (title_or_empty (get_title e))) (PyStr.lower title)
  = true <-> related_title get_title title e.
Proof. unfold related_title. rewrite orb_true_iff, !contains_iff. tauto. Qed.

Lemma exact_match_first (l : list E) (e : E) :
  first_such (same_title get_title title) l e -> exact_match get_title l title = Some e.
Proof.
  intros (pre & post & -> & He & Hpre).
  induction pre as [|x pre IH]; simpl.
  - apply same_title_eqb in He. rewrite He. reflexivity.
  - destruct (String.eqb _ _) eqn:Hx.
    + apply same_title_eqb in Hx. exfalso. apply (Hpre x); simpl; auto.
    + apply IH. intros y Hy. apply Hpre. simpl; auto.
Qed.

Lemma exact_match_none (l : list E) :
  (forall x, In x l -> ~ (same_title get_title title) x) -> exact_match get_title l title = None.
Proof.
  induction l as [|x l IH]; simpl; intros H; [reflexivity|].
  destruct (String.eqb _ _) eqn:Hx.
  - apply same_title_eqb in Hx. exfalso. apply (H x); auto.
  - apply IH. intros y Hy. apply H; auto.
Qed.

Lemma fuzzy_match_first (l : list E) (e : E) :
  first_such (related_title get_title title) l e -> fuzzy_match get_title l title = Some e.
Proof.
  intros (pre & post & -> & He & Hpre).
  induction pre as [|x pre IH]; simpl.
  - apply related_title_orb in He. rewrite He. reflexivity.
  - destruct (_ || _) eqn:Hx.
    + apply related_title_orb in Hx. exfalso. apply (Hpre x); simpl; auto.
    + apply IH. intros y Hy. apply Hpre. simpl; auto.
Qed.

Lemma fuzzy_match_none (l : list E) :
  (forall x, In x l -> ~ (related_title get_title title) x) -> fuzzy_match get_title l title = None.
Proof.
  induction l as [|x l IH]; simpl; intros H; [reflexivity|].
  destruct (_ || _) eqn:Hx.
  - apply related_title_orb in Hx. exfalso. apply (H x); auto.
  - apply IH. intros y Hy. apply H; auto.
Qed.

(** The policy of [find_by_title]. *)
Lemma find_by_title_policy (catalog : list E) :
  (forall e, first_such (same_title get_title title) catalog e ->
             find_by_title get_title catalog title = Some e)
  /\ ((forall x, In x catalog -> ~ (same_title get_title title) x) ->
      forall e, first_such (related_title get_title title) catalog e ->
                find_by_title get_title catalog title = Some e)
  /\ ((forall x, In x catalog -> ~ (same_title get_title title) x /\ ~ (related_title get_title title) x) ->
      find_by_title get_title catalog title = None).
Proof.
  unfold find_by_title. repeat split.
  - intros e He. rewrite (exact_match_first _ _ He). reflexivity.
  - intros Hn e He. rewrite (exact_match_none _ Hn).
    apply fuzzy_match_first, He.
  - intros Hn. rewrite exact_match_none, fuzzy_match_none;
      [reflexivity| |]; intros x Hx; apply (Hn x Hx).
Qed.

End Correlator.

(** The catalogue the two clients search: the cache when there is one, what
    the service answers otherwise, nothing when the request fails. *)
Lemma get_all_movies_ok env c w :
  exists catalog w', get_all_movies env c w = (Ok catalog, w')
                     /\ (forall l, movies_cache w = Some l -> catalog = l /\ w' = w).
Proof.
  unfold get_all_movies, bind, get_movies_cache, http_get, bind, put_call, ret.
  destruct (movies_cache w) as [l|] eqn:Hc.
  - exists l, w. split; [reflexivity|]. intros l' [= <-]. auto.
  - simpl. destruct (radarr_movies env _); simpl; eexists; eexists;
      (split; [reflexivity | discriminate]).
Qed.

Lemma get_all_series_ok env c w :
  exists catalog w', get_all_series env c w = (Ok catalog, w')
                     /\ (forall l, series_cache w = Some l -> catalog = l /\ w' = w).
Proof.
  unfold get_all_series, bind, get_series_cache, http_get, bind, put_call, ret.
  destruct (series_cache w) as [l|] eqn:Hc.
  - exists l, w. split; [reflexivity|]. intros l' [= <-]. auto.
  - simpl. destruct (sonarr_series env _); simpl; eexists; eexists;
      (split; [reflexivity | discriminate]).
Qed.



(** ** The two invariants, through every function of the script *)

Create HintDb keeps.

Section Keeps.

Variable K : Request -> Prop.
Hypothesis K_get : forall r, verb r = "GET" -> K r.

Lemma keeps_ret {A} (a : A) : keeps K (ret a).
Proof. intros w H; split; [exact H | intros c; discriminate]. Qed.

Lemma keeps_raise_error {A} s : keeps K (raise (A:=A) (PyError s)).
Proof. intros w H; split; [exact H | intros c; discriminate]. Qed.

Lemma keeps_raise_exit0 {A} : keeps K (raise (A:=A) (SystemExit 0)).
Proof. intros w H; split; [exact H | intros c [= <-]; reflexivity]. Qed.

Lemma keeps_bind {A B} (m : M A) (f : A -> M B) :
  keeps K m -> (forall a, keeps K (f a)) -> keeps K (bind m f).
Proof.
  intros Hm Hf w H. specialize (Hm w H). unfold bind.
  destruct (m w) as [[a|e] w']; simpl in *.
  - apply Hf, Hm.
  - split; [apply Hm | intros c [= ->]; apply (proj2 Hm c); reflexivity].
Qed.

Lemma keeps_bind_ret {A B} (a : A) (f : A -> M B) :
  keeps K (f a) -> keeps K (bind (ret a) f).
Proof. intros H; exact H. Qed.

Lemma keeps_bind_const {A B C} (m : M A) (v : B) (f : B -> M C) :
  keeps K m -> keeps K (f v) -> keeps K (bind (bind m (fun _ => ret v)) f).
Proof.
  intros Hm Hf w H. specialize (Hm w H). unfold bind, ret.
  destruct (m w) as [[a|e] w']; simpl in *.
  - apply Hf, Hm.
  - split; [apply Hm | intros c [= ->]; apply (proj2 Hm c); reflexivity].
Qed.

Lemma keeps_try_except {A} (m : M A) h :
  keeps K m -> (forall s, keeps K (h s)) -> keeps K (try_except m h).
Proof.
  intros Hm Hh w H. specialize (Hm w H). unfold try_except.
  destruct (m w) as [[a|[c| |s]] w']; simpl in *; try exact Hm.
  apply Hh, Hm.
Qed.

Lemma keeps_for_each {A S} (l : list A) (body : A -> S -> M S) :
  (forall x s, keeps K (body x s)) -> forall s, keeps K (for_each l body s).
Proof.
  intros Hb. induction l as [|x l IH]; intros s; simpl.
  - apply keeps_ret.
  - apply keeps_bind; [apply Hb | exact IH].
Qed.

Lemma keeps_put_call r : K r -> keeps K (put_call r).
Proof.
  intros Hr w H; split; [|intros c; discriminate].
  simpl. apply Forall_app; split; [exact H | constructor; [exact Hr | constructor]].
Qed.

Lemma keeps_same_calls {A} (m : M A) :
  (forall w, calls (snd (m w)) = calls w) ->
  (forall w, quiet_exit (fst (m w))) -> keeps K m.
Proof. intros Hc Hq w H. rewrite Hc. split; [exact H | apply Hq]. Qed.

Lemma keeps_logger l s : keeps K (logger l s).
Proof. apply keeps_same_calls; intros w; [reflexivity | intros c; discriminate]. Qed.

Lemma keeps_print_flush p : keeps K (print_flush p).
Proof. apply keeps_same_calls; intros w; [reflexivity | intros c; discriminate]. Qed.

Lemma keeps_enter_run : keeps K enter_run.
Proof. apply keeps_same_calls; intros w; [reflexivity | intros c; discriminate]. Qed.

Lemma keeps_get_movies_cache : keeps K get_movies_cache.
Proof. apply keeps_same_calls; intros w; [reflexivity | intros c; discriminate]. Qed.

Lemma keeps_set_movies_cache x : keeps K (set_movies_cache x).
Proof. apply keeps_same_calls; intros w; [reflexivity | intros c; discriminate]. Qed.

Lemma keeps_get_series_cache : keeps K get_series_cache.
Proof. apply keeps_same_calls; intros w; [reflexivity | intros c; discriminate]. Qed.

Lemma keeps_set_series_cache x : keeps K (set_series_cache x).
Proof. apply keeps_same_calls; intros w; [reflexivity | intros c; discriminate]. Qed.

Lemma keeps_input : keeps K input.
Proof.
  apply keeps_same_calls; intros w; unfold input;
    destruct (stdin w) as [|[s|] r]; try reflexivity; intros c; discriminate.
Qed.

Lemma keeps_now env : keeps K (now env).
Proof. apply keeps_same_calls; intros w; [reflexivity | intros c; discriminate]. Qed.

Lemma keeps_stop_requested env : keeps K (stop_requested env).
Proof. apply keeps_same_calls; intros w; [reflexivity | intros c; discriminate]. Qed.

Lemma keeps_cutoff_of t d : keeps K (cutoff_of t d).
Proof.
  unfold cutoff_of. destruct (_ && _); [apply keeps_ret | apply keeps_raise_error].
Qed.

Lemma keeps_add_hours t h : keeps K (add_hours t h).
Proof.
  unfold add_hours. destruct (_ && _); [apply keeps_ret | apply keeps_raise_error].
Qed.

Lemma keeps_http_get {A} (resp : Request -> option A) r :
  K r -> keeps K (http_get resp r).
Proof.
  intros Hr. apply keeps_bind; [apply keeps_put_call, Hr | intros; apply keeps_ret].
Qed.

Lemma keeps_http_delete env r : K r -> keeps K (http_delete env r).
Proof.
  intros Hr. apply keeps_bind; [apply keeps_put_call, Hr | intros; apply keeps_ret].
Qed.

#[local] Hint Resolve keeps_ret keeps_raise_error keeps_raise_exit0 keeps_logger
     keeps_print_flush keeps_enter_run keeps_get_movies_cache
     keeps_set_movies_cache keeps_get_series_cache keeps_set_series_cache
     keeps_input keeps_now keeps_stop_requested keeps_cutoff_of
     keeps_add_hours : keeps.

(** One step through the structure of a computation. *)
Ltac keeps_step :=
  match goal with
  | |- keeps _ (bind _ _) => apply keeps_bind; [|intros]
  | |- keeps _ (for_each _ _ _) => apply keeps_for_each; intros
  | |- keeps _ (try_except _ _) => apply keeps_try_except; [|intros]
  | |- keeps _ (http_get _ _) => apply keeps_http_get, K_get; reflexivity
  | |- keeps _ (match ?x with _ => _ end) => destruct x
  | |- keeps _ (let '(_, _) := ?x in _) => destruct x
  | |- _ => solve [auto with keeps]
  end.

Ltac keeps_auto := repeat keeps_step.

Lemma keeps_get_libraries env c : keeps K (get_libraries env c).
Proof. unfold get_libraries. keeps_auto. Qed.

Lemma keeps_get_users env c : keeps K (get_users env c).
Proof. unfold get_users. keeps_auto. Qed.

Lemma keeps_EmbyClient_get_items_by_library env c id :
  keeps K (EmbyClient_get_items_by_library env c id).
Proof. unfold EmbyClient_get_items_by_library. keeps_auto. Qed.

Lemma keeps_get_user_items_by_library env c u id :
  keeps K (get_user_items_by_library env c u id).
Proof. unfold get_user_items_by_library. keeps_auto. Qed.

Lemma keeps_EmbyClient_get_episodes_by_series env c id :
  keeps K (EmbyClient_get_episodes_by_series env c id).
Proof. unfold EmbyClient_get_episodes_by_series. keeps_auto. Qed.

Lemma keeps_EmbyClient_get_user_episodes_by_series env c u id :
  keeps K (EmbyClient_get_user_episodes_by_series env c u id).
Proof. unfold EmbyClient_get_user_episodes_by_series. keeps_auto. Qed.

Lemma keeps_updated_get_items env c id : keeps K (updated_get_items env c id).
Proof. unfold updated_get_items. keeps_auto. Qed.

Lemma keeps_new_EmbyClient env url key wl :
  keeps_client K (new_EmbyClient env url key wl).
Proof.
  split; [|split]; intros; simpl.
  - apply keeps_EmbyClient_get_items_by_library.
  - apply keeps_EmbyClient_get_episodes_by_series.
  - apply keeps_EmbyClient_get_user_episodes_by_series.
Qed.

Lemma keeps_patch_ignore_episodes c :
  keeps_client K c -> keeps_client K (patch_ignore_episodes c).
Proof.
  intros (H1 & _ & _). split; [|split]; intros; simpl.
  - apply H1.
  - apply keeps_ret.
  - apply keeps_ret.
Qed.

Lemma keeps_patch_get_items env c :
  keeps_client K c -> keeps_client K (patch_get_items env c).
Proof.
  intros (_ & H2 & H3). split; [|split]; intros; simpl.
  - apply keeps_updated_get_items.
  - apply H2.
  - apply H3.
Qed.

Section WithClient.

Variable env : Env.
Variable c : EmbyClient.
Hypothesis Hc : keeps_client K c.

Let H_items := proj1 Hc.
Let H_episodes := proj1 (proj2 Hc).
Let H_user_episodes := proj2 (proj2 Hc).

Lemma keeps_warn_missing wl names : keeps K (warn_missing wl names).
Proof. unfold warn_missing. keeps_auto. Qed.

Lemma keeps_whitelist_item cutoff u item wbw :
  keeps K (whitelist_item c cutoff u item wbw).
Proof. unfold whitelist_item. keeps_auto. Qed.

Lemma keeps_whitelist_pass cutoff libs ids :
  keeps K (whitelist_pass env c cutoff libs ids).
Proof.
  unfold whitelist_pass. keeps_auto.
  - apply keeps_get_user_items_by_library.
  - apply keeps_whitelist_item.
Qed.

Lemma keeps_scan_item cutoff wbw name item acc :
  keeps K (scan_item c cutoff wbw name item acc).
Proof. unfold scan_item. keeps_auto. Qed.

Lemma keeps_scan_pass cutoff wbw libs :
  keeps K (scan_pass c cutoff wbw libs).
Proof.
  unfold scan_pass. keeps_auto. apply keeps_scan_item.
Qed.

Lemma keeps_get_unwatched_items_with cutoff names :
  keeps K (get_unwatched_items_with env c cutoff names).
Proof.
  unfold get_unwatched_items_with.
  apply keeps_bind; [apply keeps_get_users | intros users].
  destruct (find_whitelisted _ _) as [ids nms].
  apply keeps_bind; [apply keeps_warn_missing | intros _].
  apply keeps_bind; [apply keeps_get_libraries | intros libs].
  assert (R : forall l,
             keeps K
               (bind (match ids with
                      | [] => ret []
                      | _ => whitelist_pass env c cutoff l ids
                      end)
                     (fun wbw => scan_pass c cutoff wbw l))).
  { intros l. apply keeps_bind.
    - destruct ids; [apply keeps_ret | apply keeps_whitelist_pass].
    - intros; apply keeps_scan_pass. }
  destruct names as [[|n names]|]; try apply R.
  destruct (filter_libraries _ _); [|apply R].
  keeps_auto.
Qed.

Lemma keeps_get_unwatched_items d names :
  keeps K (get_unwatched_items env c d names).
Proof.
  unfold get_unwatched_items. keeps_auto.
  apply keeps_get_unwatched_items_with.
Qed.

Lemma keeps_recently_updated cutoff items :
  keeps K (recently_updated c cutoff items).
Proof. unfold recently_updated. keeps_auto. Qed.

End WithClient.

Lemma keeps_get_all_series env c : keeps K (get_all_series env c).
Proof. unfold get_all_series. keeps_auto. Qed.

Lemma keeps_get_all_movies env c : keeps K (get_all_movies env c).
Proof. unfold get_all_movies. keeps_auto. Qed.

Lemma keeps_find_series_by_title env c t : keeps K (find_series_by_title env c t).
Proof. unfold find_series_by_title. keeps_auto. apply keeps_get_all_series. Qed.

Lemma keeps_find_movie_by_title env c t : keeps K (find_movie_by_title env c t).
Proof. unfold find_movie_by_title. keeps_auto. apply keeps_get_all_movies. Qed.

Lemma keeps_gather_item env rc sc ids item g :
  keeps K (gather_item env rc sc ids item g).
Proof.
  unfold gather_item. keeps_auto.
  - apply keeps_find_movie_by_title.
  - apply keeps_find_series_by_title.
Qed.

Lemma keeps_prompt_loop fuel : keeps K (prompt_loop fuel).
Proof. induction fuel as [|f IH]; simpl; keeps_auto. Qed.

Lemma keeps_prompt_for_deletion : keeps K prompt_for_deletion.
Proof. intros w H. apply (keeps_prompt_loop _ w H). Qed.

Lemma keeps_should_delete a row : keeps K (should_delete a row).
Proof. unfold should_delete. keeps_auto. apply keeps_prompt_for_deletion. Qed.

Lemma keeps_delete_series env c id f :
  (forall r, K r) -> keeps K (delete_series env c id f).
Proof.
  intros HK. unfold delete_series. keeps_auto.
  - apply keeps_get_all_series.
  - apply keeps_http_delete, HK.
Qed.

Lemma keeps_delete_movie env c id f :
  (forall r, K r) -> keeps K (delete_movie env c id f).
Proof.
  intros HK. unfold delete_movie. keeps_auto.
  - apply keeps_http_delete, HK.
  - apply keeps_get_all_movies.
Qed.

Lemma keeps_delete_step a (delete : Z -> bool -> M bool) row t :
  harmless K a ->
  ((forall r, K r) -> forall id f, keeps K (delete id f)) ->
  keeps K (delete_step a delete row t).
Proof.
  intros Ha Hd. unfold delete_step.
  destruct (row_Id row) as [id|]; [|apply keeps_ret].
  apply keeps_bind; [apply keeps_should_delete | intros [[|]|]]; auto with keeps.
  destruct (dry_run a) eqn:Hdry; [keeps_auto|].
  destruct Ha as [Ha|Ha]; [congruence|].
  keeps_auto.
Qed.

Lemma keeps_deletion env a rc sc movies shows :
  harmless K a -> keeps K (deletion env a rc sc movies shows).
Proof.
  intros Ha. unfold deletion.
  assert (B : keeps K
    (print_flush (DeletionHeader (dry_run a)) ;;;
     m <- (match rc with
           | Some rc => for_each movies (delete_step a (delete_movie env rc))
                                 (mkTally 0 0)
           | None => ret (mkTally 0 0)
           end) ;;
     s <- (match sc with
           | Some sc => for_each shows (delete_step a (delete_series env sc))
                                 (mkTally 0 0)
           | None => ret (mkTally 0 0)
           end) ;;
     print_flush (DeletionSummary (dry_run a) (count m) (freed m) (count s)
                                  (freed s)))).
  { keeps_auto.
    - apply keeps_delete_step; [exact Ha | intros; apply keeps_delete_movie; auto].
    - apply keeps_delete_step; [exact Ha | intros; apply keeps_delete_series; auto]. }
  destruct (delete_mode a); [exact B | exact B | apply keeps_ret].
Qed.

Lemma keeps_report_and_delete env a c sc rc items cutoff :
  harmless K a -> keeps_client K c ->
  keeps K (report_and_delete env a c sc rc items cutoff).
Proof.
  intros Ha Hc. unfold report_and_delete. keeps_auto.
  - apply keeps_recently_updated, Hc.
  - apply keeps_gather_item.
  - apply keeps_deletion, Ha.
Qed.

Lemma keeps_process_body env a : harmless K a -> keeps K (process_body env a).
Proof.
  intros Ha. unfold process_body.
  set (c0 := new_EmbyClient env (server a) (api_key a) (PyStr.name_set (whitelist a))).
  set (c1 := if ignore_episodes a then patch_ignore_episodes c0 else c0).
  set (c2 := if negb (include_recent a) then patch_get_items env c1 else c1).
  assert (H0 : keeps_client K c0) by apply keeps_new_EmbyClient.
  assert (H1 : keeps_client K c1).
  { unfold c1. destruct (ignore_episodes a); [apply keeps_patch_ignore_episodes|]; exact H0. }
  assert (H2 : keeps_client K c2).
  { unfold c2. destruct (negb _); [apply keeps_patch_get_items|]; exact H1. }
  clearbody c2. clear c0 c1 H0 H1.
  apply keeps_bind.
  { unfold new_SonarrClient. keeps_auto. }
  intros sc. apply keeps_bind.
  { unfold new_RadarrClient. keeps_auto. }
  intros rc.
  apply keeps_bind; [apply keeps_get_unwatched_items, H2 | intros items].
  keeps_auto. apply keeps_report_and_delete; assumption.
Qed.

Lemma keeps_process_unwatched_media env a :
  harmless K a -> keeps K (process_unwatched_media env a).
Proof.
  intros Ha. unfold process_unwatched_media. keeps_auto.
  apply keeps_process_body, Ha.
Qed.

Lemma keeps_print_end_of_run t h : keeps K (print_end_of_run t h).
Proof. unfold print_end_of_run. keeps_auto. Qed.

Lemma keeps_tick env a h lr : harmless K a -> keeps K (tick env a h lr).
Proof.
  intros Ha. unfold tick. keeps_auto.
  - apply keeps_process_unwatched_media, Ha.
  - apply keeps_print_end_of_run.
Qed.

Lemma keeps_scheduler_loop env n a h :
  harmless K a -> forall lr, keeps K (scheduler_loop env n a h lr).
Proof.
  intros Ha. induction n as [|n IH]; intros lr; simpl; keeps_auto.
  apply keeps_tick, Ha.
Qed.

Lemma keeps_run_scheduled env n a h :
  harmless K a -> keeps K (run_scheduled env n a h).
Proof.
  intros Ha. unfold run_scheduled, scheduler_start. keeps_auto.
  - apply keeps_process_unwatched_media, Ha.
  - apply keeps_print_end_of_run.
  - apply keeps_scheduler_loop, Ha.
Qed.

Lemma keeps_main_body env n a : harmless K a -> keeps K (main_body env n a).
Proof.
  intros Ha. unfold main_body, main_list_libraries.
  destruct (list_libraries a).
  { keeps_auto. apply keeps_get_libraries. }
  destruct (interval_set a); [|apply keeps_process_unwatched_media, Ha].
  destruct (_ <=? 0); [apply keeps_logger|].
  assert (Ha' : harmless K (set_delete_mode DeleteMode.none a)) by exact Ha.
  destruct (delete_mode a).
  - apply keeps_bind_const; [apply keeps_logger|].
    keeps_auto. apply keeps_run_scheduled, Ha'.
  - apply keeps_bind_ret. keeps_auto. apply keeps_run_scheduled, Ha.
  - apply keeps_bind_ret. keeps_auto. apply keeps_run_scheduled, Ha.
Qed.

End Keeps.

(** ** Deleting under [--dry-run] *)

Lemma printed_nil w : printed [] w = w.
Proof. destruct w; unfold printed; simpl. rewrite app_nil_r. reflexivity. Qed.

Lemma printed_app l1 l2 w : printed l2 (printed l1 w) = printed (l1 ++ l2) w.
Proof. unfold printed; simpl. rewrite app_assoc. reflexivity. Qed.

Lemma prompt_loop_calls fuel w : calls (snd (prompt_loop fuel w)) = calls w.
Proof.
  revert w; induction fuel as [|f IH]; intros w; simpl; [reflexivity|].
  unfold bind, input. destruct (stdin w) as [|[s|] r]; simpl; try reflexivity.
  repeat (destruct (_ || _); simpl; try reflexivity).
  unfold print_flush. simpl. rewrite IH. reflexivity.
Qed.

Lemma should_delete_calls a row w : calls (snd (should_delete a row w)) = calls w.
Proof.
  unfold should_delete. destruct (delete_mode a); try reflexivity.
  destruct (interval_set a); [reflexivity|].
  unfold bind, prompt_for_deletion.
  pose proof (prompt_loop_calls (S (List.length (stdin w))) w) as H.
  destruct (prompt_loop _ w) as [[b|e] w']; simpl in *; exact H.
Qed.

(** A confirmed item under dry run: one more item, its size freed, a
    "Would delete" line, and [delete] is not run. *)
Lemma delete_step_dry_run a delete row id t w w1 :
  dry_run a = true -> row_Id row = Some id ->
  should_delete a row w = (Ok (Some true), w1) ->
  delete_step a delete row t w
  = (Ok (mkTally (freed t + row_Size row) (count t + 1)),
     printed [WouldDelete row] w1)
  /\ calls (printed [WouldDelete row] w1) = calls w.
Proof.
  intros Hdry Hid Hc. split.
  - unfold delete_step. rewrite Hid, (bind_ok _ _ _ _ _ Hc), Hdry. reflexivity.
  - simpl. pose proof (should_delete_calls a row w) as H. rewrite Hc in H. exact H.
Qed.

Lemma dry_run_all_loop a delete rows :
  dry_run a = true -> delete_mode a = DeleteMode.all ->
  forall t w,
    for_each rows (delete_step a delete) t w
    = (Ok (mkTally (freed t + sum_sizes (actionable rows))
                   (count t + Z.of_nat (List.length (actionable rows)))),
       printed (map WouldDelete (actionable rows)) w).
Proof.
  intros Hdry Hall. induction rows as [|r rows IH]; intros t w.
  - simpl. rewrite printed_nil, !Z.add_0_r. destruct t; reflexivity.
  - simpl for_each. unfold actionable; simpl filter; fold (actionable rows).
    destruct (row_Id r) as [id|] eqn:Hid.
    + assert (Hs : should_delete a r w = (Ok (Some true), w))
        by (unfold should_delete; rewrite Hall; reflexivity).
      destruct (delete_step_dry_run a delete r id t w w Hdry Hid Hs) as [E _].
      rewrite (bind_ok _ _ _ _ _ E), IH, printed_app. simpl.
      rewrite Zpos_P_of_succ_nat. do 2 f_equal. f_equal; lia.
    + assert (E : delete_step a delete r t w = (Ok t, w))
        by (unfold delete_step; rewrite Hid; reflexivity).
      rewrite (bind_ok _ _ _ _ _ E). apply IH.
Qed.

Lemma deletion_dry_run_all env a rc sc movies shows w :
  dry_run a = true -> delete_mode a = DeleteMode.all ->
  deletion env a (Some rc) (Some sc) movies shows w
  = (Ok tt,
     printed ([DeletionHeader true]
              ++ map WouldDelete (actionable movies)
              ++ map WouldDelete (actionable shows)
              ++ [DeletionSummary true
                    (Z.of_nat (List.length (actionable movies)))
                    (sum_sizes (actionable movies))
                    (Z.of_nat (List.length (actionable shows)))
                    (sum_sizes (actionable shows))])
             w).
Proof.
  intros Hdry Hall. unfold deletion. rewrite Hall.
  unfold bind at 1. unfold print_flush at 1.
  fold (printed [DeletionHeader (dry_run a)] w).
  unfold bind at 1. rewrite (dry_run_all_loop a _ movies Hdry Hall).
  unfold bind at 1. rewrite (dry_run_all_loop a _ shows Hdry Hall).
  unfold print_flush. cbn [freed count]. rewrite Hdry, !Z.add_0_l.
  f_equal. unfold printed; simpl. rewrite <- !app_assoc. reflexivity.
Qed.

Lemma main_calls K env n a w :
  keeps K (main_body env n a) ->
  Forall K (calls w) -> Forall K (calls (snd (main env n a w))).
Proof.
  intros Hk H. destruct (Hk w H) as [Hc _]. unfold main.
  destruct (main_body env n a w) as [[u|[c| |s]] w']; simpl in *; exact Hc.
Qed.



(** The dry run of the scenario: the movie is found, counted as deleted
    with its 2048 bytes, and the four requests are the four GETs. *)
Example dry_run_ex :
  let w := snd (main Scenario.one_movie 0 Scenario.dry_all (world0 [])) in
  let row := mkRow "Alien" (Some "Movies") 2048 (Some 7) in
  stdout w = [UnwatchedReport [row] [] 2048 0 2048; DeletionHeader true;
              WouldDelete row; DeletionSummary true 1 2048 0 0]
  /\ map (fun r => (verb r, url r)) (calls w)
     = [("GET", "http://emby:8096/emby/Users");
        ("GET", "http://emby:8096/emby/Library/VirtualFolders");
        ("GET", "http://emby:8096/emby/Items");
        ("GET", "http://radarr/api/v3/movie")].
Proof. vm_compute. split; reflexivity. Qed.

(** ** Exit codes *)

Lemma process_unwatched_media_catches env a w s :
  fst (process_unwatched_media env a w) <> Raise (PyError s).
Proof.
  unfold process_unwatched_media, bind, enter_run, try_except, logger.
  destruct (process_body env a _) as [[u|[c| |e]] w']; simpl; discriminate.
Qed.

(** C8.  A single-shot run (no [--interval], no [--list-libraries]) ends
    with exit code 0 whatever happens in it: [process_unwatched_media]
    catches every exception of its body, so the handler of [main] that
    exits with 1 is never reached. *)
Theorem C8_single_shot_exit_code_is_always_zero :
  forall env n a w,
    list_libraries a = false -> interval_set a = false ->
    exit_code (fst (main env n a w)) = 0.
Proof.
  intros env n a w Hl Hi. unfold main, main_body. rewrite Hl, Hi.
  pose proof (process_unwatched_media_catches env a w) as Hc.
  assert (Hk : keeps (fun _ => True) (process_unwatched_media env a))
    by (apply keeps_process_unwatched_media; [auto | right; auto]).
  destruct (Hk w) as [_ Hq]; [apply Forall_forall; auto|].
  destruct (process_unwatched_media env a w) as [[u|[c| |e]] w']; simpl in *.
  - reflexivity.
  - apply Hq. reflexivity.
  - reflexivity.
  - exfalso. apply (Hc e). reflexivity.
Qed.

(** [--days 1000000]: the cutoff falls before year 1, [OverflowError] is
    raised in the run, logged there, and the exit code is 0. *)
Lemma C8_witness :
  list_libraries Scenario.long_ago = false
  /\ interval_set Scenario.long_ago = false
  /\ exit_code (fst (main Scenario.offline 0 Scenario.long_ago (world0 []))) = 0.
Proof.
  split; [reflexivity|]. split; [reflexivity|].
  apply (C8_single_shot_exit_code_is_always_zero
           Scenario.offline 0 Scenario.long_ago (world0 []));
    reflexivity.
Defined.

Example overflow_is_swallowed :
  main Scenario.offline 0 Scenario.long_ago (world0 [])
  = (Ok tt,
     mkWorld [] 1 []
             [(ERROR, "Error processing unwatched media: OverflowError")]
             [] 1 None None).
Proof. vm_compute. reflexivity. Qed.

(** End of file at the prompt of an interactive deletion: [EOFError] is
    swallowed the same way, after the report. *)
Example eof_is_swallowed :
  let r := main Scenario.one_movie 0 Scenario.interactive_live (world0 []) in
  fst r = Ok tt
  /\ log (snd r) = [(ERROR, "Error processing unwatched media: EOFError")]
  /\ exit_code (fst r) = 0.
Proof. vm_compute. repeat split; reflexivity. Qed.

(** The handler of [main] is reached from [--list-libraries]: a library
    whose [TypeOptions] is an empty list makes the script exit with 1. *)
Example list_libraries_exits_1 :
  let env := mkEnv Scenario.clock5 (fun _ => None)
                   (fun _ => Some [Library.mk (Some "Movies") (Some "lib1") (Some [])])
                   (fun _ => None) (fun _ => None) (fun _ => None)
                   (fun _ => false) (fun _ => false) in
  let a := mkArgs "http://emby:8096/" "key" 90 "" false false false None None
                  None None false DeleteMode.none false false None true None
                  false in
  exit_code (fst (main env 0 a (world0 []))) = 1.
Proof. vm_compute. reflexivity. Qed.

(** ** The scheduler *)

(** A turn of the loop when a run is due: the run is made and [last_run]
    becomes the time read at the start of the turn. *)
Lemma tick_due env a h lr w :
  let t := clock env (nows w) in
  (Z.abs (h * 3600 / 86400) <=? PyTime.max_delta_days) = true ->
  PyTime.in_range (lr + h * PyTime.us_per_hour) = true ->
  lr + h * PyTime.us_per_hour <= t ->
  tick env a h (Some lr) w
  = (process_unwatched_media env a ;;; print_end_of_run t h ;;; ret (Some t))
      (ticked w).
Proof.
  intros t H1 H2 H3. unfold tick, bind at 1, now. fold (ticked w).
  unfold add_hours. rewrite H1, H2. simpl andb. cbv iota.
  unfold bind at 1, ret at 1.
  replace (lr + h * PyTime.us_per_hour - clock env (nows w) <=? 0) with true
    by (symmetry; apply Z.leb_le; unfold t in H3; lia).
  reflexivity.
Qed.

(** And when none is due: nothing happens but the reading of the clock. *)
Lemma tick_not_due env a h lr w :
  (Z.abs (h * 3600 / 86400) <=? PyTime.max_delta_days) = true ->
  PyTime.in_range (lr + h * PyTime.us_per_hour) = true ->
  clock env (nows w) < lr + h * PyTime.us_per_hour ->
  tick env a h (Some lr) w = (Ok (Some lr), ticked w).
Proof.
  intros H1 H2 H3. unfold tick, bind at 1, now. fold (ticked w).
  unfold add_hours. rewrite H1, H2. simpl andb. cbv iota.
  unfold bind at 1, ret at 1.
  replace (lr + h * PyTime.us_per_hour - clock env (nows w) <=? 0) with false
    by (symmetry; apply Z.leb_gt; lia).
  reflexivity.
Qed.

(** Without a previous run, a turn only reads the clock. *)
Lemma tick_never_ran env a h w : tick env a h None w = (Ok None, ticked w).
Proof. reflexivity. Qed.

Lemma scheduler_loop_never_ran env n a h :
  forall w, exists b w',
    scheduler_loop env n a h None w = (Ok (b, None), w')
    /\ runs w' = runs w /\ calls w' = calls w
    /\ stdout w' = stdout w /\ log w' = log w.
Proof.
  induction n as [|n IH]; intros w; simpl;
    unfold bind at 1, stop_requested; destruct (sigterm env (nows w)).
  - exists true, w. repeat split.
  - exists false, w. repeat split.
  - exists true, w. repeat split.
  - rewrite (bind_ok _ _ _ _ _ (tick_never_ran env a h w)).
    destruct (IH (ticked w)) as (b & w' & E & H).
    exists b, w'. split; [exact E | exact H].
Qed.

Lemma run_scheduled_never_ran env n a h w :
  run_at_start a = false ->
  exists o w',
    run_scheduled env n a h w = (o, w')
    /\ runs w' = runs w /\ calls w' = calls w /\ stdout w' = stdout w.
Proof.
  intros Hr. unfold run_scheduled, scheduler_start. rewrite Hr.
  unfold bind, ret, try_except.
  destruct (scheduler_loop_never_ran env n a h w) as (b & w' & E & H1 & H2 & H3 & _).
  rewrite E. destruct b; simpl; eexists; eexists; (split; [reflexivity | auto]).
Qed.

(** C7, as the code has it.  Started without [--run-at-start], the scheduler
    never makes a run: however many turns of its loop are watched, whatever
    the clock and the interval, no run is entered, nothing is requested and
    nothing is printed. *)
Theorem C7_no_first_run_without_run_at_start :
  forall env n a h w,
    run_at_start a = false ->
    let w' := snd (run_scheduled env n a h w) in
    runs w' = runs w /\ calls w' = calls w /\ stdout w' = stdout w.
Proof.
  intros env n a h w Hr. cbv zeta.
  destruct (run_scheduled_never_ran env n a h w Hr) as (o & w' & -> & H).
  exact H.
Qed.

(** A day of turns every minute with a six-hour interval: no run. *)
Lemma C7_witness :
  run_at_start Scenario.every_6h = false
  /\ runs (snd (run_scheduled Scenario.offline 1440 Scenario.every_6h 6 (world0 [])))
     = 0%nat.
Proof.
  split; [reflexivity|].
  apply (C7_no_first_run_without_run_at_start
           Scenario.offline 1440 Scenario.every_6h 6 (world0 []) eq_refl).
Defined.

(** ** The resolver returns [resolve] *)

Lemma only_queried_refl w : only_queried w w.
Proof. repeat split. Qed.

Lemma only_queried_trans w1 w2 w3 :
  only_queried w1 w2 -> only_queried w2 w3 -> only_queried w1 w3.
Proof.
  unfold only_queried. intros (A1 & A2 & A3 & A4 & A5 & A6) (B1 & B2 & B3 & B4 & B5 & B6).
  repeat split; congruence.
Qed.

Lemma answers_ret {A} (a : A) : answers (ret a) a.
Proof. intros w; exists w; split; [reflexivity | apply only_queried_refl]. Qed.

Lemma answers_bind {A B} (m : M A) (f : A -> M B) a b :
  answers m a -> answers (f a) b -> answers (bind m f) b.
Proof.
  intros Hm Hf w. destruct (Hm w) as (w1 & E1 & Q1).
  destruct (Hf w1) as (w2 & E2 & Q2).
  exists w2. rewrite (bind_ok _ _ _ _ _ E1).
  split; [exact E2 | exact (only_queried_trans _ _ _ Q1 Q2)].
Qed.

Lemma answers_for_each {A S} (body : A -> S -> M S) (pure : S -> A -> S) l :
  (forall x s, answers (body x s) (pure s x)) ->
  forall s, answers (for_each l body s) (fold_left pure l s).
Proof.
  intros Hb. induction l as [|x l IH]; intros s; simpl.
  - apply answers_ret.
  - eapply answers_bind; [apply Hb | apply IH].
Qed.

Lemma answers_logger l s : answers (logger l s) tt.
Proof. intros w; eexists; split; [reflexivity | repeat split]. Qed.

Lemma answers_http_get {A} (resp : Request -> option A) r :
  answers (http_get resp r) (resp r).
Proof. intros w; eexists; split; [reflexivity | repeat split]. Qed.

(** A query that degrades to the empty list when the request fails. *)
Lemma answers_query {A} (resp : Request -> option (list A)) r msg :
  answers (x <- http_get resp r ;;
           match x with
           | Some l => ret l
           | None => logger ERROR msg ;;; ret []
           end)
          (or_empty (resp r)).
Proof.
  eapply answers_bind; [apply answers_http_get|].
  destruct (resp r); simpl; [apply answers_ret|].
  eapply answers_bind; [apply answers_logger | apply answers_ret].
Qed.

Lemma std_views_of env url key wl :
  views_of env (new_EmbyClient env url key wl)
           (std_views env (mkConn (PyStr.rstrip_slash url) (emby_headers key))).
Proof.
  unfold views_of, std_views; simpl. repeat split; intros; apply answers_query.
Qed.

Lemma no_episodes_views_of env c v :
  views_of env c v -> views_of env (patch_ignore_episodes c) (no_episodes v).
Proof.
  intros (H1 & H2 & H3 & H4 & H5 & H6). unfold views_of; simpl.
  repeat split; auto; intros; apply answers_ret.
Qed.

Lemma patch_get_items_views_of env c v :
  views_of env c v ->
  (forall id, v_items v id = or_empty (emby_items env (items_request (conn c) id))) ->
  views_of env (patch_get_items env c) v.
Proof.
  intros (H1 & H2 & H3 & H4 & H5 & H6) Hi. unfold views_of; simpl.
  repeat split; auto. intros id. rewrite Hi. apply answers_query.
Qed.

(** *** Sets of ids *)

Lemma opt_eqb_eq a b : PyStr.opt_eqb a b = true <-> a = b.
Proof.
  destruct a as [x|], b as [y|]; simpl; try (split; congruence).
  rewrite String.eqb_eq. split; congruence.
Qed.

Lemma id_in_iff x s : id_in x s = true <-> In x s.
Proof.
  unfold id_in, PyStr.mem. rewrite existsb_exists. split.
  - intros (y & Hy & E). apply opt_eqb_eq in E. subst. exact Hy.
  - intros H. exists x. split; [exact H | apply opt_eqb_eq; reflexivity].
Qed.

Lemma id_in_add x y s : id_in x (id_add y s) = true <-> x = y \/ id_in x s = true.
Proof.
  unfold id_add, PyStr.add. fold (id_in y s).
  destruct (id_in y s) eqn:Hy.
  - split; [auto | intros [->|H]; assumption].
  - rewrite !id_in_iff, in_app_iff. simpl. intuition congruence.
Qed.

Lemma id_add_idem x s : id_add x (id_add x s) = id_add x s.
Proof.
  unfold id_add at 1, PyStr.add. fold (id_in x (id_add x s)).
  replace (id_in x (id_add x s)) with true; [reflexivity|].
  symmetry. apply id_in_add. auto.
Qed.

(** *** The two passes *)

Section Resolver.

Variable env : Env.
Variable c : EmbyClient.
Variable v : Views.
Hypothesis Hv : views_of env c v.
Variable cutoff : string.

Lemma whitelist_item_answers u item wbw :
  answers (whitelist_item c cutoff u item wbw) (excluded_step cutoff wbw item).
Proof.
  unfold whitelist_item, excluded_step.
  destruct (watched cutoff item); [|apply answers_ret].
  destruct (Item.is_series item); [|apply answers_ret].
  eapply answers_bind; [apply Hv|].
  rewrite id_add_idem. destruct (existsb _ _); apply answers_ret.
Qed.

Lemma whitelist_pass_answers libs ids :
  answers (whitelist_pass env c cutoff libs ids) (excluded_ids v cutoff libs ids).
Proof.
  unfold whitelist_pass, excluded_ids.
  apply answers_for_each. intros library wbw. unfold usable.
  destruct (Library.ItemId library) as [lid|]; [|apply answers_ret].
  destruct (String.eqb lid ""); [apply answers_ret|].
  apply answers_for_each. intros u wbw'.
  eapply answers_bind; [apply Hv|].
  apply answers_for_each. intros item wbw''. apply whitelist_item_answers.
Qed.

Lemma excluded_ids_no_user libs : excluded_ids v cutoff libs [] = [].
Proof.
  unfold excluded_ids.
  assert (G : forall s : id_set,
             fold_left
               (fun wbw library =>
                  match usable library with
                  | Some lid =>
                      fold_left
                        (fun wbw uid =>
                           fold_left (excluded_step cutoff)
                                     (v_user_items v uid lid) wbw)
                        [] wbw
                  | None => wbw
                  end)
               libs s = s).
  { induction libs as [|l libs IH]; intros s; simpl; [reflexivity|].
    destruct (usable l); apply IH. }
  apply G.
Qed.

Lemma scan_item_answers wbw name item acc :
  answers (scan_item c cutoff wbw name item acc)
          (if survives v cutoff wbw item
           then acc ++ [Item.set_LibraryName name item] else acc)%list.
Proof.
  unfold scan_item, survives, vetoed.
  destruct (id_in (Item.Id item) wbw); simpl; [apply answers_ret|].
  destruct (Item.is_series item); simpl.
  - eapply answers_bind; [eapply answers_bind; [apply Hv | apply answers_ret]|].
    destruct (existsb _ _); simpl; [apply answers_ret|].
    destruct (after _ _); simpl; [apply answers_ret|].
    destruct (never_or_before _ _); apply answers_ret.
  - eapply answers_bind; [apply answers_ret|]. simpl.
    destruct (after _ _); simpl; [apply answers_ret|].
    destruct (never_or_before _ _); apply answers_ret.
Qed.

Lemma scan_items_fold wbw name items acc :
  fold_left (fun acc item =>
               if survives v cutoff wbw item
               then acc ++ [Item.set_LibraryName name item] else acc)%list
            items acc
  = (acc ++ map (Item.set_LibraryName name)
                (filter (survives v cutoff wbw) items))%list.
Proof.
  revert acc; induction items as [|i items IH]; intros acc; simpl.
  - rewrite app_nil_r. reflexivity.
  - rewrite IH. destruct (survives v cutoff wbw i); simpl;
      [rewrite <- app_assoc|]; reflexivity.
Qed.

Lemma scan_pass_answers wbw libs :
  answers (scan_pass c cutoff wbw libs) (flat_map (scan_library v cutoff wbw) libs).
Proof.
  unfold scan_pass.
  assert (G : forall acc,
             answers
               (for_each libs
                  (fun library unwatched_items =>
                     match Library.ItemId library with
                     | Some library_id =>
                         if String.eqb library_id "" then ret unwatched_items
                         else
                           items <- get_items_by_library c library_id ;;
                           for_each items
                             (scan_item c cutoff wbw (Library.Name library))
                             unwatched_items
                     | None => ret unwatched_items
                     end) acc)
               (acc ++ flat_map (scan_library v cutoff wbw) libs)%list).
  { induction libs as [|l libs IH]; intros acc; simpl.
    - rewrite app_nil_r. apply answers_ret.
    - eapply answers_bind; [|rewrite app_assoc; apply IH].
      unfold scan_library, usable.
      destruct (Library.ItemId l) as [lid|];
        [|rewrite app_nil_r; apply answers_ret].
      destruct (String.eqb lid ""); [rewrite app_nil_r; apply answers_ret|].
      eapply answers_bind; [apply Hv|].
      rewrite <- scan_items_fold.
      apply answers_for_each. intros; apply scan_item_answers. }
  apply (G []).
Qed.

Lemma warn_missing_answers wl names : answers (warn_missing wl names) tt.
Proof.
  unfold warn_missing.
  assert (G : forall l u, answers
    (for_each l
       (fun whitelist_name (_ : unit) =>
          if existsb (fun wname =>
                        String.eqb (PyStr.lower wname) (PyStr.lower whitelist_name))
                     names
          then ret tt
          else logger WARNING ("Whitelisted user '" ++ whitelist_name
                               ++ "' not found on the server")) u) tt).
  { induction l as [|x l IH]; intros []; simpl; [apply answers_ret|].
    eapply answers_bind; [|apply IH].
    destruct (existsb _ _); [apply answers_ret | apply answers_logger]. }
  apply G.
Qed.

Theorem get_unwatched_items_with_answers names :
  answers (get_unwatched_items_with env c cutoff names)
          (resolve v (whitelisted_users c) cutoff names).
Proof.
  unfold get_unwatched_items_with, resolve, exclusions, whitelisted_ids.
  eapply answers_bind; [apply Hv|].
  destruct (find_whitelisted _ _) as [ids nms]. simpl fst.
  eapply answers_bind; [apply warn_missing_answers|].
  eapply answers_bind; [apply Hv|].
  assert (R : forall l,
             answers
               (bind (match ids with
                      | [] => ret []
                      | _ => whitelist_pass env c cutoff l ids
                      end)
                     (fun wbw => scan_pass c cutoff wbw l))
               (flat_map (scan_library v cutoff (excluded_ids v cutoff l ids)) l)).
  { intros l. eapply answers_bind; [|apply scan_pass_answers].
    destruct ids; [rewrite excluded_ids_no_user; apply answers_ret
                  | apply whitelist_pass_answers]. }
  unfold active_libraries.
  destruct names as [[|n names]|]; try apply R.
  destruct (filter_libraries _ _) eqn:F; [|apply R].
  eapply answers_bind; [apply answers_logger | apply answers_ret].
Qed.

End Resolver.

(** ** What the resolver returns *)

Lemma cutoff_of_ok t d :
  cutoff_ok t d = true -> cutoff_of t d = ret (cutoff_value t d).
Proof. unfold cutoff_ok, cutoff_of. intros ->. reflexivity. Qed.

Lemma client_views env a : views_of env (client_of env a) (views_for env a).
Proof.
  unfold client_of, views_for.
  destruct (ignore_episodes a), (include_recent a); simpl negb; cbv iota.
  - apply no_episodes_views_of, std_views_of.
  - apply patch_get_items_views_of; [|reflexivity].
    apply no_episodes_views_of, std_views_of.
  - apply std_views_of.
  - apply patch_get_items_views_of; [|reflexivity]. apply std_views_of.
Qed.

Lemma client_of_whitelist env a :
  whitelisted_users (client_of env a) = PyStr.name_set (whitelist a).
Proof.
  unfold client_of. destruct (ignore_episodes a), (include_recent a); reflexivity.
Qed.

(** The resolver run by [process_unwatched_media] reads the clock once and
    returns [unwatched_at] that reading. *)
Lemma resolver_result env a w :
  cutoff_ok (clock env (nows w)) (days a) = true ->
  exists w',
    get_unwatched_items env (client_of env a) (days a) (libraries_to_check a) w
    = (Ok (unwatched_at env a (clock env (nows w))), w')
    /\ nows w' = S (nows w) /\ stdout w' = stdout w.
Proof.
  intros Hok. unfold get_unwatched_items.
  unfold bind at 1, now. fold (ticked w).
  rewrite (cutoff_of_ok _ _ Hok). unfold bind at 1, ret at 1.
  destruct (get_unwatched_items_with_answers env (client_of env a)
              (views_for env a) (client_views env a)
              (cutoff_value (clock env (nows w)) (days a))
              (libraries_to_check a) (ticked w)) as (w' & E & Q).
  exists w'. rewrite client_of_whitelist in E. split; [exact E|].
  destruct Q as (Q1 & _ & Q3 & _). split; [exact Q1 | exact Q3].
Qed.

Lemma set_LibraryName_last_played n i :
  Item.DateLastPlayed (Item.set_LibraryName n i) = Item.DateLastPlayed i.
Proof. reflexivity. Qed.

Lemma set_LibraryName_created n i :
  Item.DateCreated (Item.set_LibraryName n i) = Item.DateCreated i.
Proof. reflexivity. Qed.

(** The output, item by item. *)
Lemma In_resolve v wl cutoff names x :
  In x (resolve v wl cutoff names) <->
  exists library lid item,
    In library (active_libraries names (v_libraries v))
    /\ usable library = Some lid
    /\ In item (v_items v lid)
    /\ survives v cutoff (exclusions v wl cutoff names) item = true
    /\ x = Item.set_LibraryName (Library.Name library) item.
Proof.
  unfold resolve. rewrite in_flat_map. split.
  - intros (library & Hl & Hx). unfold scan_library in Hx.
    destruct (usable library) as [lid|] eqn:U; [|destruct Hx].
    apply in_map_iff in Hx. destruct Hx as (item & <- & Hi).
    apply filter_In in Hi. destruct Hi as [Hi Hs].
    exists library, lid, item. auto.
  - intros (library & lid & item & Hl & U & Hi & Hs & ->).
    exists library. split; [exact Hl|]. unfold scan_library. rewrite U.
    apply in_map, filter_In. auto.
Qed.

Lemma survives_iff v cutoff wbw item :
  survives v cutoff wbw item = true <->
  id_in (Item.Id item) wbw = false
  /\ vetoed v cutoff item = false
  /\ after (Item.DateCreated item) cutoff = false
  /\ never_or_before (Item.DateLastPlayed item) cutoff = true.
Proof.
  unfold survives. rewrite !andb_true_iff, !negb_true_iff. tauto.
Qed.

(** *** The cutoff is never the empty string *)

Lemma append_nonempty (a b : string) : b <> "" -> a ++ b <> "".
Proof. destruct a; simpl; [auto | discriminate]. Qed.

Lemma append_nonempty_l (a b : string) : a <> "" -> a ++ b <> "".
Proof. destruct a; simpl; [congruence | discriminate]. Qed.

Lemma pad_nonempty w n : PyTime.pad (S w) n <> "".
Proof. simpl. apply append_nonempty. discriminate. Qed.

Lemma isoformat_nonempty t : PyTime.isoformat t <> "".
Proof.
  unfold PyTime.isoformat. destruct (PyTime.ord2ymd _) as [[y m] d].
  apply append_nonempty_l, pad_nonempty.
Qed.

Lemma lt_empty s : s <> "" -> PyStr.lt "" s = true.
Proof. destruct s; [congruence | reflexivity]. Qed.

Lemma never_or_before_iff d t :
  never_or_before d (PyTime.isoformat t) = true
  <-> never_or_strictly_before d (PyTime.isoformat t).
Proof.
  unfold never_or_before, never_or_strictly_before. destruct d as [s|].
  - rewrite orb_true_iff, String.eqb_eq. split.
    + intros [->|H]; right; eexists; split; try reflexivity; auto.
      apply lt_empty, isoformat_nonempty.
    + intros [H|(s' & [= <-] & H)]; [discriminate | auto].
  - split; auto.
Qed.


(** The scenario of the four movies: A and C are returned, B and D are
    not. *)
Example four_movies_ex :
  fst (get_unwatched_items Scenario.four_movies
         (client_of Scenario.four_movies Scenario.plain) 90 None (world0 []))
  = Ok [Item.set_LibraryName (Some "Movies") Scenario.movie_A;
        Item.set_LibraryName (Some "Movies") Scenario.movie_C].
Proof. vm_compute. reflexivity. Qed.


(** ** The recency boundary *)

Lemma compare_refl s : String.compare s s = Eq.
Proof.
  induction s as [|c s IH]; simpl; [reflexivity|].
  unfold Ascii.compare. rewrite N.compare_refl. exact IH.
Qed.

Lemma gt_irrefl s : PyStr.gt s s = false.
Proof. unfold PyStr.gt, String.ltb. rewrite compare_refl. reflexivity. Qed.

Lemma after_at_cutoff cutoff : after (Some cutoff) cutoff = false.
Proof. unfold after. rewrite gt_irrefl. apply andb_false_r. Qed.


(** Nothing created after the cutoff is returned. *)
Lemma resolve_not_recent v wl cutoff names x :
  In x (resolve v wl cutoff names) -> after (Item.DateCreated x) cutoff = false.
Proof.
  intros Hx. apply In_resolve in Hx.
  destruct Hx as (l & lid & i & _ & _ & _ & Hs & ->).
  apply survives_iff in Hs. rewrite set_LibraryName_created. apply Hs.
Qed.



(** ** The whitelist and the episodes *)

Lemma fold_left_In {A} (f : id_set -> A -> id_set) (P : A -> option string -> Prop) :
  (forall s a x, In x (f s a) <-> In x s \/ P a x) ->
  forall l s x, In x (fold_left f l s) <-> In x s \/ exists a, In a l /\ P a x.
Proof.
  intros Hf. induction l as [|a l IH]; intros s x; simpl.
  - split; [auto | intros [H|(a & [] & _)]; exact H].
  - rewrite IH, Hf. split.
    + intros [[H|H]|(b & Hb & H)];
        [left; exact H | right; exists a; auto | right; exists b; auto].
    + intros [H|(b & [<-|Hb] & H)];
        [left; left; exact H | left; right; exact H | right; exists b; auto].
Qed.

Lemma In_excluded_step cutoff s item x :
  In x (excluded_step cutoff s item)
  <-> In x s \/ (watched cutoff item = true /\ Item.Id item = x).
Proof.
  unfold excluded_step. destruct (watched cutoff item).
  - rewrite <- !id_in_iff, id_in_add. intuition congruence.
  - intuition congruence.
Qed.

(** An id is in the exclusion set exactly when the series-level or
    movie-level record of some whitelisted user, in some active library,
    satisfies the watched predicate.  The episodes of the user play no
    part. *)
Lemma In_excluded_ids v cutoff libs ids x :
  In x (excluded_ids v cutoff libs ids) <->
  exists library lid uid item,
    In library libs /\ usable library = Some lid /\ In uid ids
    /\ In item (v_user_items v uid lid)
    /\ watched cutoff item = true /\ Item.Id item = x.
Proof.
  unfold excluded_ids.
  rewrite (fold_left_In _
             (fun library x =>
                exists lid uid item,
                  usable library = Some lid /\ In uid ids
                  /\ In item (v_user_items v uid lid)
                  /\ watched cutoff item = true /\ Item.Id item = x)).
  - split.
    + intros [[]|(library & Hl & lid & uid & item & H)].
      exists library, lid, uid, item. tauto.
    + intros (library & lid & uid & item & Hl & H).
      right. exists library. split; [exact Hl|]. exists lid, uid, item. exact H.
  - intros s library y. destruct (usable library) as [lid|].
    + rewrite (fold_left_In _
                 (fun uid x =>
                    exists item, In item (v_user_items v uid lid)
                                 /\ watched cutoff item = true /\ Item.Id item = x)).
      * split.
        -- intros [H|(uid & Hu & item & H)]; [auto|].
           right. exists lid, uid, item. tauto.
        -- intros [H|(lid' & uid & item & [= <-] & Hu & H)]; [auto|].
           right. exists uid. split; [exact Hu|]. exists item. exact H.
      * intros s' uid z.
        apply (fold_left_In _
                 (fun item x => watched cutoff item = true /\ Item.Id item = x)).
        intros. apply In_excluded_step.
    + split; [auto | intros [H|(lid & _ & _ & [=] & _)]; exact H].
Qed.

(** C1, as the code has it.  Alice is on the whitelist and has watched the
    pilot of the series (played flag up, 100 percent, two days before the
    run); her record of the series itself does not satisfy the watched
    predicate; and the series is in the output of the resolver. *)
Theorem C1_watched_episode_does_not_exclude_series :
  let env := Scenario.rollup in
  let a := Scenario.whitelist_alice in
  let v := views_for env a in
  let cutoff := cutoff_value (clock env 0) (days a) in
  whitelisted_ids v (PyStr.name_set (whitelist a)) = [Some "u1"]
  /\ v_user_items v (Some "u1") "lib2" = [Scenario.show_for_alice]
  /\ watched cutoff Scenario.show_for_alice = false
  /\ v_user_episodes v (Some "u1") (Some "s1") = [Scenario.pilot_for_alice]
  /\ watched cutoff Scenario.pilot_for_alice = true
  /\ fst (get_unwatched_items env (client_of env a) (days a)
            (libraries_to_check a) (world0 []))
     = Ok [Item.set_LibraryName (Some "TV") Scenario.show].
Proof. vm_compute. repeat split; reflexivity. Qed.

(** The views the result is computed from can have any episodes of the
    whitelisted users: the result is the same. *)
Lemma resolve_ignores_user_episodes v wl cutoff names user_episodes :
  resolve (mkViews (v_users v) (v_libraries v) (v_items v) (v_episodes v)
                   (v_user_items v) user_episodes)
          wl cutoff names
  = resolve v wl cutoff names.
Proof. reflexivity. Qed.

(** ** [--include-recent] *)

(** The replacement of [get_items_by_library] is the method it replaces. *)
Lemma updated_get_items_same env c library_id :
  updated_get_items env c library_id
  = EmbyClient_get_items_by_library env (conn c) library_id.
Proof. reflexivity. Qed.

Lemma client_of_include_recent env a b :
  client_of env (set_include_recent b a) = client_of env (set_include_recent true a).
Proof.
  unfold client_of. destruct b; [reflexivity|].
  cbn [include_recent ignore_episodes server api_key whitelist set_include_recent negb].
  destruct (ignore_episodes a); reflexivity.
Qed.

Lemma process_body_include_recent env a b :
  process_body env (set_include_recent b a)
  = process_body env (set_include_recent true a).
Proof.
  destruct b; [reflexivity|]. unfold process_body.
  cbn [include_recent ignore_episodes set_include_recent negb].
  destruct (ignore_episodes a); reflexivity.
Qed.

Lemma process_unwatched_media_include_recent env a b :
  process_unwatched_media env (set_include_recent b a)
  = process_unwatched_media env (set_include_recent true a).
Proof.
  unfold process_unwatched_media. rewrite process_body_include_recent. reflexivity.
Qed.

Lemma tick_include_recent env a b h lr :
  tick env (set_include_recent b a) h lr
  = tick env (set_include_recent true a) h lr.
Proof.
  unfold tick. rewrite process_unwatched_media_include_recent. reflexivity.
Qed.

Lemma scheduler_loop_include_recent env n a b h :
  forall lr w,
    scheduler_loop env n (set_include_recent b a) h lr w
    = scheduler_loop env n (set_include_recent true a) h lr w.
Proof.
  induction n as [|n IH]; intros lr w; simpl; [reflexivity|].
  unfold bind at 1 3. destruct (stop_requested env w) as [[[|]|e] w1];
    try reflexivity.
  unfold bind. rewrite tick_include_recent.
  destruct (tick env _ h lr w1) as [[lr'|e] w2]; [apply IH | reflexivity].
Qed.

Lemma run_scheduled_include_recent env n a b h w :
  run_scheduled env n (set_include_recent b a) h w
  = run_scheduled env n (set_include_recent true a) h w.
Proof.
  unfold run_scheduled, scheduler_start.
  cbn [run_at_start set_include_recent].
  rewrite process_unwatched_media_include_recent.
  apply bind_ext. intros lr w1.
  unfold bind, try_except. rewrite scheduler_loop_include_recent. reflexivity.
Qed.

Lemma main_include_recent env n a b w :
  main env n (set_include_recent b a) w = main env n (set_include_recent true a) w.
Proof.
  unfold main.
  replace (main_body env n (set_include_recent b a) w)
    with (main_body env n (set_include_recent true a) w); [reflexivity|].
  unfold main_body, interval_set.
  cbn [list_libraries interval delete_mode set_include_recent].
  destruct (list_libraries a); [reflexivity|].
  destruct (match interval a with Some h => negb (h =? 0) | None => false end);
    [|rewrite (process_unwatched_media_include_recent env a b); reflexivity].
  destruct (_ <=? 0); [reflexivity|].
  destruct (delete_mode a); unfold bind, logger, ret;
    try (rewrite (run_scheduled_include_recent env n a b); reflexivity).
  rewrite (run_scheduled_include_recent env n (set_delete_mode DeleteMode.none a) b).
  reflexivity.
Qed.

(** C10.  With and without [--include-recent] the script does the same:
    the function installed in place of [get_items_by_library] is the method
    itself, so the instance handed to the resolver, the resolver's result
    and requests, a whole run and the whole script are equal for the two
    values of the flag; and in both cases no item created after the cutoff
    is returned. *)
Theorem C10_include_recent_changes_nothing :
  forall env a,
    (forall c library_id,
        updated_get_items env c library_id
        = EmbyClient_get_items_by_library env (conn c) library_id)
    /\ client_of env (set_include_recent false a)
       = client_of env (set_include_recent true a)
    /\ (forall d names w,
           get_unwatched_items env (client_of env (set_include_recent false a))
                               d names w
           = get_unwatched_items env (client_of env (set_include_recent true a))
                                 d names w)
    /\ (forall w, process_unwatched_media env (set_include_recent false a) w
                  = process_unwatched_media env (set_include_recent true a) w)
    /\ (forall n w, main env n (set_include_recent false a) w
                    = main env n (set_include_recent true a) w)
    /\ (forall b w,
           cutoff_ok (clock env (nows w)) (days a) = true ->
           exists out w',
             get_unwatched_items env (client_of env (set_include_recent b a))
                                 (days a) (libraries_to_check a) w
             = (Ok out, w')
             /\ forall x, In x out ->
                          after (Item.DateCreated x)
                                (cutoff_value (clock env (nows w)) (days a))
                          = false).
Proof.
  intros env a. repeat split.
  - apply client_of_include_recent.
  - intros. rewrite client_of_include_recent. reflexivity.
  - intros. rewrite process_unwatched_media_include_recent. reflexivity.
  - intros. apply main_include_recent.
  - intros b w Hok.
    destruct (resolver_result env (set_include_recent b a) w Hok) as (w' & E & _ & _).
    eexists; exists w'. split; [exact E|].
    intros x. apply resolve_not_recent.
Qed.

Lemma C10_witness :
  cutoff_ok (clock Scenario.four_movies 0) 90 = true
  /\ exists out w',
      get_unwatched_items Scenario.four_movies
        (client_of Scenario.four_movies (set_include_recent true Scenario.plain))
        90 None (world0 [])
      = (Ok out, w')
      /\ forall x, In x out -> after (Item.DateCreated x) Scenario.cutoff0 = false.
Proof.
  split; [vm_compute; reflexivity|].
  destruct (C10_include_recent_changes_nothing Scenario.four_movies Scenario.plain)
    as (_ & _ & _ & _ & _ & H).
  exact (H true (world0 []) eq_refl).
Defined.

(** With the flag, movie D, created five days before the run, is still
    left out. *)
Example include_recent_ex :
  fst (get_unwatched_items Scenario.four_movies
         (client_of Scenario.four_movies (set_include_recent true Scenario.plain))
         90 None (world0 []))
  = Ok [Item.set_LibraryName (Some "Movies") Scenario.movie_A;
        Item.set_LibraryName (Some "Movies") Scenario.movie_C].
Proof. vm_compute. reflexivity. Qed.

(** ** Two cutoffs in a run *)

Lemma recently_updated_answers env c v cutoff items :
  views_of env c v ->
  answers (recently_updated c cutoff items) (recent_series v cutoff items).
Proof.
  intros Hv. unfold recently_updated, recent_series.
  apply answers_for_each. intros item ids.
  destruct (Item.is_series item); [|apply answers_ret].
  eapply answers_bind; [apply Hv | apply answers_ret].
Qed.

Lemma In_recent_series v cutoff items x :
  In x (recent_series v cutoff items) <->
  exists item, In item items /\ Item.is_series item = true /\ Item.Id item = x
               /\ exists episode, In episode (v_episodes v x)
                                  /\ after (Item.DateCreated episode) cutoff = true.
Proof.
  unfold recent_series.
  rewrite (fold_left_In _
             (fun item x =>
                Item.is_series item = true /\ Item.Id item = x
                /\ exists episode, In episode (v_episodes v x)
                                   /\ after (Item.DateCreated episode) cutoff = true)).
  - split; [intros [[]|H]; exact H | auto].
  - intros s item y. destruct (Item.is_series item).
    + destruct (existsb _ _) eqn:Ex.
      * rewrite <- !id_in_iff, id_in_add. apply existsb_exists in Ex. split.
        -- intros [->|H]; [right; auto | left; exact H].
        -- intros [H|(_ & <- & _)]; auto.
      * split; [auto | intros [H|(_ & <- & ep & Hep & Hc)]; [exact H|]].
        assert (existsb (fun episode => after (Item.DateCreated episode) cutoff)
                        (v_episodes v (Item.Id item)) = true)
          by (apply existsb_exists; eauto).
        congruence.
    + split; [auto | intros [H|([=] & _)]; exact H].
Qed.

Lemma new_sonarr_client_nows a w :
  exists sc w0,
    (match sonarr_url a, sonarr_api_key a with
     | Some u, Some k =>
         if negb (String.eqb u "") && negb (String.eqb k "")
         then sc <- new_SonarrClient u k ;; ret (Some sc)
         else ret None
     | _, _ => ret None
     end) w = (Ok sc, w0) /\ nows w0 = nows w /\ stdout w0 = stdout w.
Proof.
  destruct (sonarr_url a) as [u|], (sonarr_api_key a) as [k|];
    try solve [exists None, w; repeat split].
  destruct (negb _ && negb _); eexists; eexists; repeat split.
Qed.

Lemma new_radarr_client_nows a w :
  exists rc w0,
    (match radarr_url a, radarr_api_key a with
     | Some u, Some k =>
         if negb (String.eqb u "") && negb (String.eqb k "")
         then rc <- new_RadarrClient u k ;; ret (Some rc)
         else ret None
     | _, _ => ret None
     end) w = (Ok rc, w0) /\ nows w0 = nows w /\ stdout w0 = stdout w.
Proof.
  destruct (radarr_url a) as [u|], (radarr_api_key a) as [k|];
    try solve [exists None, w; repeat split].
  destruct (negb _ && negb _); eexists; eexists; repeat split.
Qed.

(** A run, cut at the second computation of the cutoff. *)
Lemma process_body_two_cutoffs env a w :
  cutoff_ok (clock env (nows w)) (days a) = true ->
  cutoff_ok (clock env (S (nows w))) (days a) = true ->
  exists sc rc w1,
    process_body env a w
    = report_and_delete env a (client_of env a) sc rc
        (unwatched_at env a (clock env (nows w)))
        (cutoff_value (clock env (S (nows w))) (days a)) w1
    /\ nows w1 = S (S (nows w)) /\ stdout w1 = stdout w.
Proof.
  intros H1 H2. unfold process_body. cbv zeta.
  destruct (new_sonarr_client_nows a w) as (sc & w0 & E0 & N0 & O0).
  rewrite (bind_ok _ _ _ _ _ E0).
  destruct (new_radarr_client_nows a w0) as (rc & w0' & E0' & N0' & O0').
  rewrite (bind_ok _ _ _ _ _ E0').
  fold (client_of env a). fold (libraries_to_check a).
  assert (H1' : cutoff_ok (clock env (nows w0')) (days a) = true)
    by (rewrite N0', N0; exact H1).
  destruct (resolver_result env a w0' H1') as (w' & E & N & O).
  rewrite (bind_ok _ _ _ _ _ E).
  unfold bind at 1, now. rewrite N, N0', N0.
  rewrite (cutoff_of_ok _ _ H2). unfold bind at 1, ret at 1.
  exists sc, rc. eexists. split; [reflexivity|]. split; [reflexivity|].
  simpl. congruence.
Qed.

(** *** From the resolver's list to the report *)

Lemma get_all_movies_quiet env c w :
  exists catalog w', get_all_movies env c w = (Ok catalog, w')
                     /\ nows w' = nows w /\ stdout w' = stdout w.
Proof.
  unfold get_all_movies, bind, get_movies_cache, http_get, bind, put_call, ret.
  destruct (movies_cache w) as [l|].
  - exists l, w. repeat split.
  - simpl. destruct (radarr_movies env _); simpl; eexists; eexists; repeat split.
Qed.

Lemma get_all_series_quiet env c w :
  exists catalog w', get_all_series env c w = (Ok catalog, w')
                     /\ nows w' = nows w /\ stdout w' = stdout w.
Proof.
  unfold get_all_series, bind, get_series_cache, http_get, bind, put_call, ret.
  destruct (series_cache w) as [l|].
  - exists l, w. repeat split.
  - simpl. destruct (sonarr_series env _); simpl; eexists; eexists; repeat split.
Qed.

Lemma movie_is_not_series i : Item.is_movie i = true -> Item.is_series i = false.
Proof.
  unfold Item.is_movie, Item.is_series. destruct (Item.Type_ i) as [t|]; simpl;
    [|discriminate].
  intros H. apply String.eqb_eq in H. subst. reflexivity.
Qed.

(** What [gather_item] adds to the two lists of the report. *)
Lemma gather_item_run env rc sc recent item g w :
  exists g' w',
    gather_item env rc sc recent item g w = (Ok g', w')
    /\ nows w' = nows w /\ stdout w' = stdout w
    /\ map row_Name (movies g')
       = (map row_Name (movies g)
          ++ (if Item.is_movie item then [item_name item] else []))%list
    /\ map row_Name (shows g')
       = (map row_Name (shows g)
          ++ (if Item.is_series item && negb (id_in (Item.Id item) recent)
              then [item_name item] else []))%list.
Proof.
  unfold gather_item. fold (item_name item).
  destruct (Item.is_series item && id_in (Item.Id item) recent) eqn:Skip.
  - exists g, w. apply andb_true_iff in Skip. destruct Skip as [S1 S2].
    rewrite S1, S2. simpl.
    destruct (Item.is_movie item) eqn:Mv;
      [apply movie_is_not_series in Mv; congruence|].
    rewrite !app_nil_r. repeat split.
  - destruct (Item.is_movie item) eqn:Mv.
    + rewrite (movie_is_not_series _ Mv). simpl.
      assert (F : exists found w',
                 (match rc with
                  | Some rc => find_movie_by_title env rc (item_name item)
                  | None => ret None
                  end) w = (Ok found, w')
                 /\ nows w' = nows w /\ stdout w' = stdout w).
      { destruct rc as [rc|]; [|exists None, w; repeat split].
        unfold find_movie_by_title.
        destruct (get_all_movies_quiet env rc w) as (cat & w' & E & N & O).
        rewrite (bind_ok _ _ _ _ _ E). eexists; exists w'. repeat split; assumption. }
      destruct F as (found & w' & E & N & O).
      rewrite (bind_ok _ _ _ _ _ E).
      destruct found as [m|]; eexists; exists w'; (split; [reflexivity|]);
        cbn [movies shows]; rewrite ?map_app, ?app_nil_r; simpl;
        repeat split; assumption.
    + destruct (Item.is_series item) eqn:Sr; simpl in *.
      * rewrite Skip. simpl.
        assert (F : exists found w',
                   (match sc with
                    | Some sc => find_series_by_title env sc (item_name item)
                    | None => ret None
                    end) w = (Ok found, w')
                   /\ nows w' = nows w /\ stdout w' = stdout w).
        { destruct sc as [sc|]; [|exists None, w; repeat split].
          unfold find_series_by_title.
          destruct (get_all_series_quiet env sc w) as (cat & w' & E & N & O).
          rewrite (bind_ok _ _ _ _ _ E). eexists; exists w'. repeat split; assumption. }
        destruct F as (found & w' & E & N & O).
        rewrite (bind_ok _ _ _ _ _ E).
        destruct found as [m|]; eexists; exists w'; (split; [reflexivity|]);
        cbn [movies shows]; rewrite ?map_app, ?app_nil_r; simpl;
        repeat split; assumption.
      * exists g, w. rewrite !app_nil_r. repeat split.
Qed.

Lemma gather_loop env rc sc recent items :
  forall g w,
  exists g' w',
    for_each items (gather_item env rc sc recent) g w = (Ok g', w')
    /\ nows w' = nows w /\ stdout w' = stdout w
    /\ map row_Name (movies g')
       = (map row_Name (movies g)
          ++ map item_name (filter Item.is_movie items))%list
    /\ map row_Name (shows g')
       = (map row_Name (shows g)
          ++ map item_name
               (filter (fun i => Item.is_series i
                                 && negb (id_in (Item.Id i) recent))
                       items))%list.
Proof.
  induction items as [|i items IH]; intros g w; simpl.
  - exists g, w. rewrite !app_nil_r. repeat split.
  - destruct (gather_item_run env rc sc recent i g w)
      as (g1 & w1 & E1 & N1 & O1 & M1 & S1).
    destruct (IH g1 w1) as (g2 & w2 & E2 & N2 & O2 & M2 & S2).
    exists g2, w2. rewrite (bind_ok _ _ _ _ _ E1).
    split; [exact E2|]. split; [congruence|]. split; [congruence|].
    rewrite M2, M1, S2, S1, <- !app_assoc. split; f_equal.
    + destruct (Item.is_movie i); reflexivity.
    + destruct (Item.is_series i && negb _); reflexivity.
Qed.

Lemma In_insert_by_size x y l : In y (insert_by_size x l) <-> y = x \/ In y l.
Proof.
  induction l as [|z l IH]; simpl.
  - intuition.
  - destruct (row_Size z <=? row_Size x); simpl; [intuition|].
    rewrite IH. intuition.
Qed.

Lemma In_sort_by_size_desc y l : In y (sort_by_size_desc l) <-> In y l.
Proof.
  induction l as [|x l IH]; simpl; [tauto|].
  rewrite In_insert_by_size, IH. intuition.
Qed.

Lemma In_names_sorted (b : bool) name l :
  In name (map row_Name (if b then sort_by_size_desc l else l))
  <-> In name (map row_Name l).
Proof.
  destruct b; [|tauto]. rewrite !in_map_iff.
  split; intros (r & E & H); exists r; (split; [exact E|]);
    apply In_sort_by_size_desc; exact H.
Qed.

(** The second part of a run, up to the report. *)
Lemma report_run env a c v sc rc items cutoff w1 :
  views_of env c v ->
  exists movies shows tm ts w2,
    report_and_delete env a c sc rc items cutoff w1
    = (deletion env a rc sc movies shows ;;;
       (if interval_set a then t <- now env ;; print_flush (EndOfRun t)
        else ret tt)) w2
    /\ stdout w2 = (stdout w1 ++ [UnwatchedReport movies shows tm ts (tm + ts)])%list
    /\ nows w2 = S (nows w1)
    /\ (forall name,
           In name (map row_Name movies)
           <-> In name (map item_name (filter Item.is_movie items)))
    /\ (forall name,
           In name (map row_Name shows)
           <-> In name
                 (map item_name
                      (filter (fun i =>
                                 Item.is_series i
                                 && negb (id_in (Item.Id i)
                                                (recent_of a v cutoff items)))
                              items))).
Proof.
  intros Hv. unfold report_and_delete.
  assert (R : answers
                (if negb (ignore_recent_episodes a)
                 then recently_updated c cutoff items else ret [])
                (recent_of a v cutoff items)).
  { unfold recent_of. destruct (ignore_recent_episodes a); simpl;
      [apply answers_ret | apply (recently_updated_answers env), Hv]. }
  destruct (R w1) as (w1' & E1 & Q1). rewrite (bind_ok _ _ _ _ _ E1).
  destruct (gather_loop env rc sc (recent_of a v cutoff items) items
              (mkGathered [] [] 0 0) w1') as (g & w3 & E3 & N3 & O3 & M & S).
  rewrite (bind_ok _ _ _ _ _ E3). cbv zeta.
  destruct Q1 as (Q1n & _ & Q1o & _).
  exists (if sort_by_size a then sort_by_size_desc (movies g) else movies g),
         (if sort_by_size a then sort_by_size_desc (shows g) else shows g),
         (total_movie_size g), (total_show_size g).
  eexists. split; [reflexivity|]. simpl.
  split; [congruence|]. split; [congruence|]. split; intros name.
  - rewrite In_names_sorted, M. reflexivity.
  - rewrite In_names_sorted, S. reflexivity.
Qed.




(** ** Invalid configurations *)

Lemma conn_client_of env a : conn (client_of env a) = conn_of a.
Proof.
  unfold client_of. destruct (ignore_episodes a), (include_recent a); reflexivity.
Qed.

Lemma get_users_run env c w :
  exists w',
    get_users env c w = (Ok (or_empty (emby_users env (users_request c))), w')
    /\ calls w' = (calls w ++ [users_request c])%list.
Proof.
  unfold get_users, http_get, bind, put_call, ret. fold (users_request c).
  destruct (emby_users env (users_request c)); eexists; split; reflexivity.
Qed.

Lemma get_libraries_run env c w :
  exists w',
    get_libraries env c w
    = (Ok (or_empty (emby_libraries env (libraries_request c))), w')
    /\ calls w' = (calls w ++ [libraries_request c])%list.
Proof.
  unfold get_libraries, http_get, bind, put_call, ret. fold (libraries_request c).
  destruct (emby_libraries env (libraries_request c)); eexists; split; reflexivity.
Qed.

Lemma warn_missing_run wl names :
  forall w, exists w', warn_missing wl names w = (Ok tt, w') /\ calls w' = calls w.
Proof.
  unfold warn_missing.
  assert (G : forall l u w, exists w',
             for_each l
               (fun whitelist_name (_ : unit) =>
                  if existsb (fun wname =>
                                String.eqb (PyStr.lower wname)
                                           (PyStr.lower whitelist_name))
                             names
                  then ret tt
                  else logger WARNING ("Whitelisted user '" ++ whitelist_name
                                       ++ "' not found on the server"))
               u w = (Ok tt, w')
             /\ calls w' = calls w).
  { induction l as [|x l IH]; intros [] w; simpl.
    - exists w. split; reflexivity.
    - unfold bind at 1. destruct (existsb _ _); [apply IH|].
      unfold logger at 1.
      match goal with |- context [for_each l _ tt ?w0] =>
        destruct (IH tt w0) as (w' & E & C)
      end.
      exists w'. split; [exact E | exact C]. }
  apply G.
Qed.

Lemma v_libraries_views_for env a :
  v_libraries (views_for env a)
  = or_empty (emby_libraries env (libraries_request (conn_of a))).
Proof. unfold views_for. destruct (ignore_episodes a); reflexivity. Qed.

(** C9, as the code has it.  [--libraries TV] on a server whose only
    library is "Movies": the users and the libraries are requested before
    the mismatch is found, it is logged as a warning, and the run goes on to
    print an empty report. *)
Lemma C9_unmatched_filter_queries_then_reports :
  let a := Scenario.only_tv in
  let env := Scenario.one_movie in
  let w := snd (main env 0 a (world0 [])) in
  libraries_to_check a = Some ["TV"]
  /\ filter_libraries ["TV"] (v_libraries (views_for env a)) = []
  /\ calls w = [users_request Scenario.conn0; libraries_request Scenario.conn0]
  /\ log w = [(WARNING,
               "None of the specified libraries were found. Available libraries: Movies")]
  /\ stdout w = [UnwatchedReport [] [] 0 0 0]
  /\ runs w = 1%nat.
Proof. vm_compute. repeat split; reflexivity. Qed.

(** C9, amended.  A negative [--interval] is refused at once: [main] logs
    the error and returns, and nothing else happens.  A non-empty library
    filter that matches no library is found out after the users and the
    libraries were requested: the resolver then logs a warning and returns
    the empty list without any other request. *)
Theorem C9_negative_interval_and_unmatched_filter :
  forall env a,
    (forall n w h,
        list_libraries a = false -> interval a = Some h -> h < 0 ->
        main env n a w
        = (Ok tt, snd (logger ERROR "Interval must be greater than 0" w)))
    /\ (forall w n ns,
           libraries_to_check a = Some (n :: ns) ->
           filter_libraries (n :: ns) (v_libraries (views_for env a)) = [] ->
           cutoff_ok (clock env (nows w)) (days a) = true ->
           exists w',
             get_unwatched_items env (client_of env a) (days a)
                                 (libraries_to_check a) w
             = (Ok [], w')
             /\ calls w'
                = (calls w ++ [users_request (conn_of a);
                               libraries_request (conn_of a)])%list
             /\ exists l,
                 log w'
                 = (l ++ [(WARNING, none_found (v_libraries (views_for env a)))])%list).
Proof.
  intros env a. split.
  - intros n w h Hl Hi Hh. unfold main, main_body, interval_set.
    rewrite Hl, Hi.
    replace (negb (h =? 0)) with true
      by (symmetry; apply negb_true_iff, Z.eqb_neq; lia).
    replace (h <=? 0) with true by (symmetry; apply Z.leb_le; lia).
    reflexivity.
  - intros w n ns Hn Hf Hok. rewrite Hn.
    unfold get_unwatched_items. unfold bind at 1, now.
    rewrite (cutoff_of_ok _ _ Hok). unfold bind at 1, ret at 1.
    unfold get_unwatched_items_with. rewrite conn_client_of.
    match goal with |- context [bind (get_users env (conn_of a)) ?k ?w0] =>
      destruct (get_users_run env (conn_of a) w0) as (w1 & E1 & C1)
    end.
    rewrite (bind_ok _ _ _ _ _ E1).
    destruct (find_whitelisted _ _) as [ids nms].
    destruct (warn_missing_run (whitelisted_users (client_of env a)) nms w1)
      as (w2 & E2 & C2).
    rewrite (bind_ok _ _ _ _ _ E2).
    destruct (get_libraries_run env (conn_of a) w2) as (w3 & E3 & C3).
    rewrite (bind_ok _ _ _ _ _ E3).
    rewrite v_libraries_views_for in Hf. rewrite Hf.
    unfold bind, logger, ret. eexists. split; [reflexivity|]. simpl.
    split.
    + rewrite C3, C2, C1. simpl. rewrite <- app_assoc. reflexivity.
    + rewrite v_libraries_views_for. exists (log w3). reflexivity.
Qed.

Lemma C9_witness :
  list_libraries Scenario.negative_interval = false
  /\ interval Scenario.negative_interval = Some (-1)
  /\ -1 < 0
  /\ calls (snd (main Scenario.one_movie 0 Scenario.negative_interval (world0 [])))
     = [].
Proof.
  split; [reflexivity|]. split; [reflexivity|]. split; [lia|].
  destruct (C9_negative_interval_and_unmatched_filter
              Scenario.one_movie Scenario.negative_interval) as (H & _).
  rewrite (H 0%nat (world0 []) (-1) eq_refl eq_refl); [reflexivity | lia].
Defined.

(** [--interval 0] is not refused: the script makes a single-shot run. *)
Example interval_zero_runs_once :
  let a := mkArgs "http://emby:8096/" "key" 90 "" false false false None None
                  None None false DeleteMode.none false false None false
                  (Some 0) false in
  let w := snd (main Scenario.one_movie 0 a (world0 [])) in
  runs w = 1%nat /\ log w = []
  /\ stdout w = [UnwatchedReport [mkRow "Alien" (Some "Movies") 0 None] [] 0 0 0].
Proof. vm_compute. repeat split; reflexivity. Qed.

(** A filter of two names, the first of which matches. *)
Example filter_two_names_ex :
  let a := mkArgs "http://emby:8096/" "key" 90 "" false false false None None
                  None None false DeleteMode.none false false
                  (Some "Movies, TV") false None false in
  libraries_to_check a = Some ["Movies"; "TV"]
  /\ fst (get_unwatched_items Scenario.one_movie (client_of Scenario.one_movie a)
            (days a) (libraries_to_check a) (world0 []))
     = Ok [Item.set_LibraryName (Some "Movies") Scenario.old_movie].
Proof. vm_compute. split; reflexivity. Qed.

(** The last run was at noon and the interval is six hours: the turn of
    17:59 makes no run, the turn of 18:00 makes one and moves [last_run] to
    18:00. *)
Example six_hours_ex :
  let noon := PyTime.mk 2024 6 1 12 0 0 0 in
  let at_ (t : PyTime.datetime) :=
    mkEnv (fun _ => t) (fun _ => None) (fun _ => None) (fun _ => None)
          (fun _ => None) (fun _ => None) (fun _ => false) (fun _ => false) in
  let t1 := PyTime.mk 2024 6 1 17 59 0 0 in
  let t2 := PyTime.mk 2024 6 1 18 0 0 0 in
  let r1 := tick (at_ t1) Scenario.every_6h 6 (Some noon) (world0 []) in
  let r2 := tick (at_ t2) Scenario.every_6h 6 (Some noon) (world0 []) in
  fst r1 = Ok (Some noon) /\ runs (snd r1) = 0%nat
  /\ fst r2 = Ok (Some t2) /\ runs (snd r2) = 1%nat.
Proof. vm_compute. repeat split; reflexivity. Qed.

(** * More of the script *)

(** ** [format_size] *)

Example format_size_ex :
  format_size 0 = Ok "0 B"
  /\ format_size 1023 = Ok "1023 B"
  /\ format_size 1024 = Ok "1.00 KB"
  /\ format_size 1536 = Ok "1.50 KB"
  /\ format_size 1029 = Ok "1.00 KB"
  /\ format_size 1048575 = Ok "1024.00 KB"
  /\ format_size (500 * 1024 * 1024) = Ok "500.00 MB"
  /\ format_size (2 * 1024 * 1024 * 1024) = Ok "2.00 GB"
  /\ format_size (2 * 1024 * 1024 * 1024 + 500 * 1024 * 1024) = Ok "2.49 GB"
  /\ format_size (-5) = Ok "-5 B".
Proof. vm_compute. repeat split; reflexivity. Qed.

Lemma round_half_even_error num den :
  0 < den -> 2 * Z.abs (num - round_half_even num den * den) <= den.
Proof.
  intros Hd. unfold round_half_even.
  pose proof (Z.div_mod num den ltac:(lia)) as E.
  pose proof (Z.mod_pos_bound num den Hd) as B.
  destruct (2 * (num mod den) <? den) eqn:L1;
    [apply Z.ltb_lt in L1; lia|apply Z.ltb_ge in L1].
  destruct (den <? 2 * (num mod den)) eqn:L2;
    [apply Z.ltb_lt in L2; lia|apply Z.ltb_ge in L2].
  destruct (Z.even (num / den)); lia.
Qed.

Lemma round_half_even_bounds num den lo hi :
  0 < den -> lo * den <= num -> num <= hi * den ->
  lo <= round_half_even num den <= hi.
Proof.
  intros Hd Hlo Hhi. unfold round_half_even.
  pose proof (Z.div_mod num den ltac:(lia)) as E.
  pose proof (Z.mod_pos_bound num den Hd) as B.
  assert (Q1 : lo <= num / den) by (apply Z.div_le_lower_bound; lia).
  assert (Q2 : num / den <= hi) by (apply Z.div_le_upper_bound; lia).
  assert (Q3 : num / den = hi -> num mod den = 0) by nia.
  destruct (2 * (num mod den) <? den) eqn:L1; [lia|apply Z.ltb_ge in L1].
  assert (num / den < hi) by (destruct (Z.eq_dec (num / den) hi); [lia|lia]).
  destruct (den <? 2 * (num mod den)); [lia|].
  destruct (Z.even (num / den)); lia.
Qed.

(** The unit and the exponent [format_size] uses from 1024 bytes on. *)
Lemma format_size_units n :
  1024 <= n < 2 ^ 53 ->
  forall k unit,
    (k, unit) = (if n <? 2 ^ 20 then (10, " KB")
                 else if n <? 2 ^ 30 then (20, " MB") else (30, " GB")) ->
    format_size n = Ok (print_2f (hundredths n k) ++ unit)
    /\ 2 * Z.abs (100 * n - hundredths n k * 2 ^ k) <= 2 ^ k
    /\ 100 <= hundredths n k
    /\ (n < 2 ^ 30 -> hundredths n k <= 102400).
Proof.
  intros [H1 H2] k unit Hk.
  assert (Hn : nearest_double n = n).
  { unfold nearest_double. replace (n <? 2 ^ 53) with true; [reflexivity|].
    symmetry. apply Z.ltb_lt. exact H2. }
  assert (Hbig : 2 ^ 53 < 2 ^ 1054) by (apply Z.pow_lt_mono_r; lia).
  unfold format_size, hundredths. rewrite !Hn.
  replace (n <? 1024) with false by (symmetry; apply Z.ltb_ge; lia).
  change (1024 * 1024 * 1024) with (2 ^ 30). change (1024 * 1024) with (2 ^ 20).
  destruct (n <? 2 ^ 20) eqn:L1; [apply Z.ltb_lt in L1 | apply Z.ltb_ge in L1].
  - injection Hk as -> ->. split; [reflexivity|].
    split; [apply round_half_even_error; reflexivity|].
    change (2 ^ 20) with 1048576 in L1. change (2 ^ 10) with 1024.
    split; [|intros _]; apply (round_half_even_bounds _ 1024 100 102400); lia.
  - destruct (n <? 2 ^ 30) eqn:L2; [apply Z.ltb_lt in L2 | apply Z.ltb_ge in L2].
    + injection Hk as -> ->. split; [reflexivity|].
      split; [apply round_half_even_error; reflexivity|].
      change (2 ^ 20) with 1048576 in *. change (2 ^ 30) with 1073741824 in L2.
      split; [|intros _];
        apply (round_half_even_bounds _ 1048576 100 102400); lia.
    + injection Hk as -> ->.
      replace (n <? 2 ^ 1054) with true by (symmetry; apply Z.ltb_lt; lia).
      split; [reflexivity|].
      split; [apply round_half_even_error; reflexivity|].
      change (2 ^ 30) with 1073741824 in *. change (2 ^ 53) with 9007199254740992 in H2.
      split; [|lia].
      apply (round_half_even_bounds _ 1073741824 100 (2 ^ 53)); lia.
Qed.

(** [format_size]: under 1024 bytes (zero and negative numbers too) the
    number itself, in bytes.  From 1024 bytes up to [2^53], the unit is KB
    under [2^20], MB under [2^30] and GB from there on; the two decimals
    printed are within half a hundredth of the exact quotient, the value
    printed is at least 1.00, and in KB and MB at most 1024.00 (which it
    reaches: the value is rounded after the unit is chosen). *)
Theorem format_size_spec :
  forall n,
    (n < 1024 -> format_size n = Ok (str_of_Z n ++ " B"))
    /\ (1024 <= n < 2 ^ 20 ->
        format_size n = Ok (print_2f (hundredths n 10) ++ " KB")
        /\ 2 * Z.abs (100 * n - hundredths n 10 * 2 ^ 10) <= 2 ^ 10
        /\ 100 <= hundredths n 10 <= 102400)
    /\ (2 ^ 20 <= n < 2 ^ 30 ->
        format_size n = Ok (print_2f (hundredths n 20) ++ " MB")
        /\ 2 * Z.abs (100 * n - hundredths n 20 * 2 ^ 20) <= 2 ^ 20
        /\ 100 <= hundredths n 20 <= 102400)
    /\ (2 ^ 30 <= n < 2 ^ 53 ->
        format_size n = Ok (print_2f (hundredths n 30) ++ " GB")
        /\ 2 * Z.abs (100 * n - hundredths n 30 * 2 ^ 30) <= 2 ^ 30
        /\ 100 <= hundredths n 30).
Proof.
  intros n. split; [|split; [|split]].
  - intros H. unfold format_size.
    replace (n <? 1024) with true by (symmetry; apply Z.ltb_lt; lia). reflexivity.
  - intros [H1 H2].
    assert (B : 1024 <= n < 2 ^ 53)
      by (change (2 ^ 20) with 1048576 in H2;
          change (2 ^ 53) with 9007199254740992; lia).
    destruct (format_size_units n B 10 " KB") as (E & R & L & U).
    { replace (n <? 2 ^ 20) with true by (symmetry; apply Z.ltb_lt; lia). reflexivity. }
    repeat split; try assumption. apply U.
    change (2 ^ 20) with 1048576 in H2. change (2 ^ 30) with 1073741824. lia.
  - intros [H1 H2].
    assert (B : 1024 <= n < 2 ^ 53)
      by (change (2 ^ 20) with 1048576 in H1; change (2 ^ 30) with 1073741824 in H2;
          change (2 ^ 53) with 9007199254740992; lia).
    destruct (format_size_units n B 20 " MB") as (E & R & L & U).
    { replace (n <? 2 ^ 20) with false by (symmetry; apply Z.ltb_ge; lia).
      replace (n <? 2 ^ 30) with true by (symmetry; apply Z.ltb_lt; lia). reflexivity. }
    repeat split; try assumption. apply U. lia.
  - intros [H1 H2].
    assert (B : 1024 <= n < 2 ^ 53)
      by (change (2 ^ 30) with 1073741824 in H1; lia).
    destruct (format_size_units n B 30 " GB") as (E & R & L & U).
    { change (2 ^ 20) with 1048576. change (2 ^ 30) with 1073741824 in *.
      replace (n <? 1048576) with false by (symmetry; apply Z.ltb_ge; lia).
      replace (n <? 1073741824) with false by (symmetry; apply Z.ltb_ge; lia).
      reflexivity. }
    repeat split; assumption.
Qed.

Lemma format_size_spec_witness :
  1024 <= 1048575 < 2 ^ 20
  /\ format_size 1048575 = Ok "1024.00 KB"
  /\ hundredths 1048575 10 = 102400.
Proof.
  split; [split; [lia | reflexivity]|].
  destruct (format_size_spec 1048575) as (_ & H & _).
  destruct H as (E & _); [split; [lia | reflexivity]|].
  split; [rewrite E; reflexivity | reflexivity].
Defined.

(** ** The catalogue caches *)

(** [get_all_movies] and [get_all_series]: a cached catalogue is returned
    without a request; without a cache one request is issued, a catalogue
    that arrives is cached, so that the next call returns it without a
    request, and a failed request gives the empty catalogue, logs an error
    and caches nothing, so that the next call asks again. *)
Theorem catalogue_is_fetched_once :
  forall env c w,
    ((forall l, movies_cache w = Some l -> get_all_movies env c w = (Ok l, w))
     /\ (movies_cache w = None ->
         forall l, radarr_movies env (movies_request c) = Some l ->
                   let w1 := with_movies_cache (Some l) (called (movies_request c) w) in
                   get_all_movies env c w = (Ok l, w1)
                   /\ get_all_movies env c w1 = (Ok l, w1))
     /\ (movies_cache w = None ->
         radarr_movies env (movies_request c) = None ->
         exists w1,
           get_all_movies env c w = (Ok [], w1)
           /\ movies_cache w1 = None
           /\ calls w1 = (calls w ++ [movies_request c])%list
           /\ log w1 = (log w ++ [(ERROR, "Error fetching movies from Radarr")])%list))
    /\ ((forall l, series_cache w = Some l -> get_all_series env c w = (Ok l, w))
        /\ (series_cache w = None ->
            forall l, sonarr_series env (series_request c) = Some l ->
                      let w1 := with_series_cache (Some l) (called (series_request c) w) in
                      get_all_series env c w = (Ok l, w1)
                      /\ get_all_series env c w1 = (Ok l, w1))
        /\ (series_cache w = None ->
            sonarr_series env (series_request c) = None ->
            exists w1,
              get_all_series env c w = (Ok [], w1)
              /\ series_cache w1 = None
              /\ calls w1 = (calls w ++ [series_request c])%list
              /\ log w1 = (log w ++ [(ERROR, "Error fetching series from Sonarr")])%list)).
Proof.
  intros env c w. split; (split; [|split]).
  - intros l H. unfold get_all_movies, bind, get_movies_cache. rewrite H. reflexivity.
  - intros H l Hr. cbv zeta. split.
    + unfold get_all_movies, bind, get_movies_cache, http_get, bind.
      rewrite H. fold (movies_request c). simpl. rewrite Hr. reflexivity.
    + reflexivity.
  - intros H Hr. eexists. split.
    + unfold get_all_movies, bind, get_movies_cache, http_get, bind.
      rewrite H. fold (movies_request c). simpl. rewrite Hr. reflexivity.
    + simpl. rewrite H. repeat split.
  - intros l H. unfold get_all_series, bind, get_series_cache. rewrite H. reflexivity.
  - intros H l Hr. cbv zeta. split.
    + unfold get_all_series, bind, get_series_cache, http_get, bind.
      rewrite H. fold (series_request c). simpl. rewrite Hr. reflexivity.
    + reflexivity.
  - intros H Hr. eexists. split.
    + unfold get_all_series, bind, get_series_cache, http_get, bind.
      rewrite H. fold (series_request c). simpl. rewrite Hr. reflexivity.
    + simpl. rewrite H. repeat split.
Qed.

Lemma catalogue_is_fetched_once_witness :
  movies_cache (world0 []) = None
  /\ radarr_movies Scenario.one_movie
       (movies_request (mkArrClient "http://radarr" [("X-Api-Key", "rk")]))
     = Some [Movie.mk (Some "Alien") (Some 7) (Some 2048)]
  /\ calls (snd (bind (get_all_movies Scenario.one_movie
                         (mkArrClient "http://radarr" [("X-Api-Key", "rk")]))
                      (fun _ => get_all_movies Scenario.one_movie
                                  (mkArrClient "http://radarr" [("X-Api-Key", "rk")]))
                      (world0 [])))
     = [movies_request (mkArrClient "http://radarr" [("X-Api-Key", "rk")])].
Proof.
  split; [reflexivity|]. split; [reflexivity|].
  destruct (catalogue_is_fetched_once Scenario.one_movie
              (mkArrClient "http://radarr" [("X-Api-Key", "rk")]) (world0 []))
    as ((_ & H & _) & _).
  destruct (H eq_refl _ eq_refl) as [E1 E2].
  rewrite (bind_ok _ _ _ _ _ E1), E2. reflexivity.
Defined.

(** ** What [find_by_title] returns *)

Lemma append_empty_r (s : string) : s ++ "" = s.
Proof. induction s as [|c s IH]; simpl; [reflexivity | rewrite IH; reflexivity]. Qed.

Lemma same_title_related {E} (get_title : E -> option string) title e :
  same_title get_title title e -> related_title get_title title e.
Proof.
  unfold same_title, related_title. intros H. left. exists "", "".
  simpl. rewrite append_empty_r. exact H.
Qed.

Lemma exact_match_some {E} (get_title : E -> option string) l title e :
  exact_match get_title l title = Some e ->
  In e l /\ same_title get_title title e.
Proof.
  induction l as [|x l IH]; simpl; [discriminate|].
  destruct (String.eqb _ _) eqn:Hx.
  - intros [= <-]. split; [auto | apply String.eqb_eq; exact Hx].
  - intros H. destruct (IH H). auto.
Qed.

Lemma fuzzy_match_some {E} (get_title : E -> option string) l title e :
  fuzzy_match get_title l title = Some e ->
  In e l /\ related_title get_title title e.
Proof.
  induction l as [|x l IH]; simpl; [discriminate|].
  destruct (_ || _) eqn:Hx.
  - intros [= <-]. split; [auto | apply related_title_orb; exact Hx].
  - intros H. destruct (IH H). auto.
Qed.

Lemma find_by_title_some {E} (get_title : E -> option string) l title e :
  find_by_title get_title l title = Some e ->
  In e l /\ related_title get_title title e.
Proof.
  unfold find_by_title. destruct (exact_match get_title l title) as [x|] eqn:Ex.
  - intros [= <-]. apply exact_match_some in Ex. destruct Ex.
    split; [assumption | apply same_title_related; assumption].
  - apply fuzzy_match_some.
Qed.


(** ** Deleting from a catalogue *)

Lemma filter_keeps_other_ids {E} (get_id : E -> option Z) id l e :
  In e (filter (fun x => negb (opt_Z_eqb (get_id x) id)) l)
  <-> In e l /\ get_id e <> Some id.
Proof.
  rewrite filter_In. unfold opt_Z_eqb.
  destruct (get_id e) as [m|]; simpl.
  - rewrite negb_true_iff, Z.eqb_neq. intuition congruence.
  - intuition congruence.
Qed.

(** A deletion the service accepts, with a cached catalogue: one DELETE
    request, the answer [True], and the cache loses the entries with that
    id and no other.  A search made afterwards issues no request and never
    returns an entry with the deleted id. *)
Theorem deleted_entry_is_not_found_again :
  forall env c id files w,
    (forall l,
        movies_cache w = Some l ->
        arr_delete env (delete_request c "movie" id files) = true ->
        let cache := filter (fun m => negb (opt_Z_eqb (Movie.id m) id)) l in
        let w1 := with_movies_cache (Some cache)
                    (called (delete_request c "movie" id files) w) in
        delete_movie env c id files w = (Ok true, w1)
        /\ (forall e, In e cache <-> In e l /\ Movie.id e <> Some id)
        /\ forall title,
            find_movie_by_title env c title w1
            = (Ok (find_by_title Movie.title cache title), w1)
            /\ forall e, find_by_title Movie.title cache title = Some e ->
                         In e l /\ Movie.id e <> Some id)
    /\ (forall l,
           series_cache w = Some l ->
           arr_delete env (delete_request c "series" id files) = true ->
           let cache := filter (fun s => negb (opt_Z_eqb (Series.id s) id)) l in
           let w1 := with_series_cache (Some cache)
                       (called (delete_request c "series" id files) w) in
           delete_series env c id files w = (Ok true, w1)
           /\ (forall e, In e cache <-> In e l /\ Series.id e <> Some id)
           /\ forall title,
               find_series_by_title env c title w1
               = (Ok (find_by_title Series.title cache title), w1)
               /\ forall e, find_by_title Series.title cache title = Some e ->
                            In e l /\ Series.id e <> Some id).
Proof.
  intros env c id files w. split; intros l Hc Hd; cbv zeta.
  - split; [|split].
    + unfold delete_movie, http_delete, bind, put_call. simpl.
      rewrite Hd. unfold get_movies_cache. simpl. rewrite Hc. reflexivity.
    + intros e. apply filter_keeps_other_ids.
    + intros title. split; [reflexivity|].
      intros e He. apply find_by_title_some in He.
      apply (filter_keeps_other_ids Movie.id), He.
  - split; [|split].
    + unfold delete_series, get_all_series, bind, get_series_cache.
      rewrite Hc. unfold http_delete, bind, put_call. simpl.
      rewrite Hd. simpl. rewrite Hc. reflexivity.
    + intros e. apply filter_keeps_other_ids.
    + intros title. split; [reflexivity|].
      intros e He. apply find_by_title_some in He.
      apply (filter_keeps_other_ids Series.id), He.
Qed.

Lemma deleted_entry_is_not_found_again_witness :
  let c := mkArrClient "http://radarr" [("X-Api-Key", "rk")] in
  let alien := Movie.mk (Some "Alien") (Some 7) (Some 2048) in
  let aliens := Movie.mk (Some "Aliens") (Some 8) (Some 4096) in
  let w := with_movies_cache (Some [alien; aliens]) (world0 []) in
  movies_cache w = Some [alien; aliens]
  /\ arr_delete Scenario.one_movie (delete_request c "movie" 7 false) = true
  /\ fst (bind (delete_movie Scenario.one_movie c 7 false)
               (fun _ => find_movie_by_title Scenario.one_movie c "Alien") w)
     = Ok (Some aliens).
Proof.
  intros c alien aliens w. split; [reflexivity|]. split; [reflexivity|].
  destruct (deleted_entry_is_not_found_again Scenario.one_movie c 7 false w)
    as (H & _).
  destruct (H [alien; aliens] eq_refl eq_refl) as (E & _ & F).
  rewrite (bind_ok _ _ _ _ _ E). destruct (F "Alien") as [-> _]. reflexivity.
Defined.

(** [delete_series] never raises: it returns what the service said.
    [delete_movie] does too, except when the service accepts the deletion
    while no catalogue is cached: the request has been issued, and the
    success message reads a [movie_name] that was never bound. *)
Theorem delete_outcomes :
  forall env c id files w,
    (exists w1,
        delete_series env c id files w
        = (Ok (arr_delete env (delete_request c "series" id files)), w1))
    /\ (arr_delete env (delete_request c "movie" id files) = true ->
        movies_cache w = None ->
        delete_movie env c id files w
        = (Raise (PyError "UnboundLocalError"),
           called (delete_request c "movie" id files) w))
    /\ (arr_delete env (delete_request c "movie" id files) = false
        \/ movies_cache w <> None ->
        exists w1,
          delete_movie env c id files w
          = (Ok (arr_delete env (delete_request c "movie" id files)), w1)).
Proof.
  intros env c id files w. split; [|split].
  - unfold delete_series.
    destruct (get_all_series_ok env c w) as (cat & w0 & E & _).
    rewrite (bind_ok _ _ _ _ _ E).
    unfold http_delete, bind, put_call, ret, get_series_cache. simpl.
    destruct (arr_delete env _); simpl.
    + destruct (series_cache w0); eexists; reflexivity.
    + eexists; reflexivity.
  - intros Hd Hc. unfold called, delete_movie, http_delete, bind, put_call, ret.
    simpl. rewrite Hd. unfold get_movies_cache. simpl. rewrite Hc. reflexivity.
  - intros H. unfold delete_movie, http_delete.
    unfold bind at 1. unfold bind at 1. unfold put_call, ret.
    destruct (arr_delete env _) eqn:Hd.
    + destruct H as [H|H]; [discriminate|].
      unfold bind, get_movies_cache. simpl.
      destruct (movies_cache w); [eexists; reflexivity | congruence].
    + match goal with |- context [bind (get_all_movies env c) _ ?w0] =>
        destruct (get_all_movies_ok env c w0) as (cat & w1 & E & _)
      end.
      rewrite (bind_ok _ _ _ _ _ E). eexists. reflexivity.
Qed.

Lemma delete_outcomes_witness :
  let c := mkArrClient "http://radarr" [("X-Api-Key", "rk")] in
  arr_delete Scenario.one_movie (delete_request c "movie" 7 false) = true
  /\ movies_cache (world0 []) = None
  /\ fst (delete_movie Scenario.one_movie c 7 false (world0 []))
     = Raise (PyError "UnboundLocalError").
Proof.
  intros c. split; [reflexivity|]. split; [reflexivity|].
  destruct (delete_outcomes Scenario.one_movie c 7 false (world0 []))
    as (_ & H & _).
  rewrite (H eq_refl eq_refl). reflexivity.
Defined.

(** ** [prompt_for_deletion] *)

Lemma logged_nil w : logged [] w = w.
Proof. destruct w; unfold logged; simpl. rewrite app_nil_r. reflexivity. Qed.

Lemma after_prompt_more helps keys w :
  after_prompt helps keys
    (mkWorld (calls w) (nows w) keys (log w) (stdout w ++ [PromptHelp]) (runs w)
             (movies_cache w) (series_cache w))
  = after_prompt (S helps) keys w.
Proof. unfold after_prompt. simpl. rewrite <- app_assoc. reflexivity. Qed.

Lemma prompt_loop_spec junk :
  forall keys fuel w,
    stdin w = (map Line junk ++ keys)%list ->
    Forall (fun l => answer_of l = Unclear) junk ->
    decisive keys ->
    (List.length junk < fuel)%nat ->
    prompt_loop fuel w
    = (decision keys, after_prompt (List.length junk) (tl keys) w).
Proof.
  induction junk as [|j junk IH]; intros keys fuel w Hs Hj Hk Hf.
  - destruct fuel as [|fuel]; [inversion Hf|]. simpl in Hs. simpl prompt_loop.
    unfold bind, input. rewrite Hs. unfold after_prompt. simpl repeat.
    rewrite app_nil_r.
    destruct keys as [|[l|] keys]; simpl.
    + rewrite <- Hs. destruct w; reflexivity.
    + simpl in Hk. unfold answer_of in *.
      destruct (_ || _); [reflexivity|].
      destruct (_ || _); [reflexivity|].
      destruct (_ || _); [reflexivity|]. congruence.
    + reflexivity.
  - destruct fuel as [|fuel]; [inversion Hf|]. simpl in Hs, Hf. simpl prompt_loop.
    unfold bind at 1, input. rewrite Hs.
    inversion Hj as [|? ? Hj1 Hj2]; subst. cbv beta iota.
    unfold answer_of in Hj1.
    destruct (_ || _); [discriminate|].
    destruct (_ || _); [discriminate|].
    destruct (_ || _); [discriminate|].
    unfold bind, print_flush. cbv beta iota.
    rewrite (IH keys fuel); try assumption; [|reflexivity|lia].
    cbn [calls nows stdin log stdout runs movies_cache series_cache].
    f_equal. unfold after_prompt. simpl. rewrite <- app_assoc. reflexivity.
Qed.

(** [prompt_for_deletion] skips the lines that are none of y, yes, n, no,
    q and quit (in any case), printing a reminder for each, and stops at the
    first key that is something else: yes is [True], no is [False], quit
    leaves the script with code 0, an interrupt is [KeyboardInterrupt] and
    the end of the input is [EOFError].  It has then read up to that key and
    nothing further. *)
Theorem prompt_reads_up_to_the_first_answer :
  forall junk keys w,
    stdin w = (map Line junk ++ keys)%list ->
    Forall (fun l => answer_of l = Unclear) junk ->
    decisive keys ->
    prompt_for_deletion w
    = (decision keys, after_prompt (List.length junk) (tl keys) w).
Proof.
  intros junk keys w Hs Hj Hk. unfold prompt_for_deletion.
  apply (prompt_loop_spec junk); try assumption.
  rewrite Hs, length_app, length_map. lia.
Qed.

Lemma prompt_reads_up_to_the_first_answer_witness :
  let w := world0 [Line "maybe"; Line ""; Line "YES"; Line "n"] in
  stdin w = (map Line ["maybe"; ""] ++ [Line "YES"; Line "n"])%list
  /\ Forall (fun l => answer_of l = Unclear) ["maybe"; ""]
  /\ decisive [Line "YES"; Line "n"]
  /\ prompt_for_deletion w
     = (Ok true,
        mkWorld [] 0 [Line "n"] [] [PromptHelp; PromptHelp] 0 None None).
Proof.
  intros w.
  assert (H1 : stdin w = (map Line ["maybe"; ""] ++ [Line "YES"; Line "n"])%list)
    by reflexivity.
  assert (H2 : Forall (fun l => answer_of l = Unclear) ["maybe"; ""])
    by (repeat constructor).
  assert (H3 : decisive [Line "YES"; Line "n"]) by (simpl; discriminate).
  split; [exact H1|]. split; [exact H2|]. split; [exact H3|].
  rewrite (prompt_reads_up_to_the_first_answer _ _ w H1 H2 H3). reflexivity.
Defined.

(** ** The whitelist of the resolver *)

Lemma str_mem_iff x l : PyStr.mem String.eqb x l = true <-> In x l.
Proof.
  unfold PyStr.mem. rewrite existsb_exists. split.
  - intros (y & Hy & E). apply String.eqb_eq in E. subst. exact Hy.
  - intros H. exists x. split; [exact H | apply String.eqb_refl].
Qed.

Lemma In_str_add x y s :
  In x (PyStr.add String.eqb y s) <-> x = y \/ In x s.
Proof.
  unfold PyStr.add. destruct (PyStr.mem String.eqb y s) eqn:M.
  - apply str_mem_iff in M. split; [auto | intros [->|H]; assumption].
  - rewrite in_app_iff. simpl. intuition congruence.
Qed.

Lemma find_whitelisted_spec wl users :
  (forall i, In i (fst (find_whitelisted wl users))
             <-> exists u, In u users /\ User.Id u = i
                           /\ In (PyStr.lower (user_name u)) (map PyStr.lower wl))
  /\ (forall n, In n (snd (find_whitelisted wl users))
                <-> exists u, In u users /\ user_name u = n
                              /\ In (PyStr.lower (user_name u)) (map PyStr.lower wl)).
Proof.
  unfold find_whitelisted.
  assert (G : forall us acc,
             (forall i, In i (fst (fold_left
                 (fun (acc : id_set * list string) user =>
                    let user_name := match User.Name user with
                                     | Some n => n | None => "" end in
                    if PyStr.mem String.eqb (PyStr.lower user_name) (map PyStr.lower wl)
                    then (id_add (User.Id user) (fst acc),
                          PyStr.add String.eqb user_name (snd acc))
                    else acc) us acc))
                  <-> In i (fst acc)
                      \/ exists u, In u us /\ User.Id u = i
                                   /\ In (PyStr.lower (user_name u)) (map PyStr.lower wl))
             /\ (forall n, In n (snd (fold_left
                 (fun (acc : id_set * list string) user =>
                    let user_name := match User.Name user with
                                     | Some n => n | None => "" end in
                    if PyStr.mem String.eqb (PyStr.lower user_name) (map PyStr.lower wl)
                    then (id_add (User.Id user) (fst acc),
                          PyStr.add String.eqb user_name (snd acc))
                    else acc) us acc))
                  <-> In n (snd acc)
                      \/ exists u, In u us /\ user_name u = n
                                   /\ In (PyStr.lower (user_name u)) (map PyStr.lower wl))).
  { induction us as [|u us IH]; intros acc.
    - simpl. split; intros x; (split; [auto | intros [H|(u & [] & _)]; exact H]).
    - simpl fold_left. fold (user_name u).
      destruct (PyStr.mem String.eqb (PyStr.lower (user_name u)) (map PyStr.lower wl))
        eqn:M.
      + apply str_mem_iff in M.
        destruct (IH (id_add (User.Id u) (fst acc),
                      PyStr.add String.eqb (user_name u) (snd acc))) as [I1 I2].
        split; intros x.
        * rewrite I1. simpl fst. rewrite <- id_in_iff, id_in_add, id_in_iff. split.
          -- intros [[->|H]|(u' & Hu & H)]; [right; exists u; simpl; auto | auto |].
             right. exists u'. simpl. tauto.
          -- intros [H|(u' & [<-|Hu] & <- & H)]; [auto | auto |].
             right. exists u'. auto.
        * rewrite I2. simpl snd. rewrite In_str_add. split.
          -- intros [[->|H]|(u' & Hu & H)]; [right; exists u; simpl; auto | auto |].
             right. exists u'. simpl. tauto.
          -- intros [H|(u' & [<-|Hu] & <- & H)]; [auto | auto |].
             right. exists u'. auto.
      + assert (N : ~ In (PyStr.lower (user_name u)) (map PyStr.lower wl))
          by (rewrite <- str_mem_iff; congruence).
        destruct (IH acc) as [I1 I2]. split; intros x.
        * rewrite I1. split.
          -- intros [H|(u' & Hu & H)]; [auto|]. right. exists u'. simpl. tauto.
          -- intros [H|(u' & [<-|Hu] & E & H)]; [auto | contradiction |].
             right. exists u'. auto.
        * rewrite I2. split.
          -- intros [H|(u' & Hu & H)]; [auto|]. right. exists u'. simpl. tauto.
          -- intros [H|(u' & [<-|Hu] & E & H)]; [auto | contradiction |].
             right. exists u'. auto. }
  destruct (G users ([], [])) as [G1 G2]. split; intros x.
  - rewrite G1. simpl. intuition.
  - rewrite G2. simpl. intuition.
Qed.

Lemma warn_missing_log names pred :
  forall l,
    (forall n, In n l ->
               existsb (fun wname => String.eqb (PyStr.lower wname) (PyStr.lower n))
                       names = pred n) ->
    forall w,
      warn_missing l names w
      = (Ok tt, logged (map not_found_warning (filter (fun n => negb (pred n)) l)) w).
Proof.
  unfold warn_missing.
  assert (G : forall l,
             (forall n, In n l ->
                        existsb (fun wname =>
                                   String.eqb (PyStr.lower wname) (PyStr.lower n))
                                names = pred n) ->
             forall u w,
             for_each l
               (fun whitelist_name (_ : unit) =>
                  if existsb (fun wname =>
                                String.eqb (PyStr.lower wname)
                                           (PyStr.lower whitelist_name))
                             names
                  then ret tt
                  else logger WARNING ("Whitelisted user '" ++ whitelist_name
                                       ++ "' not found on the server"))
               u w
             = (Ok tt, logged (map not_found_warning
                                   (filter (fun n => negb (pred n)) l)) w)).
  { induction l as [|x l IH]; intros Hp [] w; simpl.
    - rewrite logged_nil. reflexivity.
    - unfold bind at 1. rewrite (Hp x (or_introl eq_refl)).
      assert (Hp' : forall n, In n l ->
                 existsb (fun wname => String.eqb (PyStr.lower wname) (PyStr.lower n))
                         names = pred n)
        by (intros n Hn; apply Hp; right; exact Hn).
      destruct (pred x); simpl.
      + apply IH, Hp'.
      + rewrite (IH Hp'). unfold logged. simpl. rewrite <- app_assoc. reflexivity. }
  intros l Hp w. apply G, Hp.
Qed.



(** ** More on what the resolver returns *)

Lemma In_active_libraries names libs library :
  In library (active_libraries names libs) ->
  In library libs
  /\ forall n ns, names = Some (n :: ns) ->
                  exists name, Library.Name library = Some name /\ In name (n :: ns).
Proof.
  unfold active_libraries. destruct names as [[|n ns]|].
  - intros H. split; [exact H | discriminate].
  - unfold filter_libraries. rewrite filter_In. intros [H B]. split; [exact H|].
    intros n' ns' [= <- <-]. apply andb_true_iff in B. destruct B as [_ B].
    destruct (Library.Name library) as [name|]; [|discriminate].
    exists name. split; [reflexivity | apply str_mem_iff, B].
  - intros H. split; [exact H | discriminate].
Qed.

(** Every item returned carries the name of the library it was found in, a
    library the server lists and whose id is not empty; and when
    [--libraries] names libraries, that library bears one of the names
    given, exactly as written. *)
Theorem returned_items_come_from_the_chosen_libraries :
  forall env a w,
    cutoff_ok (clock env (nows w)) (days a) = true ->
    exists out w',
      get_unwatched_items env (client_of env a) (days a) (libraries_to_check a) w
      = (Ok out, w')
      /\ forall x,
          In x out ->
          exists library lid,
            In library (v_libraries (views_for env a))
            /\ Library.ItemId library = Some lid /\ lid <> ""
            /\ Item.LibraryName x = Library.Name library
            /\ forall n ns,
                libraries_to_check a = Some (n :: ns) ->
                exists name, Library.Name library = Some name /\ In name (n :: ns).
Proof.
  intros env a w Hok.
  destruct (resolver_result env a w Hok) as (w' & E & _ & _).
  eexists; exists w'. split; [exact E|].
  intros x Hx. unfold unwatched_at in Hx. apply In_resolve in Hx.
  destruct Hx as (library & lid & item & Hl & U & _ & _ & ->).
  apply In_active_libraries in Hl. destruct Hl as [Hl Hn].
  exists library, lid. split; [exact Hl|].
  unfold usable in U. destruct (Library.ItemId library) as [i|]; [|discriminate].
  destruct (String.eqb i "") eqn:Ei; [discriminate|]. injection U as ->.
  apply String.eqb_neq in Ei. repeat split; assumption.
Qed.

Lemma returned_items_come_from_the_chosen_libraries_witness :
  cutoff_ok (clock Scenario.four_movies 0) 90 = true
  /\ exists out w',
      get_unwatched_items Scenario.four_movies
        (client_of Scenario.four_movies Scenario.plain) 90 None (world0 [])
      = (Ok out, w')
      /\ forall x, In x out ->
                   exists library, In library [Scenario.movies_lib]
                                   /\ Item.LibraryName x = Library.Name library.
Proof.
  split; [vm_compute; reflexivity|].
  destruct (returned_items_come_from_the_chosen_libraries
              Scenario.four_movies Scenario.plain (world0 []) eq_refl)
    as (out & w' & E & H).
  exists out, w'. split; [exact E|].
  intros x Hx. destruct (H x Hx) as (library & lid & Hl & _ & _ & Hn & _).
  exists library. split; [exact Hl | exact Hn].
Defined.



(** The resolver fails exactly when [datetime] cannot compute the cutoff:
    more than 999999999 days either way, or a date before year 1 or after
    year 9999.  It then raises [OverflowError] after reading the clock and
    before any request; otherwise it returns a list. *)
Theorem resolver_fails_only_on_the_cutoff :
  forall env a w,
    let t := clock env (nows w) in
    (cutoff_ok t (days a) = true
     <-> -999999999 <= days a <= 999999999
         /\ 0 <= t - days a * 86400000000 <= 315537897599999999)
    /\ (cutoff_ok t (days a) = false ->
        get_unwatched_items env (client_of env a) (days a) (libraries_to_check a) w
        = (Raise (PyError "OverflowError"), ticked w))
    /\ (cutoff_ok t (days a) = true ->
        exists out w',
          get_unwatched_items env (client_of env a) (days a) (libraries_to_check a) w
          = (Ok out, w')).
Proof.
  intros env a w t. split; [|split].
  - unfold cutoff_ok, PyTime.in_range.
    change PyTime.max_delta_days with 999999999.
    change PyTime.min_dt with 0.
    change PyTime.max_dt with 315537897599999999.
    change PyTime.us_per_day with 86400000000.
    rewrite !andb_true_iff, !Z.leb_le. lia.
  - intros H. unfold get_unwatched_items, bind, now, cutoff_of.
    fold (cutoff_ok (clock env (nows w)) (days a)). fold t. rewrite H. reflexivity.
  - intros H. destruct (resolver_result env a w H) as (w' & E & _).
    eexists; exists w'. exact E.
Qed.

Lemma resolver_fails_only_on_the_cutoff_witness :
  cutoff_ok (clock Scenario.offline 0) (days Scenario.long_ago) = false
  /\ get_unwatched_items Scenario.offline
       (client_of Scenario.offline Scenario.long_ago) 1000000 None (world0 [])
     = (Raise (PyError "OverflowError"), ticked (world0 [])).
Proof.
  split; [vm_compute; reflexivity|].
  destruct (resolver_fails_only_on_the_cutoff
              Scenario.offline Scenario.long_ago (world0 [])) as (_ & H & _).
  apply H. vm_compute. reflexivity.
Defined.

(** ** [--sort-by-size] *)

Lemma insert_by_size_perm x l : Permutation (insert_by_size x l) (x :: l).
Proof.
  induction l as [|y l IH]; simpl; [reflexivity|].
  destruct (row_Size y <=? row_Size x); [reflexivity|].
  rewrite IH. apply perm_swap.
Qed.

Lemma insert_by_size_sorted x l :
  StronglySorted not_smaller l -> StronglySorted not_smaller (insert_by_size x l).
Proof.
  induction l as [|y l IH]; simpl; intros Hs.
  - repeat constructor.
  - inversion Hs as [|? ? Hs' Hall]; subst.
    destruct (row_Size y <=? row_Size x) eqn:L.
    + apply Z.leb_le in L. constructor; [exact Hs|].
      constructor; [exact L|].
      apply Forall_forall. intros z Hz.
      rewrite Forall_forall in Hall. specialize (Hall z Hz).
      unfold not_smaller in *. lia.
    + apply Z.leb_gt in L. constructor; [apply IH, Hs'|].
      apply Forall_forall. intros z Hz.
      apply (Permutation_in _ (insert_by_size_perm x l)) in Hz.
      destruct Hz as [<-|Hz]; [unfold not_smaller; lia|].
      rewrite Forall_forall in Hall. apply Hall, Hz.
Qed.

Lemma insert_by_size_of_size z x l :
  of_size z (insert_by_size x l) = of_size z (x :: l).
Proof.
  unfold of_size. induction l as [|y l IH]; simpl; [reflexivity|].
  destruct (row_Size y <=? row_Size x) eqn:L; [reflexivity|].
  apply Z.leb_gt in L. simpl. rewrite IH. simpl.
  destruct (row_Size y =? z) eqn:Ey, (row_Size x =? z) eqn:Ex; try reflexivity.
  apply Z.eqb_eq in Ey, Ex. lia.
Qed.

(** [l.sort(key=lambda x: x['Size'], reverse=True)], the sort of the two
    lists of the report: the same rows, the largest first, and rows of the
    same size in the order they had. *)
Theorem sort_by_size_is_a_stable_descending_sort :
  forall l,
    Permutation (sort_by_size_desc l) l
    /\ StronglySorted not_smaller (sort_by_size_desc l)
    /\ forall z, of_size z (sort_by_size_desc l) = of_size z l.
Proof.
  induction l as [|x l (P & S & F)]; simpl.
  - repeat split; constructor.
  - split; [|split].
    + rewrite insert_by_size_perm. constructor. exact P.
    + apply insert_by_size_sorted, S.
    + intros z. rewrite insert_by_size_of_size. unfold of_size in *. simpl.
      rewrite F. reflexivity.
Qed.

(** ** The totals of the report *)

Lemma sum_sizes_snoc l r : sum_sizes (l ++ [r]) = sum_sizes l + row_Size r.
Proof. induction l as [|x l IH]; simpl; [lia | rewrite IH; lia]. Qed.

Lemma sum_sizes_perm l l' : Permutation l l' -> sum_sizes l = sum_sizes l'.
Proof. induction 1; simpl; lia. Qed.

Lemma gather_item_sums env rc sc recent item g w g' w' :
  gather_item env rc sc recent item g w = (Ok g', w') ->
  total_movie_size g = sum_sizes (movies g)
  /\ total_show_size g = sum_sizes (shows g) ->
  total_movie_size g' = sum_sizes (movies g')
  /\ total_show_size g' = sum_sizes (shows g').
Proof.
  unfold gather_item. intros E [Im Is].
  destruct (Item.is_series item && id_in (Item.Id item) recent).
  { injection E as <- _. auto. }
  destruct (Item.is_movie item).
  - unfold bind in E.
    destruct ((match rc with
               | Some rc => find_movie_by_title env rc _
               | None => ret None
               end) w) as [[found|e] w1]; [|discriminate].
    destruct found as [m|]; injection E as <- _; simpl;
      rewrite sum_sizes_snoc; simpl; split; lia.
  - destruct (Item.is_series item).
    + unfold bind in E.
      destruct ((match sc with
                 | Some sc => find_series_by_title env sc _
                 | None => ret None
                 end) w) as [[found|e] w1]; [|discriminate].
      destruct found as [m|]; injection E as <- _; simpl;
        rewrite sum_sizes_snoc; simpl; split; lia.
    + injection E as <- _. auto.
Qed.

Lemma gather_loop_sums env rc sc recent items :
  forall g w g' w',
    for_each items (gather_item env rc sc recent) g w = (Ok g', w') ->
    total_movie_size g = sum_sizes (movies g)
    /\ total_show_size g = sum_sizes (shows g) ->
    total_movie_size g' = sum_sizes (movies g')
    /\ total_show_size g' = sum_sizes (shows g').
Proof.
  induction items as [|i items IH]; intros g w g' w' E I; simpl in E.
  - injection E as <- _. exact I.
  - unfold bind in E.
    destruct (gather_item env rc sc recent i g w) as [[g1|e] w1] eqn:E1;
      [|discriminate].
    apply (IH g1 w1 g' w' E). apply (gather_item_sums _ _ _ _ _ _ _ _ _ E1 I).
Qed.


(** ** A batch of real deletions *)

Section Batch.

Variable env : Env.
Variable a : Args.
Variable c : ArrClient.
Variable what : string.
Variable delete : Z -> bool -> M bool.
Variable Inv : World -> Prop.

Hypothesis Hall : delete_mode a = DeleteMode.all.
Hypothesis Hlive : dry_run a = false.

(** What the batch needs of the client's method. *)
Hypothesis delete_spec :
  forall id w,
    Inv w ->
    exists w',
      delete id (delete_files a) w
      = (Ok (arr_delete env (delete_request c what id (delete_files a))), w')
      /\ calls w' = (calls w ++ [delete_request c what id (delete_files a)])%list
      /\ stdout w' = stdout w /\ stdin w' = stdin w /\ Inv w'.

Hypothesis Inv_printed : forall l w, Inv w -> Inv (printed l w).

Lemma live_step row t w :
  Inv w ->
  exists w',
    delete_step a delete row t w
    = (Ok (mkTally (freed t + sum_sizes (accepted env c what (delete_files a) [row]))
                   (count t + Z.of_nat (List.length
                                          (accepted env c what (delete_files a) [row])))),
       w')
    /\ calls w' = (calls w ++ deletions c what (delete_files a) [row])%list
    /\ stdout w' = (stdout w ++ batch_lines env c what (delete_files a) [row])%list
    /\ stdin w' = stdin w /\ Inv w'.
Proof.
  intros HI. unfold delete_step, accepted, deletions, batch_lines. simpl.
  destruct (row_Id row) as [id|].
  - unfold should_delete. rewrite Hall, Hlive.
    unfold bind at 1, ret at 1. unfold bind at 1, print_flush at 1.
    fold (printed [Deleting row] w).
    destruct (delete_spec id (printed [Deleting row] w) (Inv_printed _ _ HI))
      as (w1 & E & C & O & I & HI1).
    rewrite (bind_ok _ _ _ _ _ E).
    destruct t as [f n].
    destruct (arr_delete env _); unfold bind, print_flush, ret; simpl.
    + exists (printed [DeletedOk row] w1). split.
      { unfold printed. simpl. rewrite Z.add_0_r. reflexivity. }
      unfold printed at 1 2 3. simpl. rewrite C, O, I. simpl.
      rewrite <- !app_assoc. repeat split. apply Inv_printed, HI1.
    + exists (printed [DeleteFailed row] w1). split.
      { unfold printed. simpl. rewrite !Z.add_0_r. reflexivity. }
      unfold printed at 1 2 3. simpl. rewrite C, O, I. simpl.
      rewrite <- !app_assoc. repeat split. apply Inv_printed, HI1.
  - exists w. rewrite !app_nil_r, !Z.add_0_r. destruct t. repeat split. exact HI.
Qed.

Lemma live_loop rows :
  forall t w,
    Inv w ->
    exists w',
      for_each rows (delete_step a delete) t w
      = (Ok (mkTally (freed t + sum_sizes (accepted env c what (delete_files a) rows))
                     (count t + Z.of_nat (List.length
                                            (accepted env c what (delete_files a) rows)))),
         w')
      /\ calls w' = (calls w ++ deletions c what (delete_files a) rows)%list
      /\ stdout w' = (stdout w ++ batch_lines env c what (delete_files a) rows)%list
      /\ stdin w' = stdin w /\ Inv w'.
Proof.
  induction rows as [|r rows IH]; intros t w HI.
  - exists w. simpl. rewrite !app_nil_r, !Z.add_0_r. destruct t. repeat split. exact HI.
  - destruct (live_step r t w HI) as (w1 & E1 & C1 & O1 & I1 & HI1).
    simpl for_each. rewrite (bind_ok _ _ _ _ _ E1).
    match type of E1 with _ = (Ok ?t1, _) =>
      destruct (IH t1 w1 HI1) as (w2 & E2 & C2 & O2 & I2 & HI2)
    end.
    exists w2. rewrite E2, C2, C1, O2, O1, I2, I1.
    unfold accepted, deletions, batch_lines in *. simpl.
    destruct (row_Id r) as [id|]; simpl.
    + destruct (arr_delete env _); simpl; rewrite ?app_nil_r, <- ?app_assoc;
        (split; [do 2 f_equal; f_equal; try lia;
                 rewrite ?Zpos_P_of_succ_nat; lia|]);
        repeat split; try reflexivity; exact HI2.
    + rewrite ?app_nil_r. split; [do 2 f_equal; f_equal; lia|].
      repeat split; exact HI2.
Qed.

End Batch.

Lemma caches_filled_printed l w : caches_filled w -> caches_filled (printed l w).
Proof. intros H. exact H. Qed.

Lemma delete_movie_live env c files id w :
  caches_filled w ->
  exists w',
    delete_movie env c id files w
    = (Ok (arr_delete env (delete_request c "movie" id files)), w')
    /\ calls w' = (calls w ++ [delete_request c "movie" id files])%list
    /\ stdout w' = stdout w /\ stdin w' = stdin w /\ caches_filled w'.
Proof.
  intros [Hm Hs]. unfold delete_movie, http_delete.
  unfold bind at 1. unfold bind at 1. unfold put_call at 1, ret at 1.
  destruct (arr_delete env _).
  - unfold bind, get_movies_cache, set_movies_cache, ret. simpl.
    destruct (movies_cache w) as [l|]; [|contradiction].
    eexists. split; [reflexivity|]. simpl. repeat split; [discriminate | exact Hs].
  - unfold get_all_movies, bind, get_movies_cache, logger, ret. simpl.
    destruct (movies_cache w) as [l|] eqn:E; [|contradiction].
    eexists. split; [reflexivity|]. simpl.
    repeat split; [discriminate | exact Hs].
Qed.

Lemma delete_series_live env c files id w :
  caches_filled w ->
  exists w',
    delete_series env c id files w
    = (Ok (arr_delete env (delete_request c "series" id files)), w')
    /\ calls w' = (calls w ++ [delete_request c "series" id files])%list
    /\ stdout w' = stdout w /\ stdin w' = stdin w /\ caches_filled w'.
Proof.
  intros [Hm Hs]. unfold delete_series, get_all_series, http_delete.
  unfold bind at 1. unfold bind at 1. unfold get_series_cache at 1.
  destruct (series_cache w) as [l|] eqn:E; [|contradiction].
  unfold ret at 1. unfold bind at 1. unfold bind at 1.
  unfold put_call at 1, ret at 1.
  destruct (arr_delete env _).
  - unfold bind, get_series_cache, set_series_cache, ret. simpl. rewrite E.
    eexists. split; [reflexivity|]. simpl. repeat split; [exact Hm | discriminate].
  - unfold bind, logger, ret. simpl.
    eexists. split; [reflexivity|]. simpl. rewrite E.
    repeat split; [exact Hm | discriminate].
Qed.



(** ** Runs that only read *)

Create HintDb tame.

Section Tame.

Lemma untouched_refl w : untouched w w.
Proof.
  split; [reflexivity|]. exists []. rewrite app_nil_r. split; [reflexivity | constructor].
Qed.

Lemma untouched_trans w1 w2 w3 :
  untouched w1 w2 -> untouched w2 w3 -> untouched w1 w3.
Proof.
  intros (I1 & l1 & C1 & F1) (I2 & l2 & C2 & F2). split; [congruence|].
  exists (l1 ++ l2)%list. rewrite C2, C1, app_assoc. split; [reflexivity|].
  apply Forall_app; split; assumption.
Qed.

Lemma tame_same {A} (m : M A) :
  (forall w, calls (snd (m w)) = calls w) ->
  (forall w, stdin (snd (m w)) = stdin w) -> tame m.
Proof.
  intros Hc Hi w. split; [apply Hi|]. exists []. rewrite app_nil_r.
  split; [apply Hc | constructor].
Qed.

Lemma tame_ret {A} (a : A) : tame (ret a).
Proof. intros w. apply untouched_refl. Qed.

Lemma tame_raise {A} e : tame (raise (A:=A) e).
Proof. intros w. apply untouched_refl. Qed.

Lemma tame_bind {A B} (m : M A) (f : A -> M B) :
  tame m -> (forall a, tame (f a)) -> tame (bind m f).
Proof.
  intros Hm Hf w. specialize (Hm w). unfold bind.
  destruct (m w) as [[a|e] w']; simpl in *; [|exact Hm].
  apply (untouched_trans _ _ _ Hm), Hf.
Qed.

Lemma tame_bind_ret {A B} (a : A) (f : A -> M B) :
  tame (f a) -> tame (bind (ret a) f).
Proof. intros H; exact H. Qed.

Lemma tame_bind_const {A B C} (m : M A) (v : B) (f : B -> M C) :
  tame m -> tame (f v) -> tame (bind (bind m (fun _ => ret v)) f).
Proof.
  intros Hm Hf w. specialize (Hm w). unfold bind, ret.
  destruct (m w) as [[a|e] w']; simpl in *; [|exact Hm].
  apply (untouched_trans _ _ _ Hm), Hf.
Qed.

Lemma tame_try_except {A} (m : M A) h :
  tame m -> (forall s, tame (h s)) -> tame (try_except m h).
Proof.
  intros Hm Hh w. specialize (Hm w). unfold try_except.
  destruct (m w) as [[a|[c| |s]] w']; simpl in *; try exact Hm.
  apply (untouched_trans _ _ _ Hm), Hh.
Qed.

Lemma tame_for_each {A S} (l : list A) (body : A -> S -> M S) :
  (forall x s, tame (body x s)) -> forall s, tame (for_each l body s).
Proof.
  intros Hb. induction l as [|x l IH]; intros s; simpl.
  - apply tame_ret.
  - apply tame_bind; [apply Hb | exact IH].
Qed.

Lemma tame_put_call r : verb r = "GET" -> tame (put_call r).
Proof.
  intros Hr w. split; [reflexivity|]. exists [r]. split; [reflexivity|].
  constructor; [exact Hr | constructor].
Qed.

Lemma tame_logger l s : tame (logger l s).
Proof. apply tame_same; reflexivity. Qed.

Lemma tame_print_flush p : tame (print_flush p).
Proof. apply tame_same; reflexivity. Qed.

Lemma tame_enter_run : tame enter_run.
Proof. apply tame_same; reflexivity. Qed.

Lemma tame_get_movies_cache : tame get_movies_cache.
Proof. apply tame_same; reflexivity. Qed.

Lemma tame_set_movies_cache x : tame (set_movies_cache x).
Proof. apply tame_same; reflexivity. Qed.

Lemma tame_get_series_cache : tame get_series_cache.
Proof. apply tame_same; reflexivity. Qed.

Lemma tame_set_series_cache x : tame (set_series_cache x).
Proof. apply tame_same; reflexivity. Qed.

Lemma tame_now env : tame (now env).
Proof. apply tame_same; reflexivity. Qed.

Lemma tame_stop_requested env : tame (stop_requested env).
Proof. apply tame_same; reflexivity. Qed.

Lemma tame_cutoff_of t d : tame (cutoff_of t d).
Proof.
  unfold cutoff_of. destruct (_ && _); [apply tame_ret | apply tame_raise].
Qed.

Lemma tame_add_hours t h : tame (add_hours t h).
Proof.
  unfold add_hours. destruct (_ && _); [apply tame_ret | apply tame_raise].
Qed.

Lemma tame_http_get {A} (resp : Request -> option A) r :
  verb r = "GET" -> tame (http_get resp r).
Proof.
  intros Hr. apply tame_bind; [apply tame_put_call, Hr | intros; apply tame_ret].
Qed.

#[local] Hint Resolve tame_ret tame_raise tame_logger tame_print_flush
     tame_enter_run tame_get_movies_cache tame_set_movies_cache
     tame_get_series_cache tame_set_series_cache tame_now tame_stop_requested
     tame_cutoff_of tame_add_hours : tame.

Ltac tame_step :=
  match goal with
  | |- tame (bind _ _) => apply tame_bind; [|intros]
  | |- tame (for_each _ _ _) => apply tame_for_each; intros
  | |- tame (try_except _ _) => apply tame_try_except; [|intros]
  | |- tame (http_get _ _) => apply tame_http_get; reflexivity
  | |- tame (match ?x with _ => _ end) => destruct x
  | |- tame (let '(_, _) := ?x in _) => destruct x
  | |- _ => solve [auto with tame]
  end.

Ltac tame_auto := repeat tame_step.

Lemma tame_get_libraries env c : tame (get_libraries env c).
Proof. unfold get_libraries. tame_auto. Qed.

Lemma tame_get_users env c : tame (get_users env c).
Proof. unfold get_users. tame_auto. Qed.

Lemma tame_EmbyClient_get_items_by_library env c id :
  tame (EmbyClient_get_items_by_library env c id).
Proof. unfold EmbyClient_get_items_by_library. tame_auto. Qed.

Lemma tame_get_user_items_by_library env c u id :
  tame (get_user_items_by_library env c u id).
Proof. unfold get_user_items_by_library. tame_auto. Qed.

Lemma tame_EmbyClient_get_episodes_by_series env c id :
  tame (EmbyClient_get_episodes_by_series env c id).
Proof. unfold EmbyClient_get_episodes_by_series. tame_auto. Qed.

Lemma tame_EmbyClient_get_user_episodes_by_series env c u id :
  tame (EmbyClient_get_user_episodes_by_series env c u id).
Proof. unfold EmbyClient_get_user_episodes_by_series. tame_auto. Qed.

Lemma tame_updated_get_items env c id : tame (updated_get_items env c id).
Proof. unfold updated_get_items. tame_auto. Qed.

Lemma tame_new_EmbyClient env url key wl :
  tame_client (new_EmbyClient env url key wl).
Proof.
  split; [|split]; intros; simpl.
  - apply tame_EmbyClient_get_items_by_library.
  - apply tame_EmbyClient_get_episodes_by_series.
  - apply tame_EmbyClient_get_user_episodes_by_series.
Qed.

Lemma tame_patch_ignore_episodes c :
  tame_client c -> tame_client (patch_ignore_episodes c).
Proof.
  intros (H1 & _ & _). split; [|split]; intros; simpl.
  - apply H1.
  - apply tame_ret.
  - apply tame_ret.
Qed.

Lemma tame_patch_get_items env c :
  tame_client c -> tame_client (patch_get_items env c).
Proof.
  intros (_ & H2 & H3). split; [|split]; intros; simpl.
  - apply tame_updated_get_items.
  - apply H2.
  - apply H3.
Qed.

Section TameClient.

Variable env : Env.
Variable c : EmbyClient.
Hypothesis Hc : tame_client c.

Let H_items := proj1 Hc.
Let H_episodes := proj1 (proj2 Hc).
Let H_user_episodes := proj2 (proj2 Hc).

Lemma tame_warn_missing wl names : tame (warn_missing wl names).
Proof. unfold warn_missing. tame_auto. Qed.

Lemma tame_whitelist_item cutoff u item wbw :
  tame (whitelist_item c cutoff u item wbw).
Proof. unfold whitelist_item. tame_auto. Qed.

Lemma tame_whitelist_pass cutoff libs ids :
  tame (whitelist_pass env c cutoff libs ids).
Proof.
  unfold whitelist_pass. tame_auto.
  - apply tame_get_user_items_by_library.
  - apply tame_whitelist_item.
Qed.

Lemma tame_scan_item cutoff wbw name item acc :
  tame (scan_item c cutoff wbw name item acc).
Proof. unfold scan_item. tame_auto. Qed.

Lemma tame_scan_pass cutoff wbw libs :
  tame (scan_pass c cutoff wbw libs).
Proof.
  unfold scan_pass. tame_auto. apply tame_scan_item.
Qed.

Lemma tame_get_unwatched_items_with cutoff names :
  tame (get_unwatched_items_with env c cutoff names).
Proof.
  unfold get_unwatched_items_with.
  apply tame_bind; [apply tame_get_users | intros users].
  destruct (find_whitelisted _ _) as [ids nms].
  apply tame_bind; [apply tame_warn_missing | intros _].
  apply tame_bind; [apply tame_get_libraries | intros libs].
  assert (R : forall l,
             tame
               (bind (match ids with
                      | [] => ret []
                      | _ => whitelist_pass env c cutoff l ids
                      end)
                     (fun wbw => scan_pass c cutoff wbw l))).
  { intros l. apply tame_bind.
    - destruct ids; [apply tame_ret | apply tame_whitelist_pass].
    - intros; apply tame_scan_pass. }
  destruct names as [[|n names]|]; try apply R.
  destruct (filter_libraries _ _); [|apply R].
  tame_auto.
Qed.

Lemma tame_get_unwatched_items d names :
  tame (get_unwatched_items env c d names).
Proof.
  unfold get_unwatched_items. tame_auto.
  apply tame_get_unwatched_items_with.
Qed.

Lemma tame_recently_updated cutoff items :
  tame (recently_updated c cutoff items).
Proof. unfold recently_updated. tame_auto. Qed.

End TameClient.

Lemma tame_get_all_series env c : tame (get_all_series env c).
Proof. unfold get_all_series. tame_auto. Qed.

Lemma tame_get_all_movies env c : tame (get_all_movies env c).
Proof. unfold get_all_movies. tame_auto. Qed.

Lemma tame_find_series_by_title env c t : tame (find_series_by_title env c t).
Proof. unfold find_series_by_title. tame_auto. apply tame_get_all_series. Qed.

Lemma tame_find_movie_by_title env c t : tame (find_movie_by_title env c t).
Proof. unfold find_movie_by_title. tame_auto. apply tame_get_all_movies. Qed.

Lemma tame_gather_item env rc sc ids item g :
  tame (gather_item env rc sc ids item g).
Proof.
  unfold gather_item. tame_auto.
  - apply tame_find_movie_by_title.
  - apply tame_find_series_by_title.
Qed.

Lemma tame_delete_step a (delete : Z -> bool -> M bool) row t :
  hands_free a -> tame (delete_step a delete row t).
Proof.
  unfold hands_free, delete_step, should_delete. intros Ha.
  destruct (row_Id row) as [id|]; [|apply tame_ret].
  destruct (delete_mode a).
  - rewrite Ha. apply tame_bind_const; [apply tame_print_flush | apply tame_ret].
  - apply tame_bind_ret. rewrite Ha. tame_auto.
  - apply tame_bind_ret. apply tame_ret.
Qed.

Lemma tame_deletion env a rc sc movies shows :
  hands_free a -> tame (deletion env a rc sc movies shows).
Proof.
  intros Ha. unfold deletion.
  assert (B : tame
    (print_flush (DeletionHeader (dry_run a)) ;;;
     m <- (match rc with
           | Some rc => for_each movies (delete_step a (delete_movie env rc))
                                 (mkTally 0 0)
           | None => ret (mkTally 0 0)
           end) ;;
     s <- (match sc with
           | Some sc => for_each shows (delete_step a (delete_series env sc))
                                 (mkTally 0 0)
           | None => ret (mkTally 0 0)
           end) ;;
     print_flush (DeletionSummary (dry_run a) (count m) (freed m) (count s)
                                  (freed s)))).
  { tame_auto; apply tame_delete_step, Ha. }
  destruct (delete_mode a); [exact B | exact B | apply tame_ret].
Qed.

Lemma tame_report_and_delete env a c sc rc items cutoff :
  hands_free a -> tame_client c ->
  tame (report_and_delete env a c sc rc items cutoff).
Proof.
  intros Ha Hc. unfold report_and_delete. tame_auto.
  - apply tame_recently_updated, Hc.
  - apply tame_gather_item.
  - apply tame_deletion, Ha.
Qed.

Lemma tame_process_body env a : hands_free a -> tame (process_body env a).
Proof.
  intros Ha. unfold process_body.
  set (c0 := new_EmbyClient env (server a) (api_key a) (PyStr.name_set (whitelist a))).
  set (c1 := if ignore_episodes a then patch_ignore_episodes c0 else c0).
  set (c2 := if negb (include_recent a) then patch_get_items env c1 else c1).
  assert (H0 : tame_client c0) by apply tame_new_EmbyClient.
  assert (H1 : tame_client c1).
  { unfold c1. destruct (ignore_episodes a); [apply tame_patch_ignore_episodes|]; exact H0. }
  assert (H2 : tame_client c2).
  { unfold c2. destruct (negb _); [apply tame_patch_get_items|]; exact H1. }
  clearbody c2. clear c0 c1 H0 H1.
  apply tame_bind.
  { unfold new_SonarrClient. tame_auto. }
  intros sc. apply tame_bind.
  { unfold new_RadarrClient. tame_auto. }
  intros rc.
  apply tame_bind; [apply tame_get_unwatched_items, H2 | intros items].
  tame_auto. apply tame_report_and_delete; assumption.
Qed.

Lemma tame_process_unwatched_media env a :
  hands_free a -> tame (process_unwatched_media env a).
Proof.
  intros Ha. unfold process_unwatched_media. tame_auto.
  apply tame_process_body, Ha.
Qed.

Lemma tame_print_end_of_run t h : tame (print_end_of_run t h).
Proof. unfold print_end_of_run. tame_auto. Qed.

Lemma tame_tick env a h lr : hands_free a -> tame (tick env a h lr).
Proof.
  intros Ha. unfold tick. tame_auto.
  - apply tame_process_unwatched_media, Ha.
  - apply tame_print_end_of_run.
Qed.

Lemma tame_scheduler_loop env n a h :
  hands_free a -> forall lr, tame (scheduler_loop env n a h lr).
Proof.
  intros Ha. induction n as [|n IH]; intros lr; simpl; tame_auto.
  apply tame_tick, Ha.
Qed.

Lemma tame_run_scheduled env n a h :
  hands_free a -> tame (run_scheduled env n a h).
Proof.
  intros Ha. unfold run_scheduled, scheduler_start. tame_auto.
  - apply tame_process_unwatched_media, Ha.
  - apply tame_print_end_of_run.
  - apply tame_scheduler_loop, Ha.
Qed.

Lemma tame_main_list_libraries env a : tame (main_list_libraries env a).
Proof. unfold main_list_libraries. tame_auto. apply tame_get_libraries. Qed.

Lemma tame_main_body env n a :
  list_libraries a = true
  \/ hands_free a
  \/ (interval_set a = true /\ delete_mode a = DeleteMode.interactive) ->
  tame (main_body env n a).
Proof.
  intros Ha. unfold main_body.
  destruct (list_libraries a); [apply tame_main_list_libraries|].
  assert (Hn : hands_free (set_delete_mode DeleteMode.none a)) by exact I.
  destruct (interval_set a) eqn:Hi.
  - destruct (_ <=? 0); [apply tame_logger|].
    destruct (delete_mode a) eqn:Hm.
    + apply tame_bind_const; [apply tame_logger|].
      tame_auto. apply tame_run_scheduled, Hn.
    + apply tame_bind_ret. tame_auto. apply tame_run_scheduled.
      destruct Ha as [Ha|[Ha|[_ Ha]]]; [discriminate | exact Ha | discriminate].
    + apply tame_bind_ret. tame_auto. apply tame_run_scheduled.
      unfold hands_free. rewrite Hm. exact I.
  - apply tame_process_unwatched_media.
    destruct Ha as [Ha|[Ha|[Ha _]]]; [discriminate | exact Ha | discriminate].
Qed.

End Tame.

(** A run asks nothing and deletes nothing whenever the options say so:
    with [--list-libraries]; with [--delete-mode none]; with
    [--delete-mode all] under [--dry-run]; and on a schedule with
    [--delete-mode interactive], which [main] turns into [none].  In each
    case, however long the script runs and whatever the services answer, it
    leaves the keyboard alone and every request it issues is a GET.  The same
    holds of [process_unwatched_media] on its own, where scheduled
    interactive deletion only prints what it would delete. *)
Theorem unattended_runs_only_read :
  forall env a,
    (list_libraries a = true \/ hands_free a ->
     forall n w, untouched w (snd (main env n a w)))
    /\ (hands_free a ->
        forall w, untouched w (snd (process_unwatched_media env a w))).
Proof.
  intros env a. split.
  - intros Ha n w. unfold main.
    assert (T : tame (main_body env n a)).
    { apply tame_main_body. destruct Ha as [Ha|Ha]; [left | right; left]; exact Ha. }
    specialize (T w).
    destruct (main_body env n a w) as [[u|[c| |s]] w']; simpl in *; exact T.
  - intros Ha w. apply tame_process_unwatched_media, Ha.
Qed.

(** ** [--list-libraries] *)

Lemma listing_loop libs :
  forall w,
  exists pre rest,
    libs = (pre ++ rest)%list
    /\ Forall has_type_slot pre
    /\ match rest with
       | [] => True
       | l :: _ => Library.TypeOptions l = Some []
       end
    /\ for_each libs
         (fun library (_ : unit) =>
            let library_name :=
              match Library.Name library with Some n => n | None => "Unknown" end in
            match Library.TypeOptions library with
            | None => print_flush (LibraryLine library_name "Unknown")
            | Some [] => raise (PyError "IndexError")
            | Some (t :: _) =>
                print_flush (LibraryLine library_name
                               (match t with Some s => s | None => "Unknown" end))
            end)
         tt w
       = (match rest with
          | [] => Ok tt
          | _ :: _ => Raise (PyError "IndexError")
          end, printed (map listed pre) w).
Proof.
  induction libs as [|l libs IH]; intros w.
  - exists [], []. simpl. rewrite printed_nil. repeat split. constructor.
  - simpl for_each.
    destruct (Library.TypeOptions l) as [[|t ts]|] eqn:E.
    + exists [], (l :: libs). simpl. rewrite printed_nil.
      repeat split; [constructor | exact E].
    + destruct (IH (printed [listed l] w)) as (pre & rest & L & F & R & Q).
      exists (l :: pre), rest.
      split; [simpl; f_equal; exact L|]. split.
      { constructor; [unfold has_type_slot; rewrite E; discriminate | exact F]. }
      split; [exact R|].
      erewrite bind_ok; [|unfold print_flush; reflexivity].
      match goal with |- for_each _ _ _ ?w1 = _ =>
        assert (W : w1 = printed [listed l] w)
          by (unfold printed, listed, library_type, library_name; rewrite E;
              destruct t; reflexivity);
        rewrite W
      end.
      change (map listed (l :: pre)) with ([listed l] ++ map listed pre)%list.
      rewrite <- (printed_app [listed l] (map listed pre) w). exact Q.
    + destruct (IH (printed [listed l] w)) as (pre & rest & L & F & R & Q).
      exists (l :: pre), rest.
      split; [simpl; f_equal; exact L|]. split.
      { constructor; [unfold has_type_slot; rewrite E; discriminate | exact F]. }
      split; [exact R|].
      erewrite bind_ok; [|unfold print_flush; reflexivity].
      match goal with |- for_each _ _ _ ?w1 = _ =>
        assert (W : w1 = printed [listed l] w)
          by (unfold printed, listed, library_type, library_name; rewrite E;
              reflexivity);
        rewrite W
      end.
      change (map listed (l :: pre)) with ([listed l] ++ map listed pre)%list.
      rewrite <- (printed_app [listed l] (map listed pre) w). exact Q.
Qed.

Lemma main_list_libraries_run env a w :
  exists pre rest w1,
    libraries_listed env a = (pre ++ rest)%list
    /\ Forall has_type_slot pre
    /\ match rest with
       | [] => True
       | l :: _ => Library.TypeOptions l = Some []
       end
    /\ calls w1
       = (calls w
            ++ [libraries_request
                  (conn (new_EmbyClient env (server a) (api_key a) []))])%list
    /\ stdout w1 = stdout w /\ runs w1 = runs w /\ nows w1 = nows w
    /\ stdin w1 = stdin w
    /\ main_list_libraries env a w
       = (match rest with
          | [] => Ok tt
          | _ :: _ => Raise (PyError "IndexError")
          end, printed (map listed pre) w1).
Proof.
  destruct (get_libraries_run env
              (conn (new_EmbyClient env (server a) (api_key a) [])) w)
    as (w1 & E & C).
  assert (S1 : stdout w1 = stdout w /\ runs w1 = runs w /\ nows w1 = nows w
               /\ stdin w1 = stdin w).
  { revert E. unfold get_libraries, http_get, bind, put_call, ret, logger.
    destruct (emby_libraries env _); intros H; apply (f_equal snd) in H;
      simpl in H; subst w1; repeat split. }
  destruct S1 as (O1 & R1 & N1 & I1).
  destruct (listing_loop (libraries_listed env a) w1)
    as (pre & rest & L & F & R & Q).
  exists pre, rest, w1. repeat (split; [assumption|]).
  unfold main_list_libraries. rewrite (bind_ok _ _ _ _ _ E). exact Q.
Qed.

(** With [--list-libraries] the script does one thing, whatever the other
    options: it asks the server for its libraries, once, and prints a line
    for each in the order received, with the type of the library's first
    type option.  It stops at the first library whose [TypeOptions] is an
    empty list, where indexing fails, and then exits with status 1 after
    the lines of the libraries before it; otherwise it ends normally.  No
    media is processed, the clock and the keyboard are left alone, and a
    failed request lists nothing. *)
Theorem list_libraries_prints_a_line_for_each :
  forall env n a w,
    list_libraries a = true ->
    exists pre rest,
      libraries_listed env a = (pre ++ rest)%list
      /\ Forall has_type_slot pre
      /\ let w' := snd (main env n a w) in
         calls w'
         = (calls w
              ++ [libraries_request
                    (conn (new_EmbyClient env (server a) (api_key a) []))])%list
         /\ stdout w' = (stdout w ++ map listed pre)%list
         /\ runs w' = runs w /\ nows w' = nows w /\ stdin w' = stdin w
         /\ match rest with
            | [] => fst (main env n a w) = Ok tt
            | l :: _ => Library.TypeOptions l = Some []
                        /\ fst (main env n a w) = Raise (SystemExit 1)
            end.
Proof.
  intros env n a w Hl.
  destruct (main_list_libraries_run env a w)
    as (pre & rest & w1 & L & F & R & C & O1 & R1 & N1 & I1 & Q).
  exists pre, rest. split; [exact L|]. split; [exact F|].
  unfold main, main_body. rewrite Hl, Q.
  destruct rest as [|l rest]; simpl.
  - rewrite C, O1, R1, N1, I1. repeat split.
  - unfold bind, logger, raise. simpl. rewrite C, O1, R1, N1, I1. repeat split.
    exact R.
Qed.

Lemma list_libraries_prints_a_line_for_each_witness :
  exists pre rest,
    libraries_listed Scenario.one_movie (set_list_libraries Scenario.plain)
    = (pre ++ rest)%list
    /\ stdout (snd (main Scenario.one_movie 0 (set_list_libraries Scenario.plain)
                         (world0 [])))
       = map listed pre.
Proof.
  destruct (list_libraries_prints_a_line_for_each
              Scenario.one_movie 0 (set_list_libraries Scenario.plain) (world0 [])
              eq_refl)
    as (pre & rest & L & _ & _ & O & _).
  exists pre, rest. split; [exact L | exact O].
Defined.

Lemma unattended_runs_only_read_witness :
  hands_free Scenario.dry_all
  /\ untouched (world0 [Line "y"])
               (snd (main Scenario.one_movie 0 Scenario.dry_all (world0 [Line "y"]))).
Proof.
  assert (H : hands_free Scenario.dry_all) by reflexivity.
  split; [exact H|].
  apply (proj1 (unattended_runs_only_read Scenario.one_movie Scenario.dry_all)).
  right. exact H.
Defined.
